(** * Session and resource isolation layer of the operations dashboard

    A shallow embedding of the multi-tenant revision of [app.js]: the
    connection registry ([connectionPool], [getConnection]), the guest
    dataset store ([guestStorage], [getGuestData]), the session gates
    ([requireAuth], [authenticate]), the activation, logout and
    tenant-write routes, the webhook route and the health check engine
    ([checkServerHealth]).

    Conventions.  A JavaScript [Map] or object used as a dictionary is a
    [gmap]; a rejected promise or a thrown exception is the [Throw] case
    of [Result]; module-level mutable state is threaded explicitly as a
    [World]; what the outside world decides (does a probe succeed, does
    a store operation fail, does closing a connection fail) is read from
    an [Env]. *)

From Stdlib Require Import String Ascii ZArith Bool List Lia.
From stdpp Require Import gmap strings list fin_maps.

Local Open Scope string_scope.
Local Open Scope Z_scope.

(** ** Values shared by all components *)

(** Outcome of an operation that may throw (or of an awaited promise
    that may reject). *)
Inductive Result (A : Type) : Type :=
| Ok (a : A)
| Throw (message : string).
Arguments Ok {A} a.
Arguments Throw {A} message.

(** JavaScript truthiness of a value that is either [undefined] or a
    string: only a non-empty string is truthy. *)
Definition truthy (v : option string) : bool :=
  match v with
  | Some s => negb (String.eqb s EmptyString)
  | None => false
  end.

(** A registered target ([ServerSchema]). *)
Record Server := {
  name : string;
  url : string;
  status : string
}.

(** One entry of a status mapping. *)
Record Health := {
  h_status : string;
  h_reason : string
}.

(** A health log entry ([LogSchema]). *)
Record Log := {
  timestamp : Z;
  statuses : gmap string Health
}.

(** A deployment record ([DeploymentSchema], the fields the routes set). *)
Record Deployment := {
  version : string;
  d_status : string;
  d_timestamp : Z;
  provider : string;
  project : string;
  environment : string
}.

(** The data of one tenant: the three collections.  The guest dataset
    and a backing store have the same shape. *)
Record Dataset := {
  servers : list Server;
  logs : list Log;
  deployments : list Deployment
}.

(** A mongoose connection object.  [readyState] is 0 (disconnected),
    1 (connected), 2 (connecting) or 3 (disconnecting). *)
Record Connection := {
  conn_uri : string;
  readyState : Z
}.

(** ** The process state *)

(** The module-level state of the process together with the backing
    stores it can reach.  Connection objects live in [connections],
    addressed by a handle; [connectionPool] holds handles, so that a
    cached entry and a handle returned earlier alias the same object.
    [created] counts the calls of [mongoose.createConnection] and is the
    next fresh handle.  [databases] maps a backing-store address to the
    data stored there; an address without an entry is unreachable. *)
Record World := {
  connectionPool : gmap string nat;
  connections : gmap nat Connection;
  created : nat;
  guestStorage : gmap string Dataset;
  databases : gmap string Dataset;
  PIPELINE_STATUS : string
}.

Definition set_connectionPool (p : gmap string nat) (w : World) : World :=
  {| connectionPool := p; connections := connections w;
     created := created w; guestStorage := guestStorage w;
     databases := databases w; PIPELINE_STATUS := PIPELINE_STATUS w |}.

Definition set_connections (c : gmap nat Connection) (w : World) : World :=
  {| connectionPool := connectionPool w; connections := c;
     created := created w; guestStorage := guestStorage w;
     databases := databases w; PIPELINE_STATUS := PIPELINE_STATUS w |}.

Definition set_created (n : nat) (w : World) : World :=
  {| connectionPool := connectionPool w; connections := connections w;
     created := n; guestStorage := guestStorage w;
     databases := databases w; PIPELINE_STATUS := PIPELINE_STATUS w |}.

Definition set_guestStorage (g : gmap string Dataset) (w : World) : World :=
  {| connectionPool := connectionPool w; connections := connections w;
     created := created w; guestStorage := g;
     databases := databases w; PIPELINE_STATUS := PIPELINE_STATUS w |}.

Definition set_databases (d : gmap string Dataset) (w : World) : World :=
  {| connectionPool := connectionPool w; connections := connections w;
     created := created w; guestStorage := guestStorage w;
     databases := d; PIPELINE_STATUS := PIPELINE_STATUS w |}.

Definition set_PIPELINE_STATUS (s : string) (w : World) : World :=
  {| connectionPool := connectionPool w; connections := connections w;
     created := created w; guestStorage := guestStorage w;
     databases := databases w; PIPELINE_STATUS := s |}.

(** The state of a freshly started process that can reach the stores [dbs]. *)
Definition initial_world (dbs : gmap string Dataset) : World :=
  {| connectionPool := ∅; connections := ∅; created := 0%nat;
     guestStorage := ∅; databases := dbs; PIPELINE_STATUS := "success" |}.

(** The error an [axios.get] rejects with: the response of the remote
    end (its status, as the template literal renders it, and its status
    text), a low-level error code, a message; each may be missing. *)
Record AxiosError := {
  err_response : option (string * string);
  err_code : option string;
  err_message : option string
}.

(** What a probed target answers: [axios.get] resolves or rejects. *)
Inductive Probe :=
| Resolved
| Rejected (error : AxiosError).

(** The store operations the routes issue. *)
Inductive DbOp :=
| OpFindServers
| OpSaveServer (server_name : string)
| OpSaveLog
| OpSaveDeployment
| OpDeleteServer
| OpDeleteLogs.

(** The answers of the outside world during one request. *)
Record Env := {
  axios_get : string -> Probe;
  db_fails : DbOp -> bool;
  close_fails : nat -> bool;
  stringify_fails : bool
}.

(** ** Guest dataset store *)

(** The seed snapshot written by [getGuestData]; [now] is [Date.now()]. *)
Definition guest_seed (now : Z) : Dataset :=
  {| servers :=
       [ {| name := "Demo Server 1"; url := "https://httpstat.us/200"; status := "Up" |};
         {| name := "Demo Server 2"; url := "https://httpstat.us/500"; status := "Down" |} ];
     logs :=
       [ {| timestamp := now - 60000;
            statuses :=
              <["Demo Server 1" := {| h_status := "Up"; h_reason := "OK 200" |}]>
              (<["Demo Server 2" := {| h_status := "Down"; h_reason := "HTTP 500" |}]> ∅) |} ];
     deployments :=
       [ {| version := "v1.0.0"; d_status := "success"; d_timestamp := now - 120000;
            provider := "manual"; project := "Demo Project";
            environment := "production" |} ] |}.

Definition getGuestData (now : Z) (sessionId : string) (w : World) : Dataset * World :=
  match guestStorage w !! sessionId with
  | Some d => (d, w)
  | None =>
      let d := guest_seed now in
      (d, set_guestStorage (<[sessionId := d]> (guestStorage w)) w)
  end.

(** ** Tenant connection registry *)

(** The template literal [`${sessionId}:${mongoUri}`]. *)
Definition connectionKey (sessionId mongoUri : string) : string :=
  sessionId +:+ ":" +:+ mongoUri.

(** [conn.readyState === 1] for the object behind handle [h]. *)
Definition is_live (w : World) (h : nat) : bool :=
  match connections w !! h with
  | Some c => readyState c =? 1
  | None => false
  end.

(** [mongoose.createConnection(mongoUri, ...)] followed by
    [await conn.asPromise()]: a new connection object is made in either
    case; the promise resolves (and the object is then connected) when
    the address is reachable and rejects otherwise. *)
Definition createConnection (mongoUri : string) (w : World) : Result nat * World :=
  let h := created w in
  match databases w !! mongoUri with
  | Some _ =>
      (Ok h,
       set_created (S h)
         (set_connections
            (<[h := {| conn_uri := mongoUri; readyState := 1 |}]> (connections w)) w))
  | None =>
      (Throw "MongoDB connection error",
       set_created (S h)
         (set_connections
            (<[h := {| conn_uri := mongoUri; readyState := 0 |}]> (connections w)) w))
  end.

(** The second half of [getConnection]: the [try] block that creates,
    awaits and caches; the [catch] rethrows, caching nothing. *)
Definition connect_and_cache (connectionKey : string) (mongoUri : string)
    (w : World) : Result nat * World :=
  match createConnection mongoUri w with
  | (Ok h, w') => (Ok h, set_connectionPool (<[connectionKey := h]> (connectionPool w')) w')
  | (Throw e, w') => (Throw e, w')
  end.

Definition getConnection (sessionId mongoUri : string) (w : World) : Result nat * World :=
  if String.eqb sessionId EmptyString || String.eqb mongoUri EmptyString
  then (Throw "Session ID and MongoDB URI are required", w)
  else
    let key := connectionKey sessionId mongoUri in
    match connectionPool w !! key with
    | Some h =>
        if is_live w h then (Ok h, w)
        else connect_and_cache key mongoUri
               (set_connectionPool (delete key (connectionPool w)) w)
    | None => connect_and_cache key mongoUri w
    end.

(** [n] sequential acquires for the same pair; the results are listed in
    call order. *)
Fixpoint acquire_many (n : nat) (sessionId mongoUri : string) (w : World)
  : list (Result nat) * World :=
  match n with
  | O => ([], w)
  | S n' =>
      let '(r, w1) := getConnection sessionId mongoUri w in
      let '(rs, w2) := acquire_many n' sessionId mongoUri w1 in
      (r :: rs, w2)
  end.

(** [conn.close()] resolving: the object becomes disconnected. *)
Definition disconnect (c : Connection) : Connection :=
  {| conn_uri := conn_uri c; readyState := 0 |}.

(** The body of the sweep that runs every five minutes, for one entry. *)
Definition sweep_entry (key : string) (h : nat) (w : World) : World :=
  if is_live w h then w
  else set_connectionPool (delete key (connectionPool w))
         (set_connections (alter disconnect h (connections w)) w).

Definition sweep (w : World) : World :=
  map_fold sweep_entry w (connectionPool w).

(** The body of the loop of the logout route, for one entry: an entry
    whose key starts with the session identity is closed and, when the
    close resolved, removed; a failing close is logged and the entry
    stays. *)
Definition release_entry (env : Env) (sessionId : string)
    (key : string) (h : nat) (w : World) : World :=
  if String.prefix sessionId key then
    if close_fails env h then w
    else set_connectionPool (delete key (connectionPool w))
           (set_connections (alter disconnect h (connections w)) w)
  else w.

Definition release (env : Env) (sessionId : string) (w : World) : World :=
  map_fold (release_entry env sessionId) w (connectionPool w).

(** ** Credential bundle parser *)

Module Dotenv.

(** The parser of the [dotenv] package, which [parseEnvContent] calls,
    is not part of the sources.  This module models it from section 4.1
    of the specification: the blob is a sequence of [KEY=VALUE] entries;
    comment lines, blank lines and lines without a separator are
    ignored; keys and values are trimmed; the first [=] separates; a
    value wrapped in one matching pair of quote characters is unwrapped;
    a value whose opening quote is not closed on its physical line
    extends over the following lines up to the line that holds the
    closing quote; of two entries for one key the later wins. *)

Definition LF : ascii := ascii_of_nat 10.
Definition EQUALS : ascii := ascii_of_nat 61.
Definition HASH : ascii := ascii_of_nat 35.
Definition DQUOTE : ascii := ascii_of_nat 34.
Definition SQUOTE : ascii := ascii_of_nat 39.

Definition is_space (c : ascii) : bool :=
  let n := nat_of_ascii c in
  Nat.eqb n 32 || Nat.eqb n 9 || Nat.eqb n 10 || Nat.eqb n 11
  || Nat.eqb n 12 || Nat.eqb n 13.

Definition is_quote (c : ascii) : bool :=
  Ascii.eqb c DQUOTE || Ascii.eqb c SQUOTE.

(** The physical lines of a blob: the pieces between line feeds. *)
Fixpoint split_lines (s : list ascii) : list (list ascii) :=
  match s with
  | [] => [[]]
  | c :: s' =>
      if Ascii.eqb c LF then [] :: split_lines s'
      else match split_lines s' with
           | l :: ls => (c :: l) :: ls
           | [] => [[c]]
           end
  end.

(** The lines joined again by single line feeds. *)
Fixpoint join_lines (ls : list (list ascii)) : list ascii :=
  match ls with
  | [] => []
  | [l] => l
  | l :: ls' => (l ++ LF :: join_lines ls')%list
  end.

Fixpoint ltrim (s : list ascii) : list ascii :=
  match s with
  | [] => []
  | c :: s' => if is_space c then ltrim s' else s
  end.

Definition rtrim (s : list ascii) : list ascii := rev (ltrim (rev s)).

Definition trim (s : list ascii) : list ascii := rtrim (ltrim s).

Definition contains (c : ascii) (s : list ascii) : bool :=
  existsb (Ascii.eqb c) s.

(** The text before and after the first occurrence of [c]. *)
Fixpoint break_at (c : ascii) (s : list ascii) : option (list ascii * list ascii) :=
  match s with
  | [] => None
  | x :: s' =>
      if Ascii.eqb x c then Some ([], s')
      else match break_at c s' with
           | Some (a, b) => Some (x :: a, b)
           | None => None
           end
  end.

(** A value wrapped in one matching pair of quotes loses the pair. *)
Definition unquote (s : list ascii) : list ascii :=
  match s with
  | q :: t =>
      if is_quote q then
        match rev t with
        | q' :: body => if Ascii.eqb q' q then rev body else s
        | [] => s
        end
      else s
  | [] => []
  end.

(** The index of the first of the following lines that holds [q]. *)
Fixpoint find_close (q : ascii) (ls : list (list ascii)) : option nat :=
  match ls with
  | [] => None
  | l :: ls' =>
      if contains q l then Some O
      else match find_close q ls' with
           | Some n => Some (S n)
           | None => None
           end
  end.

(** Modelled from the spec: the value of an entry whose text after the
    separator is [raw], and the number of following lines it extends
    over (section 4.1, quoted and multi-line values). *)
Definition read_value (raw : list ascii) (rest : list (list ascii))
  : list ascii * nat :=
  match ltrim raw with
  | q :: t =>
      if is_quote q && negb (contains q t) then
        match find_close q rest with
        | Some n =>
            (unquote (trim (join_lines (raw :: firstn (S n) rest))), S n)
        | None => (unquote (trim raw), O)
        end
      else (unquote (trim raw), O)
  | [] => ([], O)
  end.

Definition is_ignored (line : list ascii) : bool :=
  match trim line with
  | [] => true
  | c :: _ => Ascii.eqb c HASH
  end.

(** Modelled from the spec: the entries of the lines [ls], added to
    [acc] in order (section 4.1); [skip] lines at the front belong to
    the value of the entry before them. *)
Fixpoint parse_lines (skip : nat) (ls : list (list ascii))
    (acc : gmap string string) : gmap string string :=
  match ls with
  | [] => acc
  | line :: rest =>
      match skip with
      | S k => parse_lines k rest acc
      | O =>
          if is_ignored line then parse_lines O rest acc
          else
            match break_at EQUALS line with
            | None => parse_lines O rest acc
            | Some (k, raw) =>
                match trim k with
                | [] => parse_lines O rest acc
                | key =>
                    let '(v, n) := read_value raw rest in
                    parse_lines n rest
                      (<[string_of_list_ascii key := string_of_list_ascii v]> acc)
                end
            end
      end
  end.

(** Modelled from the spec: [dotenv.parse], whose code is not part of
    the sources.  The bundle of a blob is what its lines bind, read in
    order from nothing, as section 4.1 describes the parser. *)
Definition parse (src : string) : gmap string string :=
  parse_lines O (split_lines (list_ascii_of_string src)) ∅.

End Dotenv.

(** [parseEnvContent(buffer)] returns [dotenv.parse(buffer)]. *)
Definition parseEnvContent (buffer : string) : gmap string string :=
  Dotenv.parse buffer.

(** ** Blobs built from entries *)

(** The entries a well-formed blob is made of: a comment line, a blank
    line, an assignment of a bare value, and an assignment of a value
    wrapped in the quote character [q], which may hold line feeds. *)
Inductive Entry :=
| Comment (text : list ascii)
| Blank
| Plain (key value : list ascii)
| Quoted (key : list ascii) (q : ascii) (value : list ascii).

Definition render_entry (e : Entry) : list ascii :=
  match e with
  | Comment text => Dotenv.HASH :: text
  | Blank => []
  | Plain key value => (key ++ Dotenv.EQUALS :: value)%list
  | Quoted key q value => (key ++ Dotenv.EQUALS :: q :: value ++ [q])%list
  end.

(** The blob: every entry followed by a line feed. *)
Fixpoint render (es : list Entry) : list ascii :=
  match es with
  | [] => []
  | e :: es' => (render_entry e ++ Dotenv.LF :: render es')%list
  end.

Definition blob_of (es : list Entry) : string := string_of_list_ascii (render es).

(** No white space at either end. *)
Definition trimmed (s : list ascii) : Prop :=
  Dotenv.ltrim s = s /\ Dotenv.rtrim s = s.

Definition wf_key (key : list ascii) : Prop :=
  key <> [] /\ trimmed key /\
  Dotenv.contains Dotenv.EQUALS key = false /\
  Dotenv.contains Dotenv.LF key = false /\
  hd_error key <> Some Dotenv.HASH.

Definition wf_entry (e : Entry) : Prop :=
  match e with
  | Comment text => Dotenv.contains Dotenv.LF text = false
  | Blank => True
  | Plain key value =>
      wf_key key /\ trimmed value /\ Dotenv.contains Dotenv.LF value = false /\
      match value with
      | c :: _ => Dotenv.is_quote c = false
      | [] => True
      end
  | Quoted key q value =>
      wf_key key /\ Dotenv.is_quote q = true /\ Dotenv.contains q value = false
  end.

(** The key an entry assigns, if it assigns one. *)
Definition assigned_key (e : Entry) : option (list ascii) :=
  match e with
  | Plain key _ | Quoted key _ _ => Some key
  | Comment _ | Blank => None
  end.

(** What an entry does to the bundle read so far. *)
Definition bind_entry (m : gmap string string) (e : Entry) : gmap string string :=
  match e with
  | Plain key value | Quoted key _ value =>
      <[string_of_list_ascii key := string_of_list_ascii value]> m
  | Comment _ | Blank => m
  end.

(** The bundle the entries describe: later assignments win. *)
Definition bundle_of (es : list Entry) : gmap string string :=
  fold_left bind_entry es ∅.

Definition is_comment (e : Entry) : bool :=
  match e with
  | Comment _ => true
  | _ => false
  end.

(** The entries without the comment lines. *)
Definition without_comments (es : list Entry) : list Entry :=
  List.filter (fun e => negb (is_comment e)) es.

(** ** Session context *)

(** [PORT] is the number 3000 unless the bundle supplies a string. *)
Inductive Port :=
| PortNumber (n : Z)
| PortString (s : string).

(** The configuration attached to a session.  [GUEST_CONFIG] has no
    [MONGO_URI] property. *)
Record Config := {
  MONGO_URI : option string;
  API_KEY : string;
  RENDER_API_KEY : string;
  PORT : Port
}.

Definition GUEST_CONFIG : Config :=
  {| MONGO_URI := None; API_KEY := "guest-api-key-12345";
     RENDER_API_KEY := EmptyString; PORT := PortNumber 3000 |}.

(** [req.session]: the two properties the application sets on it; a
    property never set is [undefined]. *)
Record Session := {
  config : option Config;
  isGuest : option bool
}.

(** The session of a browser that has activated nothing, and what is
    left after [req.session.destroy]. *)
Definition empty_session : Session := {| config := None; isGuest := None |}.

(** The parts of a request the routes read. *)
Record Request := {
  sessionID : string;
  x_api_key : option string;
  file : option string;
  body_version : option string;
  body_name : option string;
  body_url : option string;
  param_name : string
}.

Inductive Response :=
| Redirect (location : string)
| Json (code : Z) (message : string).

(** A middleware either calls [next()] or answers the request. *)
Inductive Gate :=
| Next
| Stop (answer : Response).

(** [v === b] for a property that is [undefined] or a boolean. *)
Definition strictly (b : bool) (v : option bool) : bool :=
  match v with
  | Some b' => Bool.eqb b b'
  | None => false
  end.

Definition present {A : Type} (v : option A) : bool :=
  match v with
  | Some _ => true
  | None => false
  end.

Definition requireAuth (s : Session) : Gate :=
  if strictly false (isGuest s) && present (config s) then Next
  else if strictly true (isGuest s) then Next
  else Stop (Redirect "/?error=upload_required").

Definition authenticate (req : Request) (s : Session) : Gate :=
  let sessionApiKey :=
    match config s with
    | Some c => API_KEY c
    | None => API_KEY GUEST_CONFIG
    end in
  match x_api_key req with
  | Some apiKey =>
      if String.eqb apiKey sessionApiKey then Next
      else Stop (Json 403 "Forbidden: Invalid API Key")
  | None => Stop (Json 403 "Forbidden: Invalid API Key")
  end.

(** [req.session.config.MONGO_URI] as passed to [getConnection]; a
    missing property is [undefined], which [getConnection] rejects like
    the empty string. *)
Definition session_uri (s : Session) : string :=
  match config s with
  | Some c => default EmptyString (MONGO_URI c)
  | None => EmptyString
  end.

(** [v || d] for a bundle field. *)
Definition or_default (v : option string) (d : string) : string :=
  if truthy v then default d v else d.

(** ** Activation and logout routes *)

(** [POST /upload-env].  The outer [catch] (error code [upload_failed])
    guards statements that cannot throw here. *)
Definition upload_env (req : Request) (s : Session) (w : World)
  : Response * Session * World :=
  match file req with
  | None => (Redirect "/?error=no_file", s, w)
  | Some buffer =>
      let parsed := parseEnvContent buffer in
      if negb (truthy (parsed !! "MONGO_URI")) || negb (truthy (parsed !! "API_KEY"))
      then (Redirect "/?error=invalid_env", s, w)
      else
        let s' :=
          {| config :=
               Some {| MONGO_URI := parsed !! "MONGO_URI";
                       API_KEY := default EmptyString (parsed !! "API_KEY");
                       RENDER_API_KEY := or_default (parsed !! "RENDER_API_KEY") EmptyString;
                       PORT := if truthy (parsed !! "PORT")
                               then PortString (default EmptyString (parsed !! "PORT"))
                               else PortNumber 3000 |};
             isGuest := Some false |} in
        match getConnection (sessionID req)
                (default EmptyString (parsed !! "MONGO_URI")) w with
        | (Ok _, w') => (Redirect "/dashboard", s', w')
        | (Throw _, w') => (Redirect "/?error=db_connection_failed", s', w')
        end
  end.

(** [POST /guest-mode]. *)
Definition guest_mode (now : Z) (req : Request) (s : Session) (w : World)
  : Response * Session * World :=
  let s' := {| config := Some GUEST_CONFIG; isGuest := Some true |} in
  let '(_, w') := getGuestData now (sessionID req) w in
  (Redirect "/dashboard", s', w').

(** [GET /logout]. *)
Definition logout (env : Env) (req : Request) (s : Session) (w : World)
  : Response * Session * World :=
  let sessionId := sessionID req in
  let w1 := set_guestStorage (delete sessionId (guestStorage w)) w in
  let w2 := release env sessionId w1 in
  (Redirect "/", empty_session, w2).

(** ** Store access through a connection *)

(** The data behind handle [h], when the connection object exists and
    its address is reachable. *)
Definition store_of (w : World) (h : nat) : option (string * Dataset) :=
  match connections w !! h with
  | Some c =>
      match databases w !! conn_uri c with
      | Some d => Some (conn_uri c, d)
      | None => None
      end
  | None => None
  end.

(** A read: rejects when the outside world says so or the store cannot
    be reached. *)
Definition db_read (env : Env) (op : DbOp) (h : nat) (w : World) : Result Dataset :=
  if db_fails env op then Throw "store operation failed"
  else match store_of w h with
       | Some (_, d) => Ok d
       | None => Throw "store unreachable"
       end.

(** A write replacing the data by [f] of it. *)
Definition db_write (env : Env) (op : DbOp) (h : nat) (f : Dataset -> Dataset)
    (w : World) : Result unit * World :=
  if db_fails env op then (Throw "store operation failed", w)
  else match store_of w h with
       | Some (uri, d) => (Ok tt, set_databases (<[uri := f d]> (databases w)) w)
       | None => (Throw "store unreachable", w)
       end.

Definition with_servers (f : list Server -> list Server) (d : Dataset) : Dataset :=
  {| servers := f (servers d); logs := logs d; deployments := deployments d |}.

Definition with_logs (f : list Log -> list Log) (d : Dataset) : Dataset :=
  {| servers := servers d; logs := f (logs d); deployments := deployments d |}.

Definition with_deployments (f : list Deployment -> list Deployment) (d : Dataset)
  : Dataset :=
  {| servers := servers d; logs := logs d; deployments := f (deployments d) |}.

Definition has_name (n : string) (s : Server) : bool := String.eqb (name s) n.

(** [findOneAndDelete({ name })]: the first document of that name goes. *)
Fixpoint remove_first (n : string) (l : list Server) : list Server :=
  match l with
  | [] => []
  | s :: l' => if has_name n s then l' else s :: remove_first n l'
  end.

(** [server.save()] for a document read from the store: the document of
    that name is replaced. *)
Definition replace_server (s : Server) (l : list Server) : list Server :=
  map (fun s' => if has_name (name s) s' then s else s') l.

(** ** Tenant-write routes *)

(** The handler of [POST /deploy], behind [requireAuth] and
    [authenticate].  The timer that later marks the deployment
    successful is [deploy_timer]. *)
Definition deploy_handler (env : Env) (now : Z) (req : Request) (s : Session)
    (w : World) : Response * Session * World :=
  if negb (truthy (body_version req))
  then (Json 400 "Version is required", s, w)
  else if strictly true (isGuest s)
  then (Json 403 "Cannot deploy in guest mode", s, w)
  else
    match getConnection (sessionID req) (session_uri s) w with
    | (Throw _, w1) => (Json 500 "Deployment failed", s, w1)
    | (Ok h, w1) =>
        let w2 := set_PIPELINE_STATUS "in_progress" w1 in
        let deployment :=
          {| version := default EmptyString (body_version req);
             d_status := "in_progress"; d_timestamp := now;
             provider := "manual"; project := EmptyString;
             environment := EmptyString |} in
        match db_write env OpSaveDeployment h
                (with_deployments (fun l => l ++ [deployment])%list) w2 with
        | (Throw _, w3) => (Json 500 "Deployment failed", s, w3)
        | (Ok _, w3) => (Json 200 "Deployment triggered", s, w3)
        end
    end.

(** [deployment.status = "success"] for the document at position [i]. *)
Definition mark_success (i : nat) (l : list Deployment) : list Deployment :=
  alter (fun d => {| version := version d; d_status := "success";
                     d_timestamp := d_timestamp d; provider := provider d;
                     project := project d; environment := environment d |}) i l.

(** The callback [setTimeout] runs two seconds after a deployment was
    triggered through handle [h].  The callback holds the document the
    handler saved; the store only ever appends deployments, so the
    document is the one at the position [i] it was appended at. *)
Definition deploy_timer (env : Env) (h : nat) (i : nat) (w : World) : World :=
  let w1 := set_PIPELINE_STATUS "success" w in
  snd (db_write env OpSaveDeployment h (with_deployments (mark_success i)) w1).

(** The handler of [POST /servers]. *)
Definition add_server_handler (env : Env) (req : Request) (s : Session)
    (w : World) : Response * Session * World :=
  if strictly true (isGuest s)
  then (Json 403 "Cannot add servers in guest mode", s, w)
  else if negb (truthy (body_name req)) || negb (truthy (body_url req))
  then (Json 400 "Name and URL are required", s, w)
  else
    match getConnection (sessionID req) (session_uri s) w with
    | (Throw _, w1) => (Json 500 "Internal Server Error", s, w1)
    | (Ok h, w1) =>
        let n := default EmptyString (body_name req) in
        let server := {| name := n; url := default EmptyString (body_url req);
                         status := "Unknown" |} in
        match db_read env (OpSaveServer n) h w1 with
        | Throw _ => (Json 500 "Internal Server Error", s, w1)
        | Ok d =>
            if existsb (has_name n) (servers d)
            then (Json 409 "Server with this name already exists", s, w1)
            else
              match db_write env (OpSaveServer n) h
                      (with_servers (fun l => l ++ [server])%list) w1 with
              | (Throw _, w2) => (Json 500 "Internal Server Error", s, w2)
              | (Ok _, w2) => (Json 201 "Server added", s, w2)
              end
        end
    end.

(** The handler of [DELETE /servers/:name]. *)
Definition delete_server_handler (env : Env) (req : Request) (s : Session)
    (w : World) : Response * Session * World :=
  if strictly true (isGuest s)
  then (Json 403 "Cannot delete servers in guest mode", s, w)
  else
    match getConnection (sessionID req) (session_uri s) w with
    | (Throw _, w1) => (Json 500 "Internal Server Error", s, w1)
    | (Ok h, w1) =>
        match db_read env OpDeleteServer h w1 with
        | Throw _ => (Json 500 "Internal Server Error", s, w1)
        | Ok d =>
            if existsb (has_name (param_name req)) (servers d)
            then
              match db_write env OpDeleteServer h
                      (with_servers (remove_first (param_name req))) w1 with
              | (Throw _, w2) => (Json 500 "Internal Server Error", s, w2)
              | (Ok _, w2) => (Json 200 "Server removed", s, w2)
              end
            else (Json 404 "Server not found", s, w1)
        end
    end.

(** The handler of [POST /logs_delete]. *)
Definition logs_delete_handler (env : Env) (req : Request) (s : Session)
    (w : World) : Response * Session * World :=
  if strictly true (isGuest s)
  then (Json 403 "Cannot delete logs in guest mode", s, w)
  else
    match getConnection (sessionID req) (session_uri s) w with
    | (Throw _, w1) => (Json 500 "Internal Server Error", s, w1)
    | (Ok h, w1) =>
        match db_write env OpDeleteLogs h (with_logs (fun _ => [])) w1 with
        | (Throw _, w2) => (Json 500 "Internal Server Error", s, w2)
        | (Ok _, w2) => (Redirect "/dashboard", s, w2)
        end
    end.

(** A handler behind a chain of middlewares: the first that does not
    call [next()] answers. *)
Fixpoint behind (gates : list Gate) (handler : Response * Session * World)
    (s : Session) (w : World) : Response * Session * World :=
  match gates with
  | [] => handler
  | Next :: gates' => behind gates' handler s w
  | Stop r :: _ => (r, s, w)
  end.

(** [app.post("/deploy", requireAuth, authenticate, ...)]. *)
Definition post_deploy (env : Env) (now : Z) (req : Request) (s : Session)
    (w : World) : Response * Session * World :=
  behind [requireAuth s; authenticate req s] (deploy_handler env now req s w) s w.

(** [app.post("/servers", requireAuth, authenticate, ...)]. *)
Definition post_servers (env : Env) (req : Request) (s : Session) (w : World)
  : Response * Session * World :=
  behind [requireAuth s; authenticate req s] (add_server_handler env req s w) s w.

(** [app.delete("/servers/:name", requireAuth, ...)]. *)
Definition delete_servers (env : Env) (req : Request) (s : Session) (w : World)
  : Response * Session * World :=
  behind [requireAuth s] (delete_server_handler env req s w) s w.

(** [app.post('/logs_delete', requireAuth, authenticate, ...)]. *)
Definition post_logs_delete (env : Env) (req : Request) (s : Session) (w : World)
  : Response * Session * World :=
  behind [requireAuth s; authenticate req s] (logs_delete_handler env req s w) s w.

(** ** Webhook route *)

(** [POST /webhooks/render]: the payload is logged and acknowledged.
    The only statement of the [try] block that can throw is the
    rendering of the payload for the log. *)
Definition webhooks_render (env : Env) (req : Request) (s : Session) (w : World)
  : Response * Session * World :=
  if stringify_fails env
  then (Json 500 "Webhook processing failed", s, w)
  else (Json 200 "Webhook received", s, w).

(** ** Health check engine *)

(** The status recorded for a probed target: the [try] around
    [axios.get] and its [catch]. *)
Definition classify (p : Probe) : Health :=
  match p with
  | Resolved => {| h_status := "Up"; h_reason := "OK 200" |}
  | Rejected error =>
      let reason :=
        match err_response error with
        | Some (code, statusText) => "HTTP " +:+ code +:+ " " +:+ statusText
        | None =>
            if truthy (err_code error) then default EmptyString (err_code error)
            else if truthy (err_message error)
                 then default EmptyString (err_message error)
                 else "Connection failed"
        end in
      {| h_status := "Down"; h_reason := reason |}
  end.

(** The name through which a plain object reaches its prototype. *)
Definition PROTO : string := "__proto__".

(** [statuses[name] = health] on the plain object [statuses], which is
    kept as the mapping of its own keys.  For the name [__proto__] the
    assignment goes to the accessor of [Object.prototype]: [health]
    becomes the prototype of [statuses] and no key is added.  Read back
    on the next line, [statuses[name]] is [health] in either case. *)
Definition set_status (name : string) (health : Health)
    (st : gmap string Health) : gmap string Health :=
  if String.eqb name PROTO then st else <[name := health]> st.

(** The loop over the registered targets.  The mapping [st] is the
    variable [statuses], updated in place, so what was recorded before a
    failing [server.save()] stays recorded. *)
Fixpoint probe_servers (env : Env) (h : nat) (targets : list Server)
    (st : gmap string Health) (w : World)
  : Result unit * gmap string Health * World :=
  match targets with
  | [] => (Ok tt, st, w)
  | server :: rest =>
      let health := classify (axios_get env (url server)) in
      let st1 := set_status (name server) health st in
      let server' := {| name := name server; url := url server;
                        status := h_status health |} in
      match db_write env (OpSaveServer (name server)) h
              (with_servers (replace_server server')) w with
      | (Ok _, w1) => probe_servers env h rest st1 w1
      | (Throw e, w1) => (Throw e, st1, w1)
      end
  end.

(** The status shown for a guest target. *)
Definition guest_health (server : Server) : Health :=
  {| h_status := status server;
     h_reason := if String.eqb (status server) "Up" then "OK 200"
                 else "Connection failed" |}.

(** How the [try] block of [checkServerHealth] ends. *)
Inductive Completion :=
| Returned (value : gmap string Health)
| Completed
| Thrown (message : string).

(** The [try] block of [checkServerHealth]; the second component is the
    variable [statuses] when the block ends.  The targets of a guest
    dataset carry the names of the seed, ordinary keys, for which the
    assignment to [statuses] is an insertion. *)
Definition health_try (env : Env) (now : Z) (sessionId : string) (guest : bool)
    (connection : option nat) (w : World)
  : Completion * gmap string Health * World :=
  if guest then
    let '(guestData, w1) := getGuestData now sessionId w in
    let st := foldl (fun st server => <[name server := guest_health server]> st)
                ∅ (servers guestData) in
    (Returned st, st, w1)
  else
    match connection with
    | None => (Thrown "Database connection required for authenticated mode", ∅, w)
    | Some h =>
        match db_read env OpFindServers h w with
        | Throw e => (Thrown e, ∅, w)
        | Ok d =>
            match probe_servers env h (servers d) ∅ w with
            | (Throw e, st, w1) => (Thrown e, st, w1)
            | (Ok _, st, w1) =>
                match db_write env OpSaveLog h
                        (with_logs (fun l => l ++ [{| timestamp := now; statuses := st |}])%list)
                        w1 with
                | (Throw e, w2) => (Thrown e, st, w2)
                | (Ok _, w2) => (Completed, st, w2)
                end
            end
        end
    end.

(** [checkServerHealth(sessionId, isGuest, connection)]: the [catch]
    logs, and whatever [statuses] holds is returned. *)
Definition checkServerHealth (env : Env) (now : Z) (sessionId : string)
    (guest : bool) (connection : option nat) (w : World)
  : Result (gmap string Health) * World :=
  match health_try env now sessionId guest connection w with
  | (Returned value, _, w') => (Ok value, w')
  | (Completed, st, w') => (Ok st, w')
  | (Thrown _, st, w') => (Ok st, w')
  end.

(** ** Session expiry *)

(** [sessionConfig.cookie.maxAge]: thirty minutes, in milliseconds. *)
Definition maxAge : Z := 30 * 60 * 1000.

(** A record of the session store: the session and the time of the last
    request that touched it. *)
Record StoredSession := {
  stored : Session;
  lastActive : Z
}.

(** Modelled from the spec: the session middleware ([express-session],
    configured by [sessionConfig]) is not part of the sources.  On a
    request it hands the route the stored session of the identity,
    unless the record is older than [maxAge]: such a record is dropped
    from the session store and the route sees a session on which
    nothing is set. *)
Definition load_session (now : Z) (sessionId : string)
    (store : gmap string StoredSession) : Session * gmap string StoredSession :=
  match store !! sessionId with
  | Some r =>
      if lastActive r + maxAge <=? now
      then (empty_session, delete sessionId store)
      else (stored r, store)
  | None => (empty_session, store)
  end.

(** What every protected route starts with: the session middleware,
    then [requireAuth].  Neither reaches [connectionPool] or
    [guestStorage], which are private to the application module and are
    touched only by [getConnection], [getGuestData], the sweep and the
    logout route; the process state passes through as it is. *)
Definition protected_gate (now : Z) (sessionId : string)
    (store : gmap string StoredSession) (w : World)
  : Gate * gmap string StoredSession * World :=
  let '(s, store') := load_session now sessionId store in
  (requireAuth s, store', w).

(** A request of session [sessionId] that carries nothing else. *)
Definition bare_request (sessionId : string) : Request :=
  {| sessionID := sessionId; x_api_key := None; file := None;
     body_version := None; body_name := None; body_url := None;
     param_name := EmptyString |}.

(** ** Well-formed registries *)

(** The handles of the registry were all created, and no connection
    object sits under two keys. *)
Definition wf_world (w : World) : Prop :=
  (forall k h, connectionPool w !! k = Some h -> (h < created w)%nat) /\
  (forall k1 k2 h, connectionPool w !! k1 = Some h ->
                   connectionPool w !! k2 = Some h -> k1 = k2).

(** ** Sample states *)

Definition empty_dataset : Dataset :=
  {| servers := []; logs := []; deployments := [] |}.

(** An outside world in which every probe answers and nothing fails. *)
Definition quiet_env : Env :=
  {| axios_get := fun _ => Resolved; db_fails := fun _ => false;
     close_fails := fun _ => false; stringify_fails := false |}.

(** A fresh process that reaches one empty store. *)
Definition demo_world : World :=
  initial_world (<["db://x" := empty_dataset]> ∅).

(** [demo_world] after session [sessA] acquired its connection. *)
Definition world_one_session : World :=
  (getConnection "sessA" "db://x" demo_world).2.

(** [demo_world] after the sessions [s1] and [s10] acquired theirs. *)
Definition world_two_sessions : World :=
  (getConnection "s10" "db://x" (getConnection "s1" "db://x" demo_world).2).2.

(** A line feed, to build blobs of several lines. *)
Definition NL : string := String Dotenv.LF EmptyString.

(** A request uploading the blob [buffer] for session [sessionId]. *)
Definition upload_request (sessionId buffer : string) : Request :=
  {| sessionID := sessionId; x_api_key := None; file := Some buffer;
     body_version := None; body_name := None; body_url := None;
     param_name := EmptyString |}.

(** The request [req] with the header [x-api-key] replaced. *)
Definition with_api_key (k : option string) (req : Request) : Request :=
  {| sessionID := sessionID req; x_api_key := k; file := file req;
     body_version := body_version req; body_name := body_name req;
     body_url := body_url req; param_name := param_name req |}.

(** A bundle naming an address nobody answers at. *)
Definition unreachable_bundle : string :=
  "MONGO_URI=db://down" +:+ NL +:+ "API_KEY=k1" +:+ NL.

(** The session [POST /guest-mode] leaves. *)
Definition guest_session : Session :=
  {| config := Some GUEST_CONFIG; isGuest := Some true |}.

(** The session a successful upload of address [db://x] and key [k1]
    leaves. *)
Definition tenant_session : Session :=
  {| config := Some {| MONGO_URI := Some "db://x"; API_KEY := "k1";
                       RENDER_API_KEY := EmptyString; PORT := PortNumber 3000 |};
     isGuest := Some false |}.

(** A process that reaches a store holding the target [svc1]. *)
Definition tenant_world : World :=
  initial_world
    (<["db://x" := {| servers := [ {| name := "svc1"; url := "http://ok";
                                      status := "Unknown" |} ];
                      logs := []; deployments := [] |}]> ∅).

(** While the session is refused by [requireAuth]. *)
Definition unauthenticated (s : Session) : Prop :=
  requireAuth s = Stop (Redirect "/?error=upload_required").

(** Thirty-one minutes, in milliseconds. *)
Definition thirty_one_minutes : Z := 31 * 60 * 1000.

(** A session store whose record of [sessA], a credentialed session,
    was last touched at time 0. *)
Definition stale_store : gmap string StoredSession :=
  <["sessA" := {| stored := tenant_session; lastActive := 0 |}]> ∅.

(** Two targets; nobody answers at the address of the first. *)
Definition two_targets : list Server :=
  [ {| name := "a"; url := "http://dead"; status := "Unknown" |};
    {| name := "b"; url := "http://ok"; status := "Unknown" |} ].

(** An outside world in which the probe of [http://dead] is refused. *)
Definition flaky_env : Env :=
  {| axios_get := fun u => if String.eqb u "http://dead"
                           then Rejected {| err_response := None;
                                            err_code := Some "ECONNREFUSED";
                                            err_message := Some "connect failed" |}
                           else Resolved;
     db_fails := fun _ => false; close_fails := fun _ => false;
     stringify_fails := false |}.

(** A process whose session [sessA] holds a connection to a store with
    the two targets. *)
Definition two_target_world : World :=
  (getConnection "sessA" "db://x"
     (initial_world
        (<["db://x" := {| servers := two_targets; logs := [];
                          deployments := [] |}]> ∅))).2.

(** The characters of a string. *)
Definition chars (s : string) : list ascii := list_ascii_of_string s.

(** A value of four lines; its third line starts like a comment. *)
Definition sample_value : list ascii :=
  chars ("-----BEGIN KEY-----" +:+ NL +:+ "abc=def" +:+ NL
         +:+ "#not a comment" +:+ NL +:+ "-----END KEY-----").

Definition sample_before : list Entry :=
  [ Comment (chars " service settings");
    Plain (chars "MONGO_URI") (chars "db://x?a=b") ].

Definition sample_after : list Entry :=
  [ Blank;
    Comment (chars "API_KEY=commented");
    Plain (chars "API_KEY") (chars "k1") ].


(** ** Events of the outside world and identities *)

(** The connection behind handle [h] drops: its object becomes
    disconnected while the registry still caches it. *)
Definition drop_connection (h : nat) (w : World) : World :=
  set_connections (alter disconnect h (connections w)) w.

(** No colon in the text, as in the identities the session middleware
    issues. *)
Fixpoint colon_free (s : string) : bool :=
  match s with
  | EmptyString => true
  | String c s' => negb (Ascii.eqb c ":") && colon_free s'
  end.

(** Every cached entry points to a connection object, and its key is
    the key of a colon-free identity and of the address that object was
    opened for. *)
Definition pool_sound (w : World) : Prop :=
  forall k h, connectionPool w !! k = Some h ->
    exists c s, connections w !! h = Some c /\ colon_free s = true /\
                k = connectionKey s (conn_uri c).

(** [world_one_session] after the connection of [sessA] dropped. *)
Definition world_dropped : World := drop_connection 0 world_one_session.

(** ** Runs of the process *)

(** What can happen to the process: a request reaching one of the
    routes with the session the middleware attached to it, the timer of
    a deployment firing, a health check, the sweep, a connection
    dropping. *)
Inductive Action :=
| Upload (req : Request) (s : Session)
| GuestMode (now : Z) (req : Request) (s : Session)
| Logout (env : Env) (req : Request) (s : Session)
| Deploy (env : Env) (now : Z) (req : Request) (s : Session)
| DeployTimer (env : Env) (h : nat) (i : nat)
| AddServer (env : Env) (req : Request) (s : Session)
| DeleteServer (env : Env) (req : Request) (s : Session)
| LogsDelete (env : Env) (req : Request) (s : Session)
| Webhook (env : Env) (req : Request) (s : Session)
| HealthCheck (env : Env) (now : Z) (sessionId : string) (guest : bool)
    (connection : option nat)
| Sweep
| Drop (h : nat).

(** The process state after the action. *)
Definition run (a : Action) (w : World) : World :=
  match a with
  | Upload req s => (upload_env req s w).2
  | GuestMode now req s => (guest_mode now req s w).2
  | Logout env req s => (logout env req s w).2
  | Deploy env now req s => (post_deploy env now req s w).2
  | DeployTimer env h i => deploy_timer env h i w
  | AddServer env req s => (post_servers env req s w).2
  | DeleteServer env req s => (delete_servers env req s w).2
  | LogsDelete env req s => (post_logs_delete env req s w).2
  | Webhook env req s => (webhooks_render env req s w).2
  | HealthCheck env now sessionId guest connection =>
      (checkServerHealth env now sessionId guest connection w).2
  | Sweep => sweep w
  | Drop h => drop_connection h w
  end.

Definition run_all (actions : list Action) (w : World) : World :=
  fold_left (fun w a => run a w) actions w.

(** The registry part of the state is the same in both. *)
Definition same_registry (w w' : World) : Prop :=
  connectionPool w' = connectionPool w /\ connections w' = connections w /\
  created w' = created w.

(** The identity on whose behalf the action may acquire a connection. *)
Definition acquiring_identity (a : Action) : option string :=
  match a with
  | Upload req _ | Deploy _ _ req _ | AddServer _ req _ | DeleteServer _ req _
  | LogsDelete _ req _ => Some (sessionID req)
  | _ => None
  end.

(** The action acquires connections for colon-free identities only. *)
Definition colon_free_action (a : Action) : Prop :=
  match acquiring_identity a with
  | Some sessionId => colon_free sessionId = true
  | None => True
  end.

(** A handler leaves the state as it was, or acquires a connection for
    the identity of the request and then changes nothing of the
    registry. *)
Definition acquires_at_most (sessionId : string) (w w' : World) : Prop :=
  w' = w \/ exists u, same_registry (getConnection sessionId u w).2 w'.

(** A bundle naming the store of [demo_world]. *)
Definition valid_bundle : string :=
  "MONGO_URI=db://x" +:+ NL +:+ "API_KEY=k1" +:+ NL.

(** Two reachable stores: an empty one at [db://x] and one with a
    target at [db://other]. *)
Definition two_stores : gmap string Dataset :=
  <["db://x" := empty_dataset]>
    (<["db://other" := {| servers := [ {| name := "theirs"; url := "http://ok";
                                          status := "Up" |} ];
                          logs := []; deployments := [] |}]> ∅).

(** A short run: [sessA] uploads its bundle, a guest enters, the
    connection of [sessA] drops, the sweep passes. *)
Definition sample_run : list Action :=
  [ Upload (upload_request "sessA" valid_bundle) empty_session;
    GuestMode 0 (bare_request "guest1") empty_session;
    Drop 0;
    Sweep ].

(** A request of [sessA] carrying its access key, a version, and the
    name and address of a target. *)
Definition tenant_request : Request :=
  {| sessionID := "sessA"; x_api_key := Some "k1"; file := None;
     body_version := Some "v2"; body_name := Some "svc2";
     body_url := Some "http://ok"; param_name := "svc2" |}.

(** The stores other than [u] and the guest datasets are the same in
    both states. *)
Definition only_store_changed (u : string) (w w' : World) : Prop :=
  (forall uri, uri <> u -> databases w' !! uri = databases w !! uri) /\
  guestStorage w' = guestStorage w.

(** The document [POST /deploy] saves for version [v] at time [now],
    with status [st]. *)
Definition deployment_record (v : string) (now : Z) (st : string) : Deployment :=
  {| version := v; d_status := st; d_timestamp := now; provider := "manual";
     project := EmptyString; environment := EmptyString |}.

(** The target names of every reachable store are distinct. *)
Definition unique_names (w : World) : Prop :=
  forall uri d, databases w !! uri = Some d -> NoDup (map name (servers d)).

(** The document of a target after its probe. *)
Definition probed (env : Env) (t : Server) : Server :=
  {| name := name t; url := url t;
     status := h_status (classify (axios_get env (url t))) |}.

(** [sessA] uploads its bundle and asks twice for the same target to be
    added. *)
Definition add_twice : list Action :=
  [ Upload (upload_request "sessA" valid_bundle) empty_session;
    AddServer quiet_env tenant_request tenant_session;
    AddServer quiet_env tenant_request tenant_session ].

(** The mapping [statuses] after every target of [l] was probed. *)
Definition statuses_of (env : Env) (l : list Server) : gmap string Health :=
  list_to_map (map (fun t => (name t, classify (axios_get env (url t)))) l).


(** ** Read routes *)

(** An answer carrying a JSON body of type [A], or any other response. *)
Inductive Reply (A : Type) :=
| Body (body : A)
| Other (r : Response).

Arguments Body {A} body.
Arguments Other {A} r.

(** The body of [GET /status]. *)
Record StatusBody := {
  cicd_status : string;
  server_health : gmap string Health;
  mode : string
}.

(** The handler of [GET /status].  [!req.session.isGuest] holds for
    [false] and for a flag never set; [checkServerHealth] takes the flag
    as it is, its default for [undefined] being [false]. *)
Definition status_handler (env : Env) (now : Z) (req : Request) (s : Session)
    (w : World) : Reply StatusBody * Session * World :=
  let guest := strictly true (isGuest s) in
  let acquired :=
    if guest then (Ok None, w)
    else match getConnection (sessionID req) (session_uri s) w with
         | (Ok h, w1) => (Ok (Some h), w1)
         | (Throw e, w1) => (Throw e, w1)
         end in
  match acquired with
  | (Throw _, w1) => (Other (Json 500 "Internal Server Error"), s, w1)
  | (Ok connection, w1) =>
      match checkServerHealth env now (sessionID req) guest connection w1 with
      | (Throw _, w2) => (Other (Json 500 "Internal Server Error"), s, w2)
      | (Ok serverHealth, w2) =>
          (Body {| cicd_status := PIPELINE_STATUS w2;
                   server_health := serverHealth;
                   mode := if guest then "Guest" else "Authenticated" |}, s, w2)
      end
  end.

(** [app.get("/status", requireAuth, ...)]. *)
Definition get_status (env : Env) (now : Z) (req : Request) (s : Session)
    (w : World) : Reply StatusBody * Session * World :=
  match requireAuth s with
  | Next => status_handler env now req s w
  | Stop r => (Other r, s, w)
  end.

(** The handler of [GET /deployments]; [find_fails] tells whether
    [Deployment.find()] rejects. *)
Definition deployments_handler (find_fails : bool) (now : Z) (req : Request)
    (s : Session) (w : World) : Reply (list Deployment) * Session * World :=
  if strictly true (isGuest s) then
    let '(guestData, w1) := getGuestData now (sessionID req) w in
    (Body (deployments guestData), s, w1)
  else
    match getConnection (sessionID req) (session_uri s) w with
    | (Throw _, w1) => (Other (Json 500 "Internal Server Error"), s, w1)
    | (Ok h, w1) =>
        if find_fails then (Other (Json 500 "Internal Server Error"), s, w1)
        else match store_of w1 h with
             | Some (_, d) => (Body (deployments d), s, w1)
             | None => (Other (Json 500 "Internal Server Error"), s, w1)
             end
    end.

(** [app.get("/deployments", requireAuth, authenticate, ...)]. *)
Definition get_deployments (find_fails : bool) (now : Z) (req : Request)
    (s : Session) (w : World) : Reply (list Deployment) * Session * World :=
  match requireAuth s with
  | Stop r => (Other r, s, w)
  | Next =>
      match authenticate req s with
      | Stop r => (Other r, s, w)
      | Next => deployments_handler find_fails now req s w
      end
  end.

(** An outside world in which saving a deployment fails. *)
Definition failing_save_env : Env :=
  {| axios_get := fun _ => Resolved;
     db_fails := fun op => match op with OpSaveDeployment => true | _ => false end;
     close_fails := fun _ => false; stringify_fails := false |}.


(** * The first parser of credential blobs *)

Module Legacy.

(** The first revision with sessions parses the uploaded blob itself,
    line by line.  A JavaScript string is the sequence of its UTF-16
    code units; the argument of [parseEnvContent] below is
    [content.toString()]. *)

Local Open Scope N_scope.

Definition JsString := list N.

Definition LF : N := 10.
Definition EQUALS : N := 61.
Definition HASH : N := 35.
Definition DQUOTE : N := 34.
Definition SQUOTE : N := 39.

(** The name [__proto__]. *)
Definition PROTO : JsString := [95; 95; 112; 114; 111; 116; 111; 95; 95].

(** The white space and line terminators [String.prototype.trim]
    removes. *)
Definition is_space (c : N) : bool :=
  (9 <=? c) && (c <=? 13) || (c =? 32) || (c =? 160) || (c =? 5760)
  || (8192 <=? c) && (c <=? 8202) || (c =? 8232) || (c =? 8233)
  || (c =? 8239) || (c =? 8287) || (c =? 12288) || (c =? 65279).

(** [s.split('\n')]. *)
Fixpoint split_lines (s : JsString) : list JsString :=
  match s with
  | [] => [[]]
  | c :: s' =>
      if c =? LF then [] :: split_lines s'
      else match split_lines s' with
           | l :: ls => (c :: l) :: ls
           | [] => [[c]]
           end
  end.

Fixpoint ltrim (s : JsString) : JsString :=
  match s with
  | [] => []
  | c :: s' => if is_space c then ltrim s' else s
  end.

Definition rtrim (s : JsString) : JsString := rev (ltrim (rev s)).

(** [s.trim()]. *)
Definition trim (s : JsString) : JsString := rtrim (ltrim s).

(** [s.startsWith(c)] and [s.endsWith(c)] for a one-character [c]. *)
Definition startsWith (c : N) (s : JsString) : bool :=
  match s with
  | x :: _ => x =? c
  | [] => false
  end.

Definition endsWith (c : N) (s : JsString) : bool := startsWith c (rev s).

(** [s.indexOf(c)], [None] standing for [-1]. *)
Fixpoint indexOf (c : N) (s : JsString) : option nat :=
  match s with
  | [] => None
  | x :: s' => if x =? c then Some O else option_map S (indexOf c s')
  end.

(** [s.slice(1, -1)]: without the first and the last code unit; empty
    when [s] has one code unit. *)
Definition slice_1 (s : JsString) : JsString := removelast (tl s).

(** [config[key] = value] on a plain object, for a string [value]: the
    setter of [__proto__] ignores a value that is no object. *)
Definition assign (key value : JsString) (config : gmap JsString JsString)
  : gmap JsString JsString :=
  if decide (key = PROTO) then config else <[key := value]> config.

(** The body of the loop over the lines. *)
Definition parse_line (config : gmap JsString JsString) (line : JsString)
  : gmap JsString JsString :=
  let line := trim line in
  if match line with [] => true | _ => false end || startsWith HASH line
  then config
  else
    match indexOf EQUALS line with
    | None => config
    | Some separatorIndex =>
        let key := trim (firstn separatorIndex line) in
        let value := trim (skipn (S separatorIndex) line) in
        let value :=
          if (startsWith DQUOTE value && endsWith DQUOTE value)
             || (startsWith SQUOTE value && endsWith SQUOTE value)
          then slice_1 value else value in
        assign key value config
    end.

Definition parseEnvContent (content : JsString) : gmap JsString JsString :=
  fold_left parse_line (split_lines content) ∅.

(** The code units of a text of the Basic Latin block. *)
Definition units (s : string) : JsString :=
  map (fun c => N.of_nat (nat_of_ascii c)) (list_ascii_of_string s).

(** A blob whose value [KEY] is quoted and spans two lines. *)
Definition two_line_blob : JsString :=
  (units "KEY=" ++ [DQUOTE] ++ units "ab" ++ [LF] ++ units "cd" ++ [DQUOTE]
   ++ [LF] ++ units "API_KEY=k1")%list.

End Legacy.

(** * Properties *)

(** ** Strings *)

Lemma length_append (a b : string) :
  String.length (a +:+ b) = (String.length a + String.length b)%nat.
Proof. induction a as [|c a IH]; simpl; [reflexivity | now rewrite IH]. Qed.

Lemma append_inv_tail (t a b : string) : a +:+ t = b +:+ t -> a = b.
Proof.
  revert b. induction a as [|c a IH]; intros [|d b] H; simpl in H.
  - reflexivity.
  - apply (f_equal String.length) in H.
    rewrite !length_append in H. simpl in H. lia.
  - apply (f_equal String.length) in H.
    rewrite !length_append in H. simpl in H. lia.
  - injection H as -> H. f_equal. now apply IH.
Qed.

Lemma connectionKey_inj (A B u : string) :
  connectionKey A u = connectionKey B u -> A = B.
Proof. unfold connectionKey. apply append_inv_tail. Qed.

Lemma prefix_append (a t : string) : String.prefix a (a +:+ t) = true.
Proof.
  induction a as [|c a IH]; simpl.
  - now destruct t.
  - destruct (ascii_dec c c); [exact IH | contradiction].
Qed.

(** Of two distinct strings of one length neither starts any extension
    of the other. *)
Lemma prefix_same_length (a b t : string) :
  String.length a = String.length b -> a <> b ->
  String.prefix a (b +:+ t) = false.
Proof.
  revert b. induction a as [|c a IH]; intros [|d b] Hlen Hne; simpl in *;
    try discriminate.
  - contradiction.
  - destruct (ascii_dec c d) as [->|]; [|reflexivity].
    apply IH; [lia | congruence].
Qed.

(** ** The registry *)

Lemma wf_initial (dbs : gmap string Dataset) : wf_world (initial_world dbs).
Proof. split; intros *; simpl; rewrite lookup_empty; discriminate. Qed.

Lemma required_args (sessionId mongoUri : string) :
  sessionId <> EmptyString -> mongoUri <> EmptyString ->
  String.eqb sessionId EmptyString || String.eqb mongoUri EmptyString = false.
Proof.
  intros Hs Hu. apply orb_false_iff. split; now apply String.eqb_neq.
Qed.

(** What a successful [connect_and_cache] leaves behind. *)
Lemma connect_and_cache_Ok (key uri : string) (w w' : World) (h : nat) :
  connect_and_cache key uri w = (Ok h, w') ->
  h = created w /\ created w' = S (created w) /\
  connectionPool w' = <[key := h]> (connectionPool w) /\
  connections w' = <[h := {| conn_uri := uri; readyState := 1 |}]> (connections w) /\
  guestStorage w' = guestStorage w /\ databases w' = databases w /\
  PIPELINE_STATUS w' = PIPELINE_STATUS w.
Proof.
  unfold connect_and_cache, createConnection.
  destruct (databases w !! uri); intros H; inversion H; subst; simpl.
  repeat split; reflexivity.
Qed.

(** A failing [connect_and_cache] caches nothing. *)
Lemma connect_and_cache_Throw (key uri : string) (w w' : World) (e : string) :
  connect_and_cache key uri w = (Throw e, w') ->
  connectionPool w' = connectionPool w /\ guestStorage w' = guestStorage w /\
  databases w' = databases w.
Proof.
  unfold connect_and_cache, createConnection.
  destruct (databases w !! uri); intros H; inversion H; subst; simpl.
  repeat split; reflexivity.
Qed.

(** The reuse path of [getConnection]. *)
Lemma getConnection_hit (sessionId mongoUri : string) (w : World) (h : nat) :
  sessionId <> EmptyString -> mongoUri <> EmptyString ->
  connectionPool w !! connectionKey sessionId mongoUri = Some h ->
  is_live w h = true ->
  getConnection sessionId mongoUri w = (Ok h, w).
Proof.
  intros Hs Hu Hpool Hlive. unfold getConnection.
  rewrite (required_args _ _ Hs Hu). cbv zeta. rewrite Hpool, Hlive. reflexivity.
Qed.

(** The postcondition of a successful [getConnection]. *)
Lemma getConnection_Ok (sessionId mongoUri : string) (w w' : World) (h : nat) :
  getConnection sessionId mongoUri w = (Ok h, w') ->
  sessionId <> EmptyString /\ mongoUri <> EmptyString /\
  connectionPool w' !! connectionKey sessionId mongoUri = Some h /\
  is_live w' h = true /\
  (forall k, k <> connectionKey sessionId mongoUri ->
             connectionPool w' !! k = connectionPool w !! k) /\
  (w' = w \/ h = created w /\ created w' = S (created w)).
Proof.
  unfold getConnection.
  destruct (String.eqb sessionId EmptyString || String.eqb mongoUri EmptyString) eqn:Hreq;
    [discriminate|].
  apply orb_false_iff in Hreq as [Hs Hu].
  apply String.eqb_neq in Hs, Hu. cbv zeta.
  set (key := connectionKey sessionId mongoUri).
  assert (Hfresh : forall w0 : World,
    connect_and_cache key mongoUri w0 = (Ok h, w') ->
    connectionPool w' !! key = Some h /\ is_live w' h = true /\
    (forall k, k <> key -> connectionPool w' !! k = connectionPool w0 !! k) /\
    h = created w0 /\ created w' = S (created w0)).
  { intros w0 H. apply connect_and_cache_Ok in H as (Hh & Hc & Hp & Hcs & _).
    repeat split; try assumption.
    - rewrite Hp. apply lookup_insert_eq.
    - unfold is_live. rewrite Hcs, lookup_insert_eq. reflexivity.
    - intros k Hk. rewrite Hp. now apply lookup_insert_ne. }
  destruct (connectionPool w !! key) as [h0|] eqn:Hpool.
  - destruct (is_live w h0) eqn:Hlive.
    + intros H. inversion H; subst. repeat split; auto.
    + intros H. apply Hfresh in H as (H1 & H2 & H3 & H4 & H5). simpl in *.
      repeat split; auto.
      intros k Hk. rewrite (H3 k Hk). now apply lookup_delete_ne.
  - intros H. apply Hfresh in H as (H1 & H2 & H3 & H4 & H5).
    repeat split; auto.
Qed.

(** [getConnection] keeps the registry well formed, whatever it returns. *)
Lemma getConnection_wf (sessionId mongoUri : string) (w w' : World) (r : Result nat) :
  wf_world w -> getConnection sessionId mongoUri w = (r, w') -> wf_world w'.
Proof.
  intros [Hlt Hinj]. unfold getConnection.
  destruct (String.eqb sessionId EmptyString || String.eqb mongoUri EmptyString);
    [intros H; inversion H; subst; now split|].
  cbv zeta. set (key := connectionKey sessionId mongoUri).
  assert (Hstep : forall w0 : World,
    (forall k h, connectionPool w0 !! k = Some h -> (h < created w0)%nat) ->
    (forall k1 k2 h, connectionPool w0 !! k1 = Some h ->
                     connectionPool w0 !! k2 = Some h -> k1 = k2) ->
    connect_and_cache key mongoUri w0 = (r, w') -> wf_world w').
  { intros w0 Hlt0 Hinj0 H. destruct r as [h|e].
    - apply connect_and_cache_Ok in H as (Hh & Hc & Hp & _). split.
      + intros k h0. rewrite Hp, Hc, lookup_insert. case_decide.
        * intros [= <-]. lia.
        * intros Hk. apply Hlt0 in Hk. lia.
      + intros k1 k2 h0. rewrite Hp, !lookup_insert.
        repeat case_decide; subst; try congruence.
        * intros [= <-] Hk. apply Hlt0 in Hk. lia.
        * intros Hk [= <-]. apply Hlt0 in Hk. lia.
        * apply Hinj0.
    - unfold connect_and_cache, createConnection in H.
      destruct (databases w0 !! mongoUri); inversion H; subst; simpl.
      split; simpl.
      + intros k h Hk. apply Hlt0 in Hk. lia.
      + apply Hinj0. }
  destruct (connectionPool w !! key) as [h0|] eqn:Hpool.
  - destruct (is_live w h0).
    + intros H. inversion H; subst. now split.
    + apply Hstep; simpl.
      * intros k h Hk. apply lookup_delete_Some in Hk as [_ Hk]. eauto.
      * intros k1 k2 h Hk1 Hk2.
        apply lookup_delete_Some in Hk1 as [_ Hk1].
        apply lookup_delete_Some in Hk2 as [_ Hk2]. eauto.
  - now apply Hstep.
Qed.

(** The loop of the logout route: entries whose key does not start with
    the session identity stay as they are, nothing is added, a
    connection object is touched only if one of its keys starts with
    the identity, and nothing but the registry and its connection
    objects changes. *)
Lemma release_spec (env : Env) (sessionId : string) (w : World) :
  (forall k, String.prefix sessionId k = false ->
     connectionPool (release env sessionId w) !! k = connectionPool w !! k) /\
  (forall k h, connectionPool (release env sessionId w) !! k = Some h ->
     connectionPool w !! k = Some h) /\
  (forall h, (forall k, connectionPool w !! k = Some h ->
                        String.prefix sessionId k = false) ->
     connections (release env sessionId w) !! h = connections w !! h) /\
  created (release env sessionId w) = created w /\
  guestStorage (release env sessionId w) = guestStorage w /\
  databases (release env sessionId w) = databases w /\
  PIPELINE_STATUS (release env sessionId w) = PIPELINE_STATUS w.
Proof.
  unfold release.
  set (pool := connectionPool w).
  refine (map_fold_weak_ind
    (fun (r : World) (m : gmap string nat) =>
       m ⊆ pool ->
       (forall k, String.prefix sessionId k = false ->
          connectionPool r !! k = pool !! k) /\
       (forall k h, connectionPool r !! k = Some h -> pool !! k = Some h) /\
       (forall h, (forall k, pool !! k = Some h ->
                             String.prefix sessionId k = false) ->
          connections r !! h = connections w !! h) /\
       created r = created w /\ guestStorage r = guestStorage w /\
       databases r = databases w /\ PIPELINE_STATUS r = PIPELINE_STATUS w)
    (release_entry env sessionId) w _ _ pool _).
  - intros _. repeat split; auto.
  - intros key h m r Hfresh IH Hsub.
    assert (Hkey : pool !! key = Some h).
    { eapply lookup_weaken; [apply lookup_insert_eq | exact Hsub]. }
    assert (Hm : m ⊆ pool).
    { etrans; [apply insert_subseteq; exact Hfresh | exact Hsub]. }
    destruct (IH Hm) as (I1 & I2 & I3 & I4 & I5 & I6 & I7).
    unfold release_entry.
    destruct (String.prefix sessionId key) eqn:Hpre; [|repeat split; auto].
    destruct (close_fails env h); [repeat split; auto|].
    simpl. repeat split; auto.
    + intros k Hk. rewrite lookup_delete_ne; [auto | congruence].
    + intros k h0 Hk. apply lookup_delete_Some in Hk as [_ Hk]. auto.
    + intros h0 Hh0. rewrite lookup_alter_ne; [auto|].
      intros <-. specialize (Hh0 key Hkey). congruence.
  - reflexivity.
Qed.

(** An entry whose key starts with the session identity is gone after
    the loop, unless closing its connection failed. *)
Lemma release_removes (env : Env) (sessionId : string) (w : World) (k : string) (h : nat) :
  connectionPool w !! k = Some h ->
  String.prefix sessionId k = true -> close_fails env h = false ->
  connectionPool (release env sessionId w) !! k = None.
Proof.
  intros Hk Hpre Hclose. unfold release.
  set (pool := connectionPool w) in *.
  enough (G : pool ⊆ pool ->
    (forall k0 h0, connectionPool (map_fold (release_entry env sessionId) w pool) !! k0
                   = Some h0 -> pool !! k0 = Some h0) /\
    (is_Some (pool !! k) ->
     connectionPool (map_fold (release_entry env sessionId) w pool) !! k = None)).
  { destruct (G (reflexivity _)) as [_ H]. apply H. rewrite Hk. eauto. }
  apply (map_fold_weak_ind
    (fun (r : World) (m : gmap string nat) =>
       m ⊆ pool ->
       (forall k0 h0, connectionPool r !! k0 = Some h0 -> pool !! k0 = Some h0) /\
       (is_Some (m !! k) -> connectionPool r !! k = None))).
  - intros _. split; [auto|]. rewrite lookup_empty. intros [? ?]; discriminate.
  - intros key h1 m r Hfresh IH Hsub.
    assert (Hkey : pool !! key = Some h1).
    { eapply lookup_weaken; [apply lookup_insert_eq | exact Hsub]. }
    assert (Hm : m ⊆ pool).
    { etrans; [apply insert_subseteq; exact Hfresh | exact Hsub]. }
    destruct (IH Hm) as (I1 & I2).
    unfold release_entry.
    destruct (decide (key = k)) as [->|Hne].
    + assert (h1 = h) as -> by congruence.
      rewrite Hpre, Hclose. simpl. split.
      * intros k0 h0 Hk0. apply lookup_delete_Some in Hk0 as [_ Hk0]. auto.
      * intros _. apply lookup_delete_eq.
    + rewrite lookup_insert_ne by exact Hne.
      destruct (String.prefix sessionId key); [|split; auto].
      destruct (close_fails env h1); [split; auto|].
      simpl. split.
      * intros k0 h0 Hk0. apply lookup_delete_Some in Hk0 as [_ Hk0]. auto.
      * intros Hs. rewrite lookup_delete_ne by exact Hne. auto.
Qed.

(** The logout loop and the sweep keep the registry well formed: they
    only remove entries. *)
Lemma release_wf (env : Env) (sessionId : string) (w : World) :
  wf_world w -> wf_world (release env sessionId w).
Proof.
  intros [Hlt Hinj].
  destruct (release_spec env sessionId w) as (_ & Hsub & _ & Hcreated & _).
  split.
  - intros k h Hk. rewrite Hcreated. eauto.
  - intros k1 k2 h Hk1 Hk2. eauto.
Qed.

Lemma sweep_wf (w : World) : wf_world w -> wf_world (sweep w).
Proof.
  intros [Hlt Hinj]. unfold sweep.
  enough (G : (forall k h, connectionPool (map_fold sweep_entry w (connectionPool w)) !! k
                           = Some h -> connectionPool w !! k = Some h) /\
              created (map_fold sweep_entry w (connectionPool w)) = created w).
  { destruct G as [Hsub Hcreated]. split.
    - intros k h Hk. rewrite Hcreated. eauto.
    - intros k1 k2 h Hk1 Hk2. eauto. }
  apply (map_fold_weak_ind
    (fun (r : World) (m : gmap string nat) =>
       (forall k h, connectionPool r !! k = Some h -> connectionPool w !! k = Some h) /\
       created r = created w)).
  - split; auto.
  - intros key h m r _ [I1 I2]. unfold sweep_entry.
    destruct (is_live r h); [split; auto|]. simpl. split; [|exact I2].
    intros k h0 Hk. apply lookup_delete_Some in Hk as [_ Hk]. auto.
Qed.

(** ** C4: reuse of a live entry *)

(** C4.  When the registry holds, for session identity [sessionId] and
    address [mongoUri] (both non-empty, or [getConnection] throws before
    it looks anything up), an entry whose connection passes the liveness
    check ([readyState] is 1), any number [n] of sequential
    [getConnection] calls for the pair return that very handle each
    time and leave the whole process state as it was: no entry is
    replaced and the count of created connections does not move. *)
Theorem getConnection_reuses_live_entry
    (sessionId mongoUri : string) (w : World) (h : nat) (n : nat) :
  sessionId <> EmptyString -> mongoUri <> EmptyString ->
  connectionPool w !! connectionKey sessionId mongoUri = Some h ->
  is_live w h = true ->
  acquire_many n sessionId mongoUri w = (repeat (Ok h) n, w) /\
  created (acquire_many n sessionId mongoUri w).2 = created w.
Proof.
  intros Hs Hu Hpool Hlive.
  assert (H : acquire_many n sessionId mongoUri w = (repeat (Ok h) n, w)).
  { induction n as [|n IH]; simpl; [reflexivity|].
    rewrite (getConnection_hit _ _ _ _ Hs Hu Hpool Hlive), IH. reflexivity. }
  split; [exact H | now rewrite H].
Qed.

(** A sample run of [getConnection_reuses_live_entry]: after the one
    creation for [sessA], three more acquires return handle 0 and the
    creation count is still 1. *)
Lemma getConnection_reuses_live_entry_witness :
  acquire_many 3 "sessA" "db://x" world_one_session
    = (repeat (Ok 0%nat) 3, world_one_session) /\
  created (acquire_many 3 "sessA" "db://x" world_one_session).2 = 1%nat.
Proof.
  apply (getConnection_reuses_live_entry "sessA" "db://x" world_one_session 0 3).
  - discriminate.
  - discriminate.
  - vm_compute. reflexivity.
  - vm_compute. reflexivity.
Defined.

(** ** C1: isolation of sessions in the registry *)

(** Identities of one length, as the session middleware issues them:
    neither starts a registry key of the other. *)
Lemma equal_length_identities_are_safe (A B mongoUri : string) :
  String.length A = String.length B -> A <> B ->
  String.prefix A (connectionKey B mongoUri) = false.
Proof. intros Hlen Hne. unfold connectionKey. now apply prefix_same_length. Qed.

(** C1.  Session identities [A] and [B] differ; they have one length,
    as all identities the session middleware issues have.  Both acquire
    a connection for the same address [mongoUri].  Then their registry
    keys differ, each key holds its own entry, and the two handles
    differ.  When [A] logs out, every entry of [B], for whatever
    address, stays in the registry with its handle and its connection
    object untouched; [B]'s connection for [mongoUri] stays live, and
    [B]'s guest dataset stays as well. *)
Theorem sessions_do_not_share_entries
    (env : Env) (req : Request) (s : Session) (w w1 w2 : World)
    (A B mongoUri : string) (hA hB : nat) :
  wf_world w -> String.length A = String.length B -> A <> B ->
  sessionID req = A ->
  getConnection A mongoUri w = (Ok hA, w1) ->
  getConnection B mongoUri w1 = (Ok hB, w2) ->
  connectionKey A mongoUri <> connectionKey B mongoUri /\
  connectionPool w2 !! connectionKey A mongoUri = Some hA /\
  connectionPool w2 !! connectionKey B mongoUri = Some hB /\
  hA <> hB /\
  (forall u h,
     connectionPool w2 !! connectionKey B u = Some h ->
     connectionPool (logout env req s w2).2 !! connectionKey B u = Some h /\
     connections (logout env req s w2).2 !! h = connections w2 !! h) /\
  is_live (logout env req s w2).2 hB = true /\
  guestStorage (logout env req s w2).2 !! B = guestStorage w2 !! B.
Proof.
  intros Hwf Hlen Hne Hreq HA HB.
  assert (Hkeys : connectionKey A mongoUri <> connectionKey B mongoUri).
  { intros H. apply Hne. eapply connectionKey_inj. exact H. }
  pose proof (getConnection_wf _ _ _ _ _ Hwf HA) as Hwf1.
  pose proof (getConnection_wf _ _ _ _ _ Hwf1 HB) as [Hlt2 Hinj2].
  apply getConnection_Ok in HA as (_ & _ & HpA & _ & _ & _).
  apply getConnection_Ok in HB as (_ & _ & HpB & HliveB & Hother & _).
  assert (HpA2 : connectionPool w2 !! connectionKey A mongoUri = Some hA).
  { rewrite Hother by exact Hkeys. exact HpA. }
  destruct (release_spec env A
              (set_guestStorage (delete A (guestStorage w2)) w2))
    as (R1 & _ & R3 & _ & R5 & _).
  assert (Hkept : forall u h,
            connectionPool w2 !! connectionKey B u = Some h ->
            connectionPool (logout env req s w2).2 !! connectionKey B u = Some h /\
            connections (logout env req s w2).2 !! h = connections w2 !! h).
  { intros u h Hu. unfold logout; simpl. rewrite Hreq. split.
    - rewrite R1 by (now apply equal_length_identities_are_safe). exact Hu.
    - rewrite R3; [reflexivity|]. intros k Hk. simpl in Hk.
      assert (k = connectionKey B u) as -> by (eapply Hinj2; eassumption).
      now apply equal_length_identities_are_safe. }
  split; [exact Hkeys|]. split; [exact HpA2|]. split; [exact HpB|].
  split; [|split; [exact Hkept|split]].
  - intros ->. apply Hkeys. eapply Hinj2; eassumption.
  - destruct (Hkept mongoUri hB HpB) as (_ & Hc).
    unfold is_live in *. rewrite Hc. exact HliveB.
  - unfold logout; simpl. rewrite Hreq, R5. simpl.
    apply lookup_delete_ne. exact Hne.
Qed.

(** A sample run of [sessions_do_not_share_entries]: two identities of
    equal length on one address. *)
Lemma sessions_do_not_share_entries_witness :
  let w2 := (getConnection "sessB" "db://x" world_one_session).2 in
  let w3 := (logout quiet_env (bare_request "sessA") empty_session w2).2 in
  connectionKey "sessA" "db://x" <> connectionKey "sessB" "db://x" /\
  connectionPool w2 !! connectionKey "sessA" "db://x" = Some 0%nat /\
  connectionPool w2 !! connectionKey "sessB" "db://x" = Some 1%nat /\
  0%nat <> 1%nat /\
  (forall u h,
     connectionPool w2 !! connectionKey "sessB" u = Some h ->
     connectionPool w3 !! connectionKey "sessB" u = Some h /\
     connections w3 !! h = connections w2 !! h) /\
  is_live w3 1 = true /\
  guestStorage w3 !! "sessB" = guestStorage w2 !! "sessB".
Proof.
  intros w2 w3.
  apply (sessions_do_not_share_entries quiet_env (bare_request "sessA")
           empty_session demo_world world_one_session w2
           "sessA" "sessB" "db://x" 0 1).
  - apply wf_initial.
  - reflexivity.
  - discriminate.
  - reflexivity.
  - vm_compute. reflexivity.
  - vm_compute. reflexivity.
Defined.

(** The proviso on the length matters for the loop of the logout, which
    selects entries by [key.startsWith(sessionId)]: were [s1] and [s10]
    both identities, the logout of [s1] would close and remove the
    entry of [s10] as well.  The session middleware issues no such
    pair. *)
Lemma logout_removes_entry_of_longer_identity :
  "s1" <> "s10" /\
  connectionPool world_two_sessions !! connectionKey "s1" "db://x" = Some 0%nat /\
  connectionPool world_two_sessions !! connectionKey "s10" "db://x" = Some 1%nat /\
  connectionPool
    (logout quiet_env (bare_request "s1") empty_session world_two_sessions).2
    !! connectionKey "s10" "db://x" = None /\
  is_live
    (logout quiet_env (bare_request "s1") empty_session world_two_sessions).2 1
  = false.
Proof. vm_compute. repeat split; discriminate. Qed.

(** ** C5 and C2: credentialed activation *)

(** C5.  When the parse of the uploaded blob lacks [MONGO_URI] or lacks
    [API_KEY] (the field is missing or empty), the upload answers with
    the redirect carrying [invalid_env], the session and the process
    state are exactly what they were (no config is stored), and a
    session that was unauthenticated is still refused by [requireAuth]. *)
Theorem upload_missing_field_rejected
    (req : Request) (s : Session) (w : World) (buffer : string) :
  file req = Some buffer ->
  truthy (parseEnvContent buffer !! "MONGO_URI") = false \/
  truthy (parseEnvContent buffer !! "API_KEY") = false ->
  upload_env req s w = (Redirect "/?error=invalid_env", s, w) /\
  (unauthenticated s -> unauthenticated (upload_env req s w).1.2) /\
  (config s = None -> config (upload_env req s w).1.2 = None).
Proof.
  intros Hfile Hlack.
  assert (H : upload_env req s w = (Redirect "/?error=invalid_env", s, w)).
  { unfold upload_env. rewrite Hfile.
    destruct Hlack as [-> | ->]; simpl; [reflexivity|].
    now rewrite orb_true_r. }
  rewrite H. simpl. auto.
Qed.

(** A sample run of [upload_missing_field_rejected]: a bundle with an
    access key and no address, uploaded in a fresh session. *)
Lemma upload_missing_field_rejected_witness :
  upload_env (upload_request "sessA" "API_KEY=k1") empty_session demo_world
    = (Redirect "/?error=invalid_env", empty_session, demo_world) /\
  (unauthenticated empty_session ->
   unauthenticated
     (upload_env (upload_request "sessA" "API_KEY=k1") empty_session demo_world).1.2) /\
  (config empty_session = None ->
   config (upload_env (upload_request "sessA" "API_KEY=k1")
             empty_session demo_world).1.2 = None).
Proof.
  apply (upload_missing_field_rejected (upload_request "sessA" "API_KEY=k1")
           empty_session demo_world "API_KEY=k1").
  - reflexivity.
  - left. vm_compute. reflexivity.
Defined.

(** The failures that precede the commit leave the session alone. *)
Lemma upload_no_file_rejected (req : Request) (s : Session) (w : World) :
  file req = None -> upload_env req s w = (Redirect "/?error=no_file", s, w).
Proof. intros H. unfold upload_env. now rewrite H. Qed.

(** When both required fields are there and the connection test fails,
    the route answers with [db_connection_failed], yet the session
    already carries the bundle and the credentialed mode flag, and
    [requireAuth] lets it through. *)
Lemma upload_failed_connection_commits
    (req : Request) (s : Session) (w w' : World) (buffer e : string) :
  file req = Some buffer ->
  truthy (parseEnvContent buffer !! "MONGO_URI") = true ->
  truthy (parseEnvContent buffer !! "API_KEY") = true ->
  getConnection (sessionID req)
    (default EmptyString (parseEnvContent buffer !! "MONGO_URI")) w = (Throw e, w') ->
  (upload_env req s w).1.1 = Redirect "/?error=db_connection_failed" /\
  isGuest (upload_env req s w).1.2 = Some false /\
  present (config (upload_env req s w).1.2) = true /\
  requireAuth (upload_env req s w).1.2 = Next.
Proof.
  intros Hfile Hu Hk Hconn. unfold upload_env.
  rewrite Hfile. cbv zeta. rewrite Hu, Hk, Hconn. simpl. auto.
Qed.

(** C2 fails on the code.  A fresh session uploads a bundle with both
    required fields whose address is unreachable: the route reports
    [db_connection_failed], but the session is committed (bundle stored,
    mode flag set to credentialed) and [requireAuth] accepts it. *)
Theorem upload_failure_leaves_session_committed :
  unauthenticated empty_session /\
  (upload_env (upload_request "sessA" unreachable_bundle) empty_session demo_world).1.1
    = Redirect "/?error=db_connection_failed" /\
  (upload_env (upload_request "sessA" unreachable_bundle) empty_session demo_world).1.2
    = {| config := Some {| MONGO_URI := Some "db://down"; API_KEY := "k1";
                           RENDER_API_KEY := EmptyString; PORT := PortNumber 3000 |};
         isGuest := Some false |} /\
  requireAuth
    (upload_env (upload_request "sessA" unreachable_bundle) empty_session demo_world).1.2
    = Next.
Proof. vm_compute. repeat split. Qed.

(** ** C3: tenant writes in guest mode *)

(** In guest mode [requireAuth] lets the request through. *)
Lemma requireAuth_guest (s : Session) : isGuest s = Some true -> requireAuth s = Next.
Proof. intros H. unfold requireAuth. rewrite H. reflexivity. Qed.

(** [authenticate] either lets the request through or answers 403; it
    changes nothing. *)
Lemma authenticate_cases (req : Request) (s : Session) :
  authenticate req s = Next \/
  authenticate req s = Stop (Json 403 "Forbidden: Invalid API Key").
Proof.
  unfold authenticate. destruct (x_api_key req) as [k|]; [|now right].
  destruct (String.eqb k _); [now left | now right].
Qed.

(** C3, as the code has it.  In guest mode each of the four tenant-write
    routes answers without touching the session, the guest dataset, the
    registry or any backing store (the process state is returned as it
    was).  Removing a server always answers 403; adding a server and
    clearing the logs always answer 403, from [authenticate] for a wrong
    access key and from the guest gate for the right one.  Triggering a
    deployment answers 403 whenever the request names a version; without
    a version it answers 403 when the access key is wrong and 400 when
    the key is right, because the handler checks the version before the
    guest gate. *)
Theorem guest_writes_change_nothing
    (env : Env) (now : Z) (req : Request) (s : Session) (w : World) :
  isGuest s = Some true ->
  (exists m, post_servers env req s w = (Json 403 m, s, w)) /\
  delete_servers env req s w
  = (Json 403 "Cannot delete servers in guest mode", s, w) /\
  (exists m, post_logs_delete env req s w = (Json 403 m, s, w)) /\
  (exists c m, post_deploy env now req s w = (Json c m, s, w) /\
               (c = 403 \/ c = 400)) /\
  (truthy (body_version req) = true ->
   exists m, post_deploy env now req s w = (Json 403 m, s, w)) /\
  (authenticate req s <> Next ->
   post_deploy env now req s w = (Json 403 "Forbidden: Invalid API Key", s, w) /\
   post_servers env req s w = (Json 403 "Forbidden: Invalid API Key", s, w) /\
   post_logs_delete env req s w = (Json 403 "Forbidden: Invalid API Key", s, w)) /\
  (authenticate req s = Next ->
   post_servers env req s w = (Json 403 "Cannot add servers in guest mode", s, w) /\
   post_logs_delete env req s w
   = (Json 403 "Cannot delete logs in guest mode", s, w) /\
   (truthy (body_version req) = true ->
    post_deploy env now req s w = (Json 403 "Cannot deploy in guest mode", s, w)) /\
   (truthy (body_version req) = false ->
    post_deploy env now req s w = (Json 400 "Version is required", s, w))).
Proof.
  intros Hg. pose proof (requireAuth_guest s Hg) as Hr.
  unfold post_servers, delete_servers, post_logs_delete, post_deploy.
  unfold add_server_handler, delete_server_handler, logs_delete_handler,
    deploy_handler.
  simpl. rewrite Hr, Hg. simpl.
  destruct (authenticate_cases req s) as [-> | ->]; simpl.
  - repeat split; eauto.
    + destruct (truthy (body_version req)); simpl; eauto.
    + intros ->. simpl. eauto.
    + contradiction.
    + contradiction.
    + contradiction.
    + intros ->. reflexivity.
    + intros ->. reflexivity.
  - repeat split; eauto; discriminate.
Qed.

(** A sample run of [guest_writes_change_nothing]: the guest session
    presenting a wrong access key and no version. *)
Lemma guest_writes_change_nothing_witness :
  let req := {| sessionID := "guest1"; x_api_key := Some "wrong";
                file := None; body_version := None; body_name := Some "svc";
                body_url := Some "http://ok"; param_name := "Demo Server 1" |} in
  let w := (guest_mode 0 req empty_session demo_world).2 in
  (exists m, post_servers quiet_env req guest_session w = (Json 403 m, guest_session, w)) /\
  delete_servers quiet_env req guest_session w
  = (Json 403 "Cannot delete servers in guest mode", guest_session, w) /\
  (exists m, post_logs_delete quiet_env req guest_session w = (Json 403 m, guest_session, w)) /\
  (exists c m, post_deploy quiet_env 0 req guest_session w = (Json c m, guest_session, w) /\
               (c = 403 \/ c = 400)) /\
  (truthy (body_version req) = true ->
   exists m, post_deploy quiet_env 0 req guest_session w = (Json 403 m, guest_session, w)) /\
  (authenticate req guest_session <> Next ->
   post_deploy quiet_env 0 req guest_session w
   = (Json 403 "Forbidden: Invalid API Key", guest_session, w) /\
   post_servers quiet_env req guest_session w
   = (Json 403 "Forbidden: Invalid API Key", guest_session, w) /\
   post_logs_delete quiet_env req guest_session w
   = (Json 403 "Forbidden: Invalid API Key", guest_session, w)) /\
  (authenticate req guest_session = Next ->
   post_servers quiet_env req guest_session w
   = (Json 403 "Cannot add servers in guest mode", guest_session, w) /\
   post_logs_delete quiet_env req guest_session w
   = (Json 403 "Cannot delete logs in guest mode", guest_session, w) /\
   (truthy (body_version req) = true ->
    post_deploy quiet_env 0 req guest_session w
    = (Json 403 "Cannot deploy in guest mode", guest_session, w)) /\
   (truthy (body_version req) = false ->
    post_deploy quiet_env 0 req guest_session w
    = (Json 400 "Version is required", guest_session, w))).
Proof.
  intros req w.
  apply (guest_writes_change_nothing quiet_env 0 req guest_session w).
  reflexivity.
Defined.

(** C3 as stated fails: a guest session presenting the guest access key
    and no version gets 400 from [POST /deploy], not 403. *)
Lemma guest_deploy_without_version_is_400 :
  post_deploy quiet_env 0
    {| sessionID := "guest1"; x_api_key := Some "guest-api-key-12345";
       file := None; body_version := None; body_name := None;
       body_url := None; param_name := EmptyString |}
    guest_session demo_world
  = (Json 400 "Version is required", guest_session, demo_world).
Proof. reflexivity. Qed.

(** ** C10: removing a server needs no access key *)

(** [findOneAndDelete({ name })] on a list holding a target of that
    name: the first such target goes, the others stay in their order. *)
Lemma remove_first_split (n : string) (l : list Server) :
  existsb (has_name n) l = true ->
  exists l1 t l2,
    l = (l1 ++ t :: l2)%list /\ name t = n /\
    existsb (has_name n) l1 = false /\
    remove_first n l = (l1 ++ l2)%list.
Proof.
  induction l as [|x l IH]; simpl; [discriminate|].
  destruct (has_name n x) eqn:Hx.
  - intros _. exists [], x, l. repeat split.
    unfold has_name in Hx. now apply String.eqb_eq in Hx.
  - simpl. intros H. destruct (IH H) as (l1 & t & l2 & -> & Hn & Hl1 & Hr).
    exists (x :: l1), t, l2. simpl. rewrite Hx, Hl1, Hr. auto.
Qed.

(** C10.  For a credentialed session (mode flag false, config stored)
    [DELETE /servers/:name] runs its handler right after [requireAuth];
    the answer and the resulting state are the same whatever the header
    [x-api-key] holds.  When the connection is there, the store holds a
    target of that name and the store operation goes through, the
    answer is 200 whatever the key, and the store has lost the first
    target of that name and nothing else.  With a key other than the
    session's, [POST /servers] and [POST /logs_delete] answer 403 and
    change nothing. *)
Theorem delete_server_skips_api_key
    (env : Env) (req : Request) (s : Session) (w : World) (c : Config) :
  isGuest s = Some false -> config s = Some c ->
  delete_servers env req s w = delete_server_handler env req s w /\
  (forall k, delete_servers env (with_api_key k req) s w = delete_servers env req s w) /\
  (forall w1 h uri d,
     getConnection (sessionID req) (session_uri s) w = (Ok h, w1) ->
     store_of w1 h = Some (uri, d) ->
     existsb (has_name (param_name req)) (servers d) = true ->
     db_fails env OpDeleteServer = false ->
     (forall k, delete_servers env (with_api_key k req) s w
                = (Json 200 "Server removed", s,
                   set_databases
                     (<[uri := with_servers (remove_first (param_name req)) d]>
                        (databases w1)) w1)) /\
     exists l1 t l2,
       servers d = (l1 ++ t :: l2)%list /\ name t = param_name req /\
       existsb (has_name (param_name req)) l1 = false /\
       servers (with_servers (remove_first (param_name req)) d) = (l1 ++ l2)%list) /\
  (x_api_key req <> Some (API_KEY c) ->
   post_servers env req s w = (Json 403 "Forbidden: Invalid API Key", s, w) /\
   post_logs_delete env req s w = (Json 403 "Forbidden: Invalid API Key", s, w)).
Proof.
  intros Hg Hc.
  assert (Hr : requireAuth s = Next).
  { unfold requireAuth. rewrite Hg, Hc. reflexivity. }
  unfold delete_servers, post_servers, post_logs_delete. simpl. rewrite Hr.
  split; [reflexivity|]. split; [reflexivity|]. split.
  - intros w1 h uri d Hconn Hstore Hex Hdel. split.
    + intros k. unfold delete_server_handler. rewrite Hg. simpl.
      rewrite Hconn. unfold db_read, db_write. rewrite Hdel, Hstore. simpl.
      rewrite Hex. reflexivity.
    + destruct (remove_first_split _ _ Hex) as (l1 & t & l2 & E & Hn & Hl1 & Hrm).
      exists l1, t, l2. simpl. auto.
  - intros Hkey.
    assert (Ha : authenticate req s = Stop (Json 403 "Forbidden: Invalid API Key")).
    { unfold authenticate. rewrite Hc.
      destruct (x_api_key req) as [k|]; [|reflexivity].
      destruct (String.eqb_spec k (API_KEY c)) as [->|]; [congruence | reflexivity]. }
    rewrite Ha. split; reflexivity.
Qed.

(** A sample run of [delete_server_skips_api_key]: a credentialed
    session presenting a wrong key removes the target [svc1]; the store
    is empty afterwards. *)
Lemma delete_server_skips_api_key_witness :
  let req := {| sessionID := "sessA"; x_api_key := Some "wrong";
                file := None; body_version := None; body_name := Some "svc2";
                body_url := Some "http://ok"; param_name := "svc1" |} in
  let w1 := (getConnection "sessA" "db://x" tenant_world).2 in
  let d := {| servers := [ {| name := "svc1"; url := "http://ok";
                              status := "Unknown" |} ];
              logs := []; deployments := [] |} in
  (forall k, delete_servers quiet_env (with_api_key k req) tenant_session tenant_world
             = (Json 200 "Server removed", tenant_session,
                set_databases
                  (<["db://x" := with_servers (remove_first "svc1") d]> (databases w1))
                  w1)) /\
  servers (with_servers (remove_first "svc1") d) = [] /\
  post_servers quiet_env req tenant_session tenant_world
    = (Json 403 "Forbidden: Invalid API Key", tenant_session, tenant_world) /\
  post_logs_delete quiet_env req tenant_session tenant_world
    = (Json 403 "Forbidden: Invalid API Key", tenant_session, tenant_world).
Proof.
  intros req w1 d.
  destruct (delete_server_skips_api_key quiet_env req tenant_session tenant_world
              {| MONGO_URI := Some "db://x"; API_KEY := "k1";
                 RENDER_API_KEY := EmptyString; PORT := PortNumber 3000 |}
              eq_refl eq_refl) as (_ & _ & Hdel & Hsib).
  destruct (Hdel w1 0%nat "db://x" d) as (H200 & _);
    [vm_compute; reflexivity | vm_compute; reflexivity | reflexivity
    | reflexivity |].
  destruct Hsib as (H1 & H2); [discriminate|].
  split; [exact H200|]. split; [reflexivity|]. split; [exact H1 | exact H2].
Defined.

(** With that wrong key the deletion goes through: the target is
    removed from the tenant's store. *)
Lemma delete_with_wrong_key_removes :
  let req := {| sessionID := "sessA"; x_api_key := Some "wrong";
                file := None; body_version := None; body_name := None;
                body_url := None; param_name := "svc1" |} in
  (delete_servers quiet_env req tenant_session tenant_world).1.1
    = Json 200 "Server removed" /\
  (servers <$> databases (delete_servers quiet_env req tenant_session tenant_world).2
                 !! "db://x") = Some [].
Proof. vm_compute. split; reflexivity. Qed.

(** ** C9: the webhook route *)

(** C9.  [POST /webhooks/render] answers 200, or 500 when rendering the
    payload for the log throws, and in both cases returns the session
    and the whole process state (registry, guest datasets, backing
    stores, pipeline status) as they were: no deployment is recorded. *)
Theorem webhook_records_nothing (env : Env) (req : Request) (s : Session) (w : World) :
  exists c m,
    webhooks_render env req s w = (Json c m, s, w) /\
    (c = 200 \/ c = 500) /\
    (c = 500 <-> stringify_fails env = true).
Proof.
  unfold webhooks_render. destruct (stringify_fails env).
  - exists 500, "Webhook processing failed". repeat split; auto.
  - exists 200, "Webhook received". repeat split; auto; discriminate.
Qed.

(** ** C6: idle expiry *)

(** [requireAuth] reads the mode flag and the config and nothing else:
    handed the stale record itself, it would let the request through. *)
Lemma requireAuth_reads_no_timestamp (r r' : StoredSession) :
  stored r = stored r' -> requireAuth (stored r) = requireAuth (stored r').
Proof. intros ->. reflexivity. Qed.

(** C6, as the code has it.  A session whose record was last touched
    more than [maxAge] (thirty minutes) ago reaches [requireAuth] as a
    session on which nothing is set, so the request is refused as
    unauthenticated and the record leaves the session store.  The
    process state is returned as it was: the registry entries and the
    guest dataset of the expired session are not cleaned up. *)
Theorem expired_session_is_refused
    (now : Z) (sessionId : string) (store : gmap string StoredSession)
    (r : StoredSession) (w : World) :
  store !! sessionId = Some r ->
  maxAge < now - lastActive r ->
  protected_gate now sessionId store w
  = (Stop (Redirect "/?error=upload_required"), delete sessionId store, w).
Proof.
  intros Hr Hold. unfold protected_gate, load_session. rewrite Hr.
  destruct (Z.leb_spec (lastActive r + maxAge) now) as [_|Hlt]; [reflexivity | lia].
Qed.

(** A sample run of [expired_session_is_refused]: thirty-one minutes
    after the last request of [sessA]. *)
Lemma expired_session_is_refused_witness :
  protected_gate thirty_one_minutes "sessA" stale_store world_one_session
  = (Stop (Redirect "/?error=upload_required"), delete "sessA" stale_store,
     world_one_session).
Proof.
  apply (expired_session_is_refused thirty_one_minutes "sessA" stale_store
           {| stored := tenant_session; lastActive := 0 |} world_one_session).
  - reflexivity.
  - reflexivity.
Defined.

(** C6 as stated fails: the expired session [sessA] is refused, but its
    registry entry stays cached and its connection stays open, which a
    logout would have closed and removed. *)
Lemma expiry_triggers_no_cleanup :
  (protected_gate thirty_one_minutes "sessA" stale_store world_one_session).1.1
    = Stop (Redirect "/?error=upload_required") /\
  connectionPool
    (protected_gate thirty_one_minutes "sessA" stale_store world_one_session).2
    !! connectionKey "sessA" "db://x" = Some 0%nat /\
  is_live
    (protected_gate thirty_one_minutes "sessA" stale_store world_one_session).2 0
    = true /\
  connectionPool
    (logout quiet_env (bare_request "sessA") tenant_session world_one_session).2
    !! connectionKey "sessA" "db://x" = None /\
  is_live
    (logout quiet_env (bare_request "sessA") tenant_session world_one_session).2 0
    = false.
Proof. vm_compute. repeat split. Qed.

(** ** C8: the health check never throws *)

Lemma classify_resolved : h_status (classify Resolved) = "Up".
Proof. reflexivity. Qed.

Lemma classify_rejected (error : AxiosError) :
  h_status (classify (Rejected error)) = "Down".
Proof. reflexivity. Qed.

(** A write that goes through leaves the store reachable through the
    same handle. *)
Lemma db_write_Ok (env : Env) (op : DbOp) (h : nat) (f : Dataset -> Dataset)
    (w : World) (uri : string) (d : Dataset) :
  store_of w h = Some (uri, d) -> db_fails env op = false ->
  db_write env op h f w = (Ok tt, set_databases (<[uri := f d]> (databases w)) w) /\
  store_of (set_databases (<[uri := f d]> (databases w)) w) h = Some (uri, f d).
Proof.
  intros Hs Hf. unfold db_write. rewrite Hf, Hs. split; [reflexivity|].
  unfold store_of in *. simpl.
  destruct (connections w !! h) as [c|]; [|discriminate].
  destruct (databases w !! conn_uri c) as [d0|]; [|discriminate].
  injection Hs as <- <-. rewrite lookup_insert_eq. reflexivity.
Qed.

(** *** The mapping of own keys *)

Lemma set_status_same (n : string) (health : Health) (st : gmap string Health) :
  n <> PROTO -> set_status n health st !! n = Some health.
Proof.
  intros Hn. unfold set_status. apply String.eqb_neq in Hn. rewrite Hn.
  apply lookup_insert_eq.
Qed.

Lemma set_status_other (n n' : string) (health : Health) (st : gmap string Health) :
  n' <> n -> set_status n health st !! n' = st !! n'.
Proof.
  intros Hn. unfold set_status. destruct (String.eqb n PROTO); [reflexivity|].
  apply lookup_insert_ne. congruence.
Qed.

Lemma set_status_PROTO (n : string) (health : Health) (st : gmap string Health) :
  set_status n health st !! PROTO = st !! PROTO.
Proof.
  unfold set_status. destruct (String.eqb_spec n PROTO) as [E|E]; [reflexivity|].
  now apply lookup_insert_ne.
Qed.

Lemma foldl_set_status_other (env : Env) (l : list Server)
    (st : gmap string Health) (n : string) :
  ~ In n (map name l) ->
  foldl (fun st t => set_status (name t) (classify (axios_get env (url t))) st)
    st l !! n = st !! n.
Proof.
  revert st. induction l as [|t l IH]; intros st Hn; [reflexivity|].
  simpl. rewrite IH by (intros H; apply Hn; now right).
  apply set_status_other. intros ->. apply Hn. now left.
Qed.

Lemma foldl_set_status_PROTO (env : Env) (l : list Server)
    (st : gmap string Health) :
  foldl (fun st t => set_status (name t) (classify (axios_get env (url t))) st)
    st l !! PROTO = st !! PROTO.
Proof.
  revert st. induction l as [|t l IH]; intros st; [reflexivity|].
  simpl. rewrite IH. apply set_status_PROTO.
Qed.

(** With distinct names, every target whose name is an ordinary key is
    in the mapping with the classification of its own probe. *)
Lemma foldl_set_status_In (env : Env) (l : list Server)
    (st : gmap string Health) (t : Server) :
  NoDup (map name l) -> In t l -> name t <> PROTO ->
  foldl (fun st t => set_status (name t) (classify (axios_get env (url t))) st)
    st l !! name t
  = Some (classify (axios_get env (url t))).
Proof.
  revert st. induction l as [|x l IH]; intros st Hnd Hin Hp; [destruct Hin|].
  change (map name (x :: l)) with (name x :: map name l) in Hnd.
  apply NoDup_cons in Hnd as [Hx Hnd]. rewrite list_elem_of_In in Hx.
  destruct Hin as [<- | Hin]; simpl.
  - rewrite foldl_set_status_other by exact Hx. now apply set_status_same.
  - now apply IH.
Qed.

(** *** The loop over the targets *)

Lemma set_databases_twice (a b : gmap string Dataset) (w : World) :
  set_databases a (set_databases b w) = set_databases a w.
Proof. reflexivity. Qed.

Lemma set_databases_same (w : World) : set_databases (databases w) w = w.
Proof. destruct w; reflexivity. Qed.

Lemma replace_server_probed (env : Env) (t : Server) (done todo : list Server) :
  NoDup (map name (done ++ t :: todo)) ->
  replace_server (probed env t) (map (probed env) done ++ t :: todo)
  = (map (probed env) done ++ probed env t :: todo)%list.
Proof.
  intros Hnd. rewrite map_app in Hnd. apply NoDup_app in Hnd as (_ & Hdis & Hnd).
  change (map name (t :: todo)) with (name t :: map name todo) in *.
  apply NoDup_cons in Hnd as [Ht _].
  unfold replace_server. rewrite map_app. f_equal.
  - rewrite <- (map_id (map (probed env) done)) at 2.
    apply List.map_ext_in. intros x Hx. apply in_map_iff in Hx as (y & <- & Hy).
    unfold has_name. simpl. destruct (String.eqb_spec (name y) (name t)) as [E|E];
      [|reflexivity].
    exfalso. apply (Hdis (name y)).
    + apply list_elem_of_In, in_map, Hy.
    + rewrite E. apply list_elem_of_here.
  - change (map ?f (t :: todo)) with (f t :: map f todo). f_equal.
    + unfold has_name. simpl. now rewrite String.eqb_refl.
    + rewrite <- (map_id todo) at 2. apply List.map_ext_in. intros x Hx.
      unfold has_name. simpl.
      destruct (String.eqb_spec (name x) (name t)) as [E|E]; [|reflexivity].
      exfalso. apply Ht. rewrite <- E. apply list_elem_of_In, in_map, Hx.
Qed.

(** The loop over the targets still to probe, when no save fails. *)
Lemma probe_servers_effect (env : Env) (h : nat) (uri : string)
    (todo done : list Server) (st : gmap string Health) (w : World) (d : Dataset) :
  (forall n, db_fails env (OpSaveServer n) = false) ->
  store_of w h = Some (uri, d) ->
  servers d = (map (probed env) done ++ todo)%list ->
  NoDup (map name (done ++ todo)) ->
  probe_servers env h todo st w
  = (Ok tt,
     foldl (fun st t => set_status (name t) (classify (axios_get env (url t))) st)
       st todo,
     set_databases
       (<[uri := with_servers (fun _ => map (probed env) (done ++ todo)) d]>
          (databases w)) w).
Proof.
  intros Hsave. revert done st w d.
  induction todo as [|t todo IH]; intros done st w d Hstore Hd Hnd.
  - simpl. f_equal. rewrite app_nil_r in *. 
    assert (E : with_servers (fun _ => map (probed env) done) d = d).
    { destruct d as [sv lg dp]. simpl in Hd. subst sv. reflexivity. }
    rewrite E. rewrite insert_id; [now rewrite set_databases_same|].
    unfold store_of in Hstore.
    destruct (connections w !! h) as [c|]; [|discriminate].
    destruct (databases w !! conn_uri c) as [d0|] eqn:E0; [|discriminate].
    injection Hstore as <- <-. exact E0.
  - cbn [probe_servers]. unfold db_write at 1. rewrite Hsave, Hstore.
    set (d1 := with_servers _ d).
    set (w1 := set_databases _ w).
    assert (Hstore1 : store_of w1 h = Some (uri, d1)).
    { unfold store_of in *. subst w1. simpl.
      destruct (connections w !! h) as [c|]; [|discriminate].
      destruct (databases w !! conn_uri c) as [d0|]; [|discriminate].
      injection Hstore as <- <-. now rewrite lookup_insert_eq. }
    assert (Hd1 : servers d1 = (map (probed env) (done ++ [t]) ++ todo)%list).
    { subst d1. simpl. rewrite Hd.
      change {| name := name t; url := url t;
                status := h_status (classify (axios_get env (url t))) |}
        with (probed env t).
      rewrite replace_server_probed by exact Hnd.
      rewrite map_app. simpl. now rewrite <- app_assoc. }
    rewrite (IH (done ++ [t])%list _ w1 d1 Hstore1 Hd1)
      by (now rewrite <- app_assoc).
    f_equal. subst w1 d1. rewrite set_databases_twice. simpl.
    rewrite insert_insert_eq. rewrite <- app_assoc. simpl.
    destruct d; reflexivity.
Qed.

(** C8.  [checkServerHealth] returns a status mapping on every input and
    never throws.  Without a connection in credentialed mode, and when
    the store cannot list the targets, the mapping is empty and nothing
    changed.  When the store operations go through, every registered
    target is probed and classified, whatever the probes of the other
    targets did: the store holds each target with the status of its own
    probe, and every target whose name is an ordinary key of a
    JavaScript object is in the mapping with the classification of its
    own probe, [Up] for a probe that resolved and [Down] for one that
    was rejected.  The name [__proto__] is never a key of the
    mapping. *)
Theorem checkServerHealth_never_throws :
  (forall env now sessionId guest connection w,
     exists st w',
       checkServerHealth env now sessionId guest connection w = (Ok st, w')) /\
  (forall env now sessionId w,
     checkServerHealth env now sessionId false None w = (Ok ∅, w)) /\
  (forall env now sessionId h w e,
     db_read env OpFindServers h w = Throw e ->
     checkServerHealth env now sessionId false (Some h) w = (Ok ∅, w)) /\
  (forall env now sessionId h w uri d,
     store_of w h = Some (uri, d) ->
     (forall op, db_fails env op = false) ->
     NoDup (map name (servers d)) ->
     exists st w',
       checkServerHealth env now sessionId false (Some h) w = (Ok st, w') /\
       servers <$> databases w' !! uri = Some (map (probed env) (servers d)) /\
       st !! PROTO = None /\
       forall t, In t (servers d) -> name t <> PROTO ->
         st !! name t = Some (classify (axios_get env (url t))) /\
         (axios_get env (url t) = Resolved ->
          h_status <$> st !! name t = Some "Up") /\
         (axios_get env (url t) <> Resolved ->
          h_status <$> st !! name t = Some "Down")).
Proof.
  split; [|split; [|split]].
  - intros. unfold checkServerHealth.
    destruct (health_try env now sessionId guest connection w) as [[[v| |e] st] w'];
      eauto.
  - reflexivity.
  - intros * H. unfold checkServerHealth, health_try. rewrite H. reflexivity.
  - intros * Hs Hok Hnd. unfold checkServerHealth, health_try.
    unfold db_read. rewrite Hok, Hs.
    rewrite (probe_servers_effect env h uri (servers d) [] ∅ w d
               (fun n => Hok (OpSaveServer n)) Hs eq_refl Hnd).
    set (st := foldl _ ∅ (servers d)).
    unfold db_write. rewrite Hok. simpl app.
    set (d1 := with_servers _ d). set (w1 := set_databases _ w).
    assert (Hs1 : store_of w1 h = Some (uri, d1)).
    { unfold store_of in *. subst w1. simpl.
      destruct (connections w !! h) as [c|]; [|discriminate].
      destruct (databases w !! conn_uri c) as [d0|]; [|discriminate].
      injection Hs as <- <-. now rewrite lookup_insert_eq. }
    rewrite Hs1. exists st. eexists. split; [reflexivity|]. split.
    { simpl. rewrite lookup_insert_eq. reflexivity. }
    split.
    { unfold st. rewrite foldl_set_status_PROTO. apply lookup_empty. }
    intros t Hin Hp. unfold st.
    rewrite (foldl_set_status_In env (servers d) ∅ t Hnd Hin Hp).
    split; [reflexivity|]. split; [intros ->; reflexivity|].
    destruct (axios_get env (url t)); [congruence | reflexivity].
Qed.

(** A sample run of [checkServerHealth_never_throws]: two targets, the
    probe of the first is refused, the second still gets its own
    status. *)
Lemma checkServerHealth_never_throws_witness :
  exists st w',
    checkServerHealth flaky_env 0 "sessA" false (Some 0%nat) two_target_world
      = (Ok st, w') /\
    servers <$> databases w' !! "db://x"
    = Some (map (probed flaky_env) two_targets) /\
    st !! PROTO = None /\
    forall t, In t two_targets -> name t <> PROTO ->
      st !! name t = Some (classify (axios_get flaky_env (url t))) /\
      (axios_get flaky_env (url t) = Resolved ->
       h_status <$> st !! name t = Some "Up") /\
      (axios_get flaky_env (url t) <> Resolved ->
       h_status <$> st !! name t = Some "Down").
Proof.
  apply (proj2 (proj2 (proj2 checkServerHealth_never_throws))
           flaky_env 0 "sessA" 0%nat two_target_world "db://x"
           {| servers := two_targets; logs := []; deployments := [] |}).
  - vm_compute. reflexivity.
  - reflexivity.
  - vm_compute. repeat constructor; rewrite ?list_elem_of_In; simpl; intuition discriminate.
Defined.

(** The same run, evaluated. *)
Lemma one_dead_target_does_not_hide_the_other :
  let st := match (checkServerHealth flaky_env 0 "sessA" false (Some 0%nat)
                     two_target_world).1 with
            | Ok st => st
            | Throw _ => ∅
            end in
  st !! "a" = Some {| h_status := "Down"; h_reason := "ECONNREFUSED" |} /\
  st !! "b" = Some {| h_status := "Up"; h_reason := "OK 200" |}.
Proof. vm_compute. split; reflexivity. Qed.

(** ** C7: the parser on a blob of entries *)

Module DotenvFacts.
Import Dotenv.
Local Open Scope list_scope.
Local Arguments Ascii.eqb : simpl never.
Local Arguments is_space : simpl never.
Local Arguments is_quote : simpl never.

Lemma quote_not_space (q : ascii) : is_quote q = true -> is_space q = false.
Proof.
  unfold is_quote. intros H. apply orb_true_iff in H as [H | H];
    apply Ascii.eqb_eq in H; subst; reflexivity.
Qed.

Lemma quote_not_LF (q : ascii) : is_quote q = true -> Ascii.eqb q LF = false.
Proof.
  unfold is_quote. intros H. apply orb_true_iff in H as [H | H];
    apply Ascii.eqb_eq in H; subst; reflexivity.
Qed.

Lemma contains_app (c : ascii) (a b : list ascii) :
  contains c (a ++ b) = contains c a || contains c b.
Proof. unfold contains. apply existsb_app. Qed.

(** *** Trimming *)

Lemma ltrim_snoc (a : list ascii) (c : ascii) :
  is_space c = false -> ltrim (a ++ [c]) = ltrim a ++ [c].
Proof.
  intros Hc. induction a as [|x a IH]; simpl.
  - now rewrite Hc.
  - destruct (is_space x); [exact IH | reflexivity].
Qed.

Lemma rtrim_cons (c : ascii) (l : list ascii) :
  is_space c = false -> rtrim (c :: l) = c :: rtrim l.
Proof.
  intros Hc. unfold rtrim. simpl.
  rewrite (ltrim_snoc _ _ Hc), rev_app_distr. reflexivity.
Qed.

Lemma rtrim_snoc (l : list ascii) (c : ascii) :
  is_space c = false -> rtrim (l ++ [c]) = l ++ [c].
Proof.
  intros Hc. unfold rtrim. rewrite rev_app_distr. simpl. rewrite Hc.
  simpl. now rewrite rev_involutive.
Qed.

Lemma trim_trimmed (s : list ascii) : trimmed s -> trim s = s.
Proof. intros [Hl Hr]. unfold trim. now rewrite Hl, Hr. Qed.

(** A text that starts and ends with a character that is no white
    space is its own trimming. *)
Lemma trim_wrapped (q : ascii) (v : list ascii) :
  is_space q = false -> trim (q :: v ++ [q]) = q :: v ++ [q].
Proof.
  intros Hq. unfold trim. simpl. rewrite Hq.
  change (q :: v ++ [q]) with ((q :: v) ++ [q]).
  now apply rtrim_snoc.
Qed.

(** The first character of a text that starts with no white space is
    also the first of its trimming. *)
Lemma trim_head (c : ascii) (l : list ascii) :
  is_space c = false -> trim (c :: l) = c :: rtrim l.
Proof. intros Hc. unfold trim. simpl. rewrite Hc. now apply rtrim_cons. Qed.

Lemma trimmed_head (c : ascii) (l : list ascii) :
  trimmed (c :: l) -> is_space c = false.
Proof.
  intros [Hl _]. simpl in Hl. destruct (is_space c) eqn:Hc; [|reflexivity].
  exfalso. assert (Hlen : (length (ltrim l) <= length l)%nat).
  { clear. induction l as [|x l IH]; simpl; [lia|].
    destruct (is_space x); simpl; lia. }
  rewrite Hl in Hlen. simpl in Hlen. lia.
Qed.

(** *** Unwrapping *)

Lemma unquote_wrapped (q : ascii) (v : list ascii) :
  is_quote q = true -> unquote (q :: v ++ [q]) = v.
Proof.
  intros Hq. unfold unquote. rewrite Hq, rev_app_distr. simpl.
  rewrite Ascii.eqb_refl. apply rev_involutive.
Qed.

Lemma unquote_bare (v : list ascii) :
  match v with
  | c :: _ => is_quote c = false
  | [] => True
  end -> unquote v = v.
Proof. destruct v as [|c v]; [reflexivity|]. simpl. now intros ->. Qed.

(** *** Lines *)

Lemma split_lines_nonempty (s : list ascii) : exists l ls, split_lines s = l :: ls.
Proof.
  induction s as [|c s (l & ls & IH)]; simpl; [eauto|].
  destruct (Ascii.eqb c LF); [eauto|]. rewrite IH. eauto.
Qed.

Lemma split_lines_single (l : list ascii) :
  contains LF l = false -> split_lines l = [l].
Proof.
  induction l as [|c l IH]; simpl; [reflexivity|].
  intros H. apply orb_false_iff in H as [Hc Hl].
  rewrite Ascii.eqb_sym, Hc, (IH Hl). reflexivity.
Qed.

(** A line feed ends the last line of what precedes it. *)
Lemma split_lines_app_LF (x rest : list ascii) :
  split_lines (x ++ LF :: rest) = split_lines x ++ split_lines rest.
Proof.
  induction x as [|c x IH]; simpl.
  - reflexivity.
  - destruct (Ascii.eqb c LF); [now rewrite IH|].
    rewrite IH. destruct (split_lines_nonempty x) as (l & ls & ->). reflexivity.
Qed.

(** Text without line feeds put in front joins the first line. *)
Lemma split_lines_prepend (a b l : list ascii) (ls : list (list ascii)) :
  contains LF a = false -> split_lines b = l :: ls ->
  split_lines (a ++ b) = (a ++ l) :: ls.
Proof.
  intros Ha Hb. induction a as [|c a IH]; simpl; [exact Hb|].
  simpl in Ha. apply orb_false_iff in Ha as [Hc Ha].
  rewrite Ascii.eqb_sym, Hc, (IH Ha). reflexivity.
Qed.

(** A character other than the line feed put at the end joins the last
    line. *)
Lemma split_lines_snoc (v : list ascii) (q : ascii) :
  Ascii.eqb q LF = false ->
  exists pre lst,
    split_lines v = pre ++ [lst] /\ split_lines (v ++ [q]) = pre ++ [lst ++ [q]].
Proof.
  intros Hq. induction v as [|c v (pre & lst & Hv & Hvq)]; simpl.
  - exists [], []. rewrite Hq. split; reflexivity.
  - destruct (Ascii.eqb c LF).
    + exists ([] :: pre), lst. rewrite Hv, Hvq. split; reflexivity.
    + rewrite Hv, Hvq. destruct pre as [|p pre]; simpl.
      * exists [], (c :: lst). split; reflexivity.
      * exists ((c :: p) :: pre), lst. split; reflexivity.
Qed.

Lemma split_lines_free (q : ascii) (v : list ascii) :
  contains q v = false ->
  Forall (fun l => contains q l = false) (split_lines v).
Proof.
  induction v as [|c v IH]; simpl.
  - intros _. repeat constructor.
  - intros H. apply orb_false_iff in H as [Hc Hv]. specialize (IH Hv).
    destruct (Ascii.eqb c LF).
    + constructor; [reflexivity | exact IH].
    + destruct (split_lines v) as [|l ls]; [repeat constructor; simpl; now rewrite Hc|].
      inversion IH; subst. constructor; [|assumption].
      simpl. rewrite Hc. assumption.
Qed.

Lemma join_lines_cons_char (c : ascii) (l : list ascii) (ls : list (list ascii)) :
  join_lines ((c :: l) :: ls) = c :: join_lines (l :: ls).
Proof. destruct ls; reflexivity. Qed.

(** Joining the lines of a text gives the text back. *)
Lemma join_split_lines (s : list ascii) : join_lines (split_lines s) = s.
Proof.
  induction s as [|c s IH]; simpl; [reflexivity|].
  destruct (Ascii.eqb_spec c LF) as [->|Hc].
  - destruct (split_lines_nonempty s) as (l & ls & Hs). rewrite Hs in *.
    simpl. now rewrite <- IH.
  - destruct (split_lines_nonempty s) as (l & ls & Hs). rewrite Hs in *.
    rewrite join_lines_cons_char. now rewrite IH.
Qed.

(** The closing quote is found on the first line that holds it. *)
Lemma find_close_app (q : ascii) (pre : list (list ascii)) (l : list ascii)
    (rest : list (list ascii)) :
  Forall (fun l => contains q l = false) pre -> contains q l = true ->
  find_close q (pre ++ l :: rest) = Some (length pre).
Proof.
  intros Hpre Hl. induction Hpre as [|p pre Hp _ IH]; simpl.
  - now rewrite Hl.
  - now rewrite Hp, IH.
Qed.

(** Lines that belong to the value before them are passed over. *)
Lemma parse_lines_skip (xs rest : list (list ascii)) (acc : gmap string string) :
  parse_lines (length xs) (xs ++ rest) acc = parse_lines O rest acc.
Proof.
  induction xs as [|x xs IH]; simpl; [|exact IH].
  destruct rest; reflexivity.
Qed.

(** *** Reading one entry *)

Lemma contains_cons (c x : ascii) (l : list ascii) :
  contains c (x :: l) = Ascii.eqb c x || contains c l.
Proof. reflexivity. Qed.

Lemma read_value_plain (v : list ascii) (rest : list (list ascii)) :
  trimmed v ->
  match v with
  | c :: _ => is_quote c = false
  | [] => True
  end ->
  read_value v rest = (v, O).
Proof.
  intros Ht Hq. unfold read_value. rewrite (proj1 Ht).
  destruct v as [|c t]; [reflexivity|].
  rewrite Hq. simpl. rewrite (trim_trimmed _ Ht), unquote_bare; [reflexivity|exact Hq].
Qed.

Lemma read_value_quoted (q : ascii) (v x : list ascii) (xs rest : list (list ascii)) :
  is_quote q = true -> contains q v = false ->
  split_lines (v ++ [q]) = x :: xs ->
  read_value (q :: x) (xs ++ rest) = (v, length xs).
Proof.
  intros Hq Hv Hsplit.
  pose proof (quote_not_space q Hq) as Hsp.
  destruct (split_lines_snoc v q (quote_not_LF q Hq)) as (pre & lst & Hpre & Hsnoc).
  pose proof (split_lines_free q v Hv) as Hfree. rewrite Hpre in Hfree.
  assert (Hjoin : join_lines (x :: xs) = v ++ [q]).
  { rewrite <- Hsplit. apply join_split_lines. }
  assert (Hqq : contains q (lst ++ [q]) = true).
  { rewrite contains_app, contains_cons, Ascii.eqb_refl. now rewrite orb_true_r. }
  unfold read_value. simpl ltrim. rewrite Hsp, Hq.
  rewrite Hsnoc in Hsplit. destruct pre as [|p pre]; simpl in Hsplit.
  - injection Hsplit as <- <-. rewrite Hqq. simpl.
    simpl in Hjoin. rewrite Hjoin.
    rewrite (trim_wrapped q v Hsp), (unquote_wrapped q v Hq). reflexivity.
  - injection Hsplit as <- <-.
    apply Forall_cons in Hfree as [Hp Hfree].
    apply Forall_app in Hfree as [Hfree _].
    rewrite Hp. simpl negb. simpl andb.
    rewrite <- app_assoc. simpl app.
    rewrite (find_close_app q pre (lst ++ [q]) rest Hfree Hqq).
    replace (S (length pre)) with (length pre + 1)%nat by lia.
    rewrite firstn_app_2.
    change (firstn 1 ((lst ++ [q]) :: rest)) with [lst ++ [q]].
    rewrite join_lines_cons_char, Hjoin.
    rewrite (trim_wrapped q v Hsp), (unquote_wrapped q v Hq).
    rewrite length_app. simpl. reflexivity.
Qed.

Lemma is_ignored_comment (text : list ascii) : is_ignored (HASH :: text) = true.
Proof.
  unfold is_ignored. rewrite trim_head by reflexivity. apply Ascii.eqb_refl.
Qed.

Lemma is_ignored_key (key s : list ascii) :
  wf_key key -> is_ignored (key ++ s) = false.
Proof.
  intros (Hne & Ht & _ & _ & Hhash). destruct key as [|c key]; [contradiction|].
  unfold is_ignored. simpl app. rewrite trim_head by (eapply trimmed_head; exact Ht).
  apply Ascii.eqb_neq. intros ->. now apply Hhash.
Qed.

Lemma break_at_key (key s : list ascii) :
  contains EQUALS key = false ->
  break_at EQUALS (key ++ EQUALS :: s) = Some (key, s).
Proof.
  induction key as [|c key IH]; cbn [app break_at].
  - intros _. reflexivity.
  - rewrite contains_cons. intros H. apply orb_false_iff in H as [Hc Hk].
    rewrite Ascii.eqb_sym, Hc, (IH Hk). reflexivity.
Qed.

(** The parser on an assignment line whose value text is [raw]. *)
Lemma parse_lines_assignment (key raw : list ascii) (rest : list (list ascii))
    (acc : gmap string string) :
  wf_key key ->
  parse_lines O ((key ++ EQUALS :: raw) :: rest) acc
  = let '(v, n) := read_value raw rest in
    parse_lines n rest (<[string_of_list_ascii key := string_of_list_ascii v]> acc).
Proof.
  intros Hk. pose proof Hk as (Hne & Ht & Heq & _ & _).
  cbn [parse_lines]. rewrite (is_ignored_key key _ Hk), (break_at_key key raw Heq).
  rewrite (trim_trimmed key Ht). destruct key as [|c key]; [contradiction|].
  reflexivity.
Qed.

(** The parser passes over the lines of one well-formed entry and binds
    what the entry assigns. *)
Lemma parse_lines_entry (e : Entry) (rest : list (list ascii))
    (acc : gmap string string) :
  wf_entry e ->
  parse_lines O (split_lines (render_entry e) ++ rest) acc
  = parse_lines O rest (bind_entry acc e).
Proof.
  destruct e as [text| |key value|key q value]; simpl wf_entry; simpl render_entry.
  - intros Ht. rewrite split_lines_single.
    + simpl app. cbn [parse_lines]. now rewrite is_ignored_comment.
    + rewrite contains_cons, Ht. reflexivity.
  - intros _. reflexivity.
  - intros (Hk & Htrim & Hlf & Hq).
    pose proof Hk as (_ & _ & _ & Hklf & _).
    rewrite split_lines_single.
    + simpl app. rewrite (parse_lines_assignment key value rest acc Hk).
      rewrite (read_value_plain value rest Htrim Hq). reflexivity.
    + rewrite contains_app, contains_cons, Hklf, Hlf. reflexivity.
  - intros (Hk & Hq & Hv).
    pose proof Hk as (_ & _ & _ & Hklf & _).
    destruct (split_lines_nonempty (value ++ [q])) as (x & xs & Hsplit).
    change (key ++ EQUALS :: q :: value ++ [q])
      with (key ++ [EQUALS; q] ++ (value ++ [q])).
    rewrite app_assoc.
    rewrite (split_lines_prepend (key ++ [EQUALS; q]) (value ++ [q]) x xs).
    + rewrite <- app_assoc. simpl app.
      rewrite (parse_lines_assignment key (q :: x) (xs ++ rest) acc Hk).
      rewrite (read_value_quoted q value x xs rest Hq Hv Hsplit).
      apply parse_lines_skip.
    + rewrite contains_app, Hklf, !contains_cons.
      rewrite (Ascii.eqb_sym LF q), (quote_not_LF q Hq). reflexivity.
    + exact Hsplit.
Qed.

(** The parser on a whole blob of well-formed entries. *)
Lemma parse_lines_render (es : list Entry) (acc : gmap string string) :
  Forall wf_entry es ->
  parse_lines O (split_lines (render es)) acc = fold_left bind_entry es acc.
Proof.
  intros Hwf. revert acc. induction Hwf as [|e es He _ IH]; intros acc.
  - reflexivity.
  - simpl render. rewrite split_lines_app_LF, (parse_lines_entry e _ acc He).
    apply IH.
Qed.

End DotenvFacts.

(** The parse of a blob of well-formed entries is the bundle they
    describe. *)
Lemma parse_blob_of (es : list Entry) :
  Forall wf_entry es -> parseEnvContent (blob_of es) = bundle_of es.
Proof.
  intros Hwf. unfold parseEnvContent, Dotenv.parse, blob_of, bundle_of.
  rewrite list_ascii_of_string_of_list_ascii.
  now apply DotenvFacts.parse_lines_render.
Qed.

Lemma string_of_list_ascii_inj (a b : list ascii) :
  string_of_list_ascii a = string_of_list_ascii b -> a = b.
Proof.
  intros H. apply (f_equal list_ascii_of_string) in H.
  now rewrite !list_ascii_of_string_of_list_ascii in H.
Qed.

(** Entries that do not assign [key] leave its binding alone. *)
Lemma fold_bind_other (key : list ascii) (es : list Entry) (m : gmap string string) :
  Forall (fun e => assigned_key e <> Some key) es ->
  fold_left bind_entry es m !! string_of_list_ascii key
  = m !! string_of_list_ascii key.
Proof.
  intros H. revert m. induction H as [|e es He _ IH]; intros m; simpl; [reflexivity|].
  rewrite IH. destruct e as [text| |k v|k q v]; simpl in *; try reflexivity;
    (apply lookup_insert_ne; intros Heq; apply string_of_list_ascii_inj in Heq;
     congruence).
Qed.

(** Comment lines bind nothing. *)
Lemma fold_bind_without_comments (es : list Entry) (m : gmap string string) :
  fold_left bind_entry (without_comments es) m = fold_left bind_entry es m.
Proof.
  revert m. induction es as [|e es IH]; intros m; simpl; [reflexivity|].
  destruct e; simpl; apply IH.
Qed.

(** C7.  Take a blob made of well-formed entries (comment lines, blank
    lines, bare assignments, quoted assignments) that holds the
    assignment of [value] to [key], wrapped in the quote character [q];
    [value] is any text without that quote character, so it may span
    several lines.  If no later entry assigns [key], the parse binds
    [key] to exactly [value]: the quotes are gone and every line feed
    inside is kept.  The parse is the bundle the assignments describe,
    and it is the parse of the blob with all comment lines deleted, so
    no comment line contributes an entry. *)
Theorem multiline_value_and_comment_roundtrip
    (before after : list Entry) (key : list ascii) (q : ascii) (value : list ascii) :
  Forall wf_entry (before ++ Quoted key q value :: after) ->
  Forall (fun e => assigned_key e <> Some key) after ->
  parseEnvContent (blob_of (before ++ Quoted key q value :: after))
    !! string_of_list_ascii key = Some (string_of_list_ascii value) /\
  parseEnvContent (blob_of (before ++ Quoted key q value :: after))
    = bundle_of (before ++ Quoted key q value :: after) /\
  parseEnvContent (blob_of (before ++ Quoted key q value :: after))
    = parseEnvContent
        (blob_of (without_comments (before ++ Quoted key q value :: after))).
Proof.
  intros Hwf Hafter.
  rewrite (parse_blob_of _ Hwf). split; [|split].
  - unfold bundle_of. rewrite fold_left_app. simpl.
    rewrite (fold_bind_other key after _ Hafter). apply lookup_insert_eq.
  - reflexivity.
  - rewrite parse_blob_of.
    + unfold bundle_of. now rewrite fold_bind_without_comments.
    + unfold without_comments. apply List.Forall_forall.
      intros e He. apply List.filter_In in He as [He _].
      revert e He. apply List.Forall_forall. exact Hwf.
Qed.

(** A sample run of [multiline_value_and_comment_roundtrip]: a bundle
    with two comment lines and a value of four lines in double quotes. *)
Lemma multiline_value_and_comment_roundtrip_witness :
  parseEnvContent
    (blob_of (sample_before ++ Quoted (chars "PRIVATE_KEY") Dotenv.DQUOTE sample_value
                               :: sample_after))
    !! string_of_list_ascii (chars "PRIVATE_KEY")
  = Some (string_of_list_ascii sample_value) /\
  parseEnvContent
    (blob_of (sample_before ++ Quoted (chars "PRIVATE_KEY") Dotenv.DQUOTE sample_value
                               :: sample_after))
  = bundle_of (sample_before ++ Quoted (chars "PRIVATE_KEY") Dotenv.DQUOTE sample_value
                                 :: sample_after) /\
  parseEnvContent
    (blob_of (sample_before ++ Quoted (chars "PRIVATE_KEY") Dotenv.DQUOTE sample_value
                               :: sample_after))
  = parseEnvContent
      (blob_of (without_comments
                  (sample_before ++ Quoted (chars "PRIVATE_KEY") Dotenv.DQUOTE sample_value
                                 :: sample_after))).
Proof.
  apply (multiline_value_and_comment_roundtrip sample_before sample_after
           (chars "PRIVATE_KEY") Dotenv.DQUOTE sample_value).
  - repeat (apply List.Forall_cons || apply List.Forall_nil);
      vm_compute; repeat split; discriminate.
  - repeat (apply List.Forall_cons || apply List.Forall_nil);
      vm_compute; discriminate.
Defined.

(** The same bundle, parsed: three entries, none from a comment line. *)
Lemma sample_bundle_parsed :
  let parsed :=
    parseEnvContent
      (blob_of (sample_before ++ Quoted (chars "PRIVATE_KEY") Dotenv.DQUOTE sample_value
                                 :: sample_after)) in
  parsed !! "MONGO_URI" = Some "db://x?a=b" /\
  parsed !! "PRIVATE_KEY" = Some (string_of_list_ascii sample_value) /\
  parsed !! "API_KEY" = Some "k1" /\
  size parsed = 3%nat.
Proof. vm_compute. repeat split. Qed.

(** ** Two runs through the routes *)

(** A tenant uploads a valid bundle, is let through by [requireAuth],
    adds the target [svc1] with its access key, and the health check
    marks the target [Up]. *)
Lemma tenant_scenario :
  let blob := "MONGO_URI=db://x" +:+ NL +:+ "API_KEY=k1" +:+ NL in
  let '(r1, s1, w1) := upload_env (upload_request "sessA" blob) empty_session demo_world in
  let add := {| sessionID := "sessA"; x_api_key := Some "k1"; file := None;
                body_version := None; body_name := Some "svc1";
                body_url := Some "http://ok"; param_name := EmptyString |} in
  let '(r2, s2, w2) := post_servers quiet_env add s1 w1 in
  let '(r3, s3, w3) := post_servers quiet_env add s2 w2 in
  let '(health, w4) := checkServerHealth quiet_env 0 "sessA" false (Some 0%nat) w3 in
  r1 = Redirect "/dashboard" /\ requireAuth s1 = Next /\
  r2 = Json 201 "Server added" /\
  r3 = Json 409 "Server with this name already exists" /\
  health = Ok (<["svc1" := {| h_status := "Up"; h_reason := "OK 200" |}]> ∅) /\
  created w4 = 1%nat /\
  (servers <$> databases w4 !! "db://x")
    = Some [ {| name := "svc1"; url := "http://ok"; status := "Up" |} ].
Proof. vm_compute. repeat split. Qed.

(** A guest sees the two seeded targets, one up and one down; adding a
    target is refused and the seeded data stay as they were. *)
Lemma guest_scenario :
  let enter := bare_request "guest1" in
  let '(r1, s1, w1) := guest_mode 0 enter empty_session demo_world in
  let '(health, w2) := checkServerHealth quiet_env 0 "guest1" true None w1 in
  let add := {| sessionID := "guest1"; x_api_key := Some "guest-api-key-12345";
                file := None; body_version := None; body_name := Some "svc1";
                body_url := Some "http://ok"; param_name := EmptyString |} in
  let '(r3, s3, w3) := post_servers quiet_env add s1 w2 in
  r1 = Redirect "/dashboard" /\ s1 = guest_session /\
  health = Ok (<["Demo Server 1" := {| h_status := "Up"; h_reason := "OK 200" |}]>
               (<["Demo Server 2" := {| h_status := "Down";
                                        h_reason := "Connection failed" |}]> ∅)) /\
  r3 = Json 403 "Cannot add servers in guest mode" /\
  guestStorage w3 !! "guest1" = Some (guest_seed 0) /\
  connectionPool w3 = ∅ /\ databases w3 = databases demo_world.
Proof. vm_compute. repeat split. Qed.

(** * Further properties of the code *)

(** ** The registry: failure, eviction, sweep, logout *)

Lemma append_inv_head (a t t' : string) : a +:+ t = a +:+ t' -> t = t'.
Proof. induction a as [|c a IH]; simpl; [auto|]. intros [= H]. auto. Qed.

Lemma wf_world_same_pool (w w' : World) :
  connectionPool w' = connectionPool w -> created w' = created w ->
  wf_world w -> wf_world w'.
Proof. intros Hp Hc [Hlt Hinj]. unfold wf_world. rewrite Hp, Hc. now split. Qed.

Lemma set_connectionPool_same (w : World) :
  set_connectionPool (connectionPool w) w = w.
Proof. destruct w; reflexivity. Qed.

Lemma set_guestStorage_same (w : World) : set_guestStorage (guestStorage w) w = w.
Proof. destruct w; reflexivity. Qed.

(** X1.  When [getConnection] throws, nothing is cached.  With an empty
    identity or address the process state is what it was.  Otherwise
    the address was unreachable, no live entry was cached for the pair,
    the entry of the pair (a dead one, if there was one) is gone from
    the registry, every other entry, the guest datasets and the backing
    stores are untouched, and one connection object was made. *)
Theorem getConnection_failure_caches_nothing
    (sessionId mongoUri e : string) (w w' : World) :
  getConnection sessionId mongoUri w = (Throw e, w') ->
  ((sessionId = EmptyString \/ mongoUri = EmptyString) /\ w' = w) \/
  (sessionId <> EmptyString /\ mongoUri <> EmptyString /\
   databases w !! mongoUri = None /\
   (forall h, connectionPool w !! connectionKey sessionId mongoUri = Some h ->
              is_live w h = false) /\
   connectionPool w' = delete (connectionKey sessionId mongoUri) (connectionPool w) /\
   guestStorage w' = guestStorage w /\ databases w' = databases w /\
   created w' = S (created w)).
Proof.
  unfold getConnection.
  destruct (String.eqb_spec sessionId EmptyString) as [->|Hs]; simpl.
  { intros [= <- <-]. left. auto. }
  destruct (String.eqb_spec mongoUri EmptyString) as [->|Hu]; simpl.
  { intros [= <- <-]. left. auto. }
  set (key := connectionKey sessionId mongoUri).
  assert (Hfail : forall w0 : World,
    connect_and_cache key mongoUri w0 = (Throw e, w') ->
    databases w0 !! mongoUri = None /\ connectionPool w' = connectionPool w0 /\
    guestStorage w' = guestStorage w0 /\ databases w' = databases w0 /\
    created w' = S (created w0)).
  { intros w0. unfold connect_and_cache, createConnection.
    destruct (databases w0 !! mongoUri); intros [= <- <-]; simpl. auto. }
  intros H. right. split; [exact Hs|]. split; [exact Hu|].
  destruct (connectionPool w !! key) as [h0|] eqn:Hpool.
  - destruct (is_live w h0) eqn:Hlive; [discriminate|].
    apply Hfail in H as (H1 & H2 & H3 & H4 & H5). simpl in *.
    repeat split; auto. intros h [= <-]. exact Hlive.
  - apply Hfail in H as (H1 & H2 & H3 & H4 & H5).
    repeat split; auto; [discriminate|].
    rewrite H2. symmetry. now apply delete_id.
Qed.

(** A sample run of [getConnection_failure_caches_nothing]: an address
    nobody answers at. *)
Lemma getConnection_failure_caches_nothing_witness :
  (("sessA" = EmptyString \/ "db://down" = EmptyString) /\
   (getConnection "sessA" "db://down" demo_world).2 = demo_world) \/
  ("sessA" <> EmptyString /\ "db://down" <> EmptyString /\
   databases demo_world !! "db://down" = None /\
   (forall h, connectionPool demo_world !! connectionKey "sessA" "db://down" = Some h ->
              is_live demo_world h = false) /\
   connectionPool (getConnection "sessA" "db://down" demo_world).2
     = delete (connectionKey "sessA" "db://down") (connectionPool demo_world) /\
   guestStorage (getConnection "sessA" "db://down" demo_world).2
     = guestStorage demo_world /\
   databases (getConnection "sessA" "db://down" demo_world).2 = databases demo_world /\
   created (getConnection "sessA" "db://down" demo_world).2 = S (created demo_world)).
Proof.
  apply (getConnection_failure_caches_nothing "sessA" "db://down"
           "MongoDB connection error" demo_world
           (getConnection "sessA" "db://down" demo_world).2).
  vm_compute. reflexivity.
Defined.

(** X2.  A dead entry is never handed out.  When the registry is well
    formed, the entry cached for the pair is dead and the address is
    reachable, [getConnection] makes a new connection object, returns
    its handle, which differs from the dead one, caches it under the
    same key, and the returned connection is live. *)
Theorem getConnection_replaces_dead_entry
    (sessionId mongoUri : string) (w : World) (h0 : nat) (d : Dataset) :
  wf_world w ->
  sessionId <> EmptyString -> mongoUri <> EmptyString ->
  connectionPool w !! connectionKey sessionId mongoUri = Some h0 ->
  is_live w h0 = false ->
  databases w !! mongoUri = Some d ->
  exists w',
    getConnection sessionId mongoUri w = (Ok (created w), w') /\
    created w <> h0 /\
    connectionPool w' !! connectionKey sessionId mongoUri = Some (created w) /\
    is_live w' (created w) = true /\
    created w' = S (created w).
Proof.
  intros [Hlt _] Hs Hu Hpool Hdead Hdb.
  unfold getConnection. rewrite (required_args _ _ Hs Hu). cbv zeta.
  rewrite Hpool, Hdead. unfold connect_and_cache, createConnection. simpl.
  rewrite Hdb. eexists. split; [reflexivity|]. simpl.
  split; [|split; [|split]].
  - specialize (Hlt _ _ Hpool). lia.
  - apply lookup_insert_eq.
  - unfold is_live. simpl. rewrite lookup_insert_eq. reflexivity.
  - reflexivity.
Qed.

(** A sample run of [getConnection_replaces_dead_entry]: the connection
    of [sessA] dropped and is replaced by a second one. *)
Lemma getConnection_replaces_dead_entry_witness :
  exists w',
    getConnection "sessA" "db://x" world_dropped = (Ok (created world_dropped), w') /\
    created world_dropped <> 0%nat /\
    connectionPool w' !! connectionKey "sessA" "db://x" = Some (created world_dropped) /\
    is_live w' (created world_dropped) = true /\
    created w' = S (created world_dropped).
Proof.
  apply (getConnection_replaces_dead_entry "sessA" "db://x" world_dropped 0
           empty_dataset).
  - apply (wf_world_same_pool world_one_session); [reflexivity | reflexivity |].
    eapply getConnection_wf; [apply wf_initial | apply surjective_pairing].
  - discriminate.
  - discriminate.
  - vm_compute. reflexivity.
  - vm_compute. reflexivity.
  - vm_compute. reflexivity.
Defined.

(** ** Invariants along runs *)

Lemma same_registry_refl (w : World) : same_registry w w.
Proof. repeat split. Qed.

Lemma db_write_registry (env : Env) (op : DbOp) (h : nat) (f : Dataset -> Dataset)
    (w : World) : same_registry w (db_write env op h f w).2.
Proof.
  unfold db_write. destruct (db_fails env op); [apply same_registry_refl|].
  destruct (store_of w h) as [[uri d]|]; repeat split.
Qed.

Lemma probe_servers_registry (env : Env) (h : nat) (targets : list Server)
    (st : gmap string Health) (w : World) :
  same_registry w (probe_servers env h targets st w).2.
Proof.
  revert st w. induction targets as [|t targets IH]; intros st w;
    [apply same_registry_refl|].
  cbn [probe_servers].
  pose proof (db_write_registry env (OpSaveServer (name t)) h
                (with_servers (replace_server
                   {| name := name t; url := url t;
                      status := h_status (classify (axios_get env (url t))) |})) w)
    as (H1 & H2 & H3).
  destruct (db_write env (OpSaveServer (name t)) h _ w) as [[[]|e] w1] eqn:Hw;
    simpl in *.
  - destruct (IH (set_status (name t) (classify (axios_get env (url t))) st) w1)
      as (I1 & I2 & I3).
    repeat split; congruence.
  - repeat split; assumption.
Qed.

Lemma getGuestData_registry (now : Z) (sessionId : string) (w : World) :
  same_registry w (getGuestData now sessionId w).2.
Proof.
  unfold getGuestData. destruct (guestStorage w !! sessionId); repeat split.
Qed.

Lemma checkServerHealth_registry (env : Env) (now : Z) (sessionId : string)
    (guest : bool) (connection : option nat) (w : World) :
  same_registry w (checkServerHealth env now sessionId guest connection w).2.
Proof.
  unfold checkServerHealth, health_try. destruct guest.
  - pose proof (getGuestData_registry now sessionId w) as H.
    destruct (getGuestData now sessionId w) as [d w1]. exact H.
  - destruct connection as [h|]; [|apply same_registry_refl].
    destruct (db_read env OpFindServers h w) as [d|e]; [|apply same_registry_refl].
    pose proof (probe_servers_registry env h (servers d) ∅ w) as (H1 & H2 & H3).
    destruct (probe_servers env h (servers d) ∅ w) as [[[[]|e] st] w1]; simpl in *.
    + match goal with
      | |- context [db_write ?e ?o ?h ?f w1] =>
          pose proof (db_write_registry e o h f w1) as (J1 & J2 & J3);
          destruct (db_write e o h f w1) as [[[]|e2] w2]
      end; simpl in *; repeat split; congruence.
    + repeat split; assumption.
Qed.

Lemma behind_world (gates : list Gate) (handler : Response * Session * World)
    (s : Session) (w : World) :
  (behind gates handler s w).2 = w \/ (behind gates handler s w).2 = handler.2.
Proof.
  induction gates as [|[|r] gates IH]; simpl; auto.
Qed.

Lemma upload_env_acquires (req : Request) (s : Session) (w : World) :
  acquires_at_most (sessionID req) w (upload_env req s w).2.
Proof.
  unfold upload_env. destruct (file req) as [buffer|]; [|now left].
  cbv zeta. destruct (_ || _); [now left|].
  right. eexists.
  destruct (getConnection (sessionID req) _ w) as [[h|e] w1] eqn:H;
    simpl; rewrite H; apply same_registry_refl.
Qed.

Lemma deploy_handler_acquires (env : Env) (now : Z) (req : Request) (s : Session)
    (w : World) :
  acquires_at_most (sessionID req) w (deploy_handler env now req s w).2.
Proof.
  unfold deploy_handler. destruct (negb _); [now left|].
  destruct (strictly true (isGuest s)); [now left|].
  right. exists (session_uri s).
  destruct (getConnection (sessionID req) (session_uri s) w) as [[h|e] w1];
    simpl; [|apply same_registry_refl].
  match goal with
  | |- context [db_write ?e ?o ?h ?f ?w0] =>
      pose proof (db_write_registry e o h f w0) as (J1 & J2 & J3);
      destruct (db_write e o h f w0) as [[[]|e2] w2]
  end; simpl in *; repeat split; assumption.
Qed.

Lemma add_server_handler_acquires (env : Env) (req : Request) (s : Session)
    (w : World) :
  acquires_at_most (sessionID req) w (add_server_handler env req s w).2.
Proof.
  unfold add_server_handler. destruct (strictly true (isGuest s)); [now left|].
  destruct (_ || _); [now left|].
  right. exists (session_uri s).
  destruct (getConnection (sessionID req) (session_uri s) w) as [[h|e] w1];
    simpl; [|apply same_registry_refl].
  destruct (db_read env _ h w1) as [d|e]; [|apply same_registry_refl].
  destruct (existsb _ _); [apply same_registry_refl|].
  match goal with
  | |- context [db_write ?e ?o ?h ?f ?w0] =>
      pose proof (db_write_registry e o h f w0) as (J1 & J2 & J3);
      destruct (db_write e o h f w0) as [[[]|e2] w2]
  end; simpl in *; repeat split; assumption.
Qed.

Lemma delete_server_handler_acquires (env : Env) (req : Request) (s : Session)
    (w : World) :
  acquires_at_most (sessionID req) w (delete_server_handler env req s w).2.
Proof.
  unfold delete_server_handler. destruct (strictly true (isGuest s)); [now left|].
  right. exists (session_uri s).
  destruct (getConnection (sessionID req) (session_uri s) w) as [[h|e] w1];
    simpl; [|apply same_registry_refl].
  destruct (db_read env _ h w1) as [d|e]; [|apply same_registry_refl].
  destruct (existsb _ _); [|apply same_registry_refl].
  match goal with
  | |- context [db_write ?e ?o ?h ?f ?w0] =>
      pose proof (db_write_registry e o h f w0) as (J1 & J2 & J3);
      destruct (db_write e o h f w0) as [[[]|e2] w2]
  end; simpl in *; repeat split; assumption.
Qed.

Lemma logs_delete_handler_acquires (env : Env) (req : Request) (s : Session)
    (w : World) :
  acquires_at_most (sessionID req) w (logs_delete_handler env req s w).2.
Proof.
  unfold logs_delete_handler. destruct (strictly true (isGuest s)); [now left|].
  right. exists (session_uri s).
  destruct (getConnection (sessionID req) (session_uri s) w) as [[h|e] w1];
    simpl; [|apply same_registry_refl].
  match goal with
  | |- context [db_write ?e ?o ?h ?f ?w0] =>
      pose proof (db_write_registry e o h f w0) as (J1 & J2 & J3);
      destruct (db_write e o h f w0) as [[[]|e2] w2]
  end; simpl in *; repeat split; assumption.
Qed.

Lemma behind_acquires (gates : list Gate) (handler : Response * Session * World)
    (sessionId : string) (s : Session) (w : World) :
  acquires_at_most sessionId w handler.2 ->
  acquires_at_most sessionId w (behind gates handler s w).2.
Proof.
  intros H. destruct (behind_world gates handler s w) as [-> | ->];
    [now left | exact H].
Qed.

Section RunInvariant.

Variable Inv : World -> Prop.
Variable good_identity : string -> Prop.

Hypothesis Inv_registry : forall w w', same_registry w w' -> Inv w -> Inv w'.
Hypothesis Inv_getConnection : forall sessionId u w,
  good_identity sessionId -> Inv w -> Inv (getConnection sessionId u w).2.
Hypothesis Inv_release : forall env sessionId w,
  Inv w -> Inv (release env sessionId w).
Hypothesis Inv_sweep : forall w, Inv w -> Inv (sweep w).
Hypothesis Inv_drop : forall h w, Inv w -> Inv (drop_connection h w).

Lemma Inv_acquires (sessionId : string) (w w' : World) :
  good_identity sessionId -> acquires_at_most sessionId w w' -> Inv w -> Inv w'.
Proof.
  intros Hid [-> | [u Hsame]] Hw; [exact Hw|].
  eapply Inv_registry; [exact Hsame|]. now apply Inv_getConnection.
Qed.

Lemma Inv_run (a : Action) (w : World) :
  match acquiring_identity a with
  | Some sessionId => good_identity sessionId
  | None => True
  end ->
  Inv w -> Inv (run a w).
Proof.
  destruct a; simpl; intros Hid Hw.
  - eapply Inv_acquires; [exact Hid | apply upload_env_acquires | exact Hw].
  - unfold guest_mode.
    pose proof (getGuestData_registry now (sessionID req) w) as H.
    destruct (getGuestData now (sessionID req) w) as [d w1].
    eapply Inv_registry; [exact H | exact Hw].
  - apply Inv_release. eapply Inv_registry; [|exact Hw]. repeat split.
  - eapply Inv_acquires; [exact Hid | | exact Hw].
    apply behind_acquires, deploy_handler_acquires.
  - unfold deploy_timer.
    eapply Inv_registry; [apply db_write_registry|].
    eapply Inv_registry; [|exact Hw]. repeat split.
  - eapply Inv_acquires; [exact Hid | | exact Hw].
    apply behind_acquires, add_server_handler_acquires.
  - eapply Inv_acquires; [exact Hid | | exact Hw].
    apply behind_acquires, delete_server_handler_acquires.
  - eapply Inv_acquires; [exact Hid | | exact Hw].
    apply behind_acquires, logs_delete_handler_acquires.
  - unfold webhooks_render. destruct (stringify_fails env); exact Hw.
  - eapply Inv_registry; [apply checkServerHealth_registry | exact Hw].
  - now apply Inv_sweep.
  - now apply Inv_drop.
Qed.

End RunInvariant.

Lemma wf_world_registry (w w' : World) :
  same_registry w w' -> wf_world w -> wf_world w'.
Proof. intros (Hp & _ & Hc). now apply wf_world_same_pool. Qed.

Lemma drop_connection_wf (h : nat) (w : World) :
  wf_world w -> wf_world (drop_connection h w).
Proof. now apply wf_world_same_pool. Qed.

(** X3.  The registry stays well formed along every run of the process
    from its start: whatever requests, timers, health checks, sweeps
    and dropped connections follow one another, every cached handle is
    one that was created, and no connection object is cached under two
    keys. *)
Theorem registry_well_formed_along_runs
    (dbs : gmap string Dataset) (actions : list Action) :
  wf_world (run_all actions (initial_world dbs)).
Proof.
  unfold run_all.
  pose proof (wf_initial dbs) as H. revert H.
  generalize (initial_world dbs).
  induction actions as [|a actions IH]; intros w Hw; simpl; [exact Hw|].
  apply IH.
  assert (Hgc : forall sessionId u w0, True -> wf_world w0 ->
                  wf_world (getConnection sessionId u w0).2).
  { intros sessionId u w0 _ Hw0.
    eapply getConnection_wf; [exact Hw0 | apply surjective_pairing]. }
  apply (Inv_run wf_world (fun _ => True) wf_world_registry Hgc release_wf
           sweep_wf drop_connection_wf a w); [|exact Hw].
  destruct (acquiring_identity a); exact I.
Qed.

(** ** Keys, addresses and the isolation of stores *)

Lemma colon_free_head (c : ascii) (s : string) :
  colon_free (String c s) = true -> c <> ":"%char /\ colon_free s = true.
Proof.
  simpl. intros H. apply andb_true_iff in H as [Hc Hs]. split; [|exact Hs].
  intros ->. discriminate.
Qed.

Lemma append_nil_l (t : string) : EmptyString +:+ t = t.
Proof. reflexivity. Qed.

Lemma append_cons (c : ascii) (s t : string) :
  String c s +:+ t = String c (s +:+ t).
Proof. reflexivity. Qed.

Lemma connectionKey_colon_free_inj (s s' u u' : string) :
  colon_free s = true -> colon_free s' = true ->
  connectionKey s u = connectionKey s' u' -> s = s' /\ u = u'.
Proof.
  unfold connectionKey. revert s'.
  induction s as [|c s IH]; intros [|c' s'] Hs Hs' H;
    repeat first [rewrite append_nil_l in H | rewrite append_cons in H].
  - injection H as ->. auto.
  - injection H as <- _. apply colon_free_head in Hs' as [Hc _]. congruence.
  - injection H as -> _. apply colon_free_head in Hs as [Hc _]. congruence.
  - injection H as -> H.
    apply colon_free_head in Hs as [_ Hs]. apply colon_free_head in Hs' as [_ Hs'].
    destruct (IH s' Hs Hs' H) as [-> ->]. auto.
Qed.

(** X4.  The registry key is unambiguous for colon-free identities: two
    such identities with their addresses give the same key only when
    the identities are equal and the addresses are equal. *)
Theorem connectionKey_unambiguous (s s' u u' : string) :
  colon_free s = true -> colon_free s' = true ->
  connectionKey s u = connectionKey s' u' -> s = s' /\ u = u'.
Proof. apply connectionKey_colon_free_inj. Qed.

(** A sample run of [connectionKey_unambiguous]. *)
Lemma connectionKey_unambiguous_witness :
  "sessA" = "sessA" /\ "mongodb://host:27017/a" = "mongodb://host:27017/a".
Proof.
  apply (connectionKey_unambiguous "sessA" "sessA"
           "mongodb://host:27017/a" "mongodb://host:27017/a");
    reflexivity.
Defined.

(** With a colon in an identity the key is ambiguous. *)
Lemma connectionKey_ambiguous_with_colon :
  connectionKey "a:b" "c" = connectionKey "a" "b:c".
Proof. reflexivity. Qed.

Lemma getConnection_sound (sessionId mongoUri : string) (w : World) :
  colon_free sessionId = true ->
  wf_world w /\ pool_sound w ->
  wf_world (getConnection sessionId mongoUri w).2 /\
  pool_sound (getConnection sessionId mongoUri w).2.
Proof.
  intros Hid [Hwf Hsound].
  split; [eapply getConnection_wf; [exact Hwf | apply surjective_pairing]|].
  destruct Hwf as [Hlt _].
  unfold getConnection.
  destruct (String.eqb sessionId EmptyString || String.eqb mongoUri EmptyString);
    [exact Hsound|].
  cbv zeta. set (key := connectionKey sessionId mongoUri).
  assert (Hstep : forall w0 : World,
    (forall k h, connectionPool w0 !! k = Some h -> (h < created w0)%nat) ->
    pool_sound w0 -> pool_sound (connect_and_cache key mongoUri w0).2).
  { intros w0 Hlt0 Hs0. unfold connect_and_cache, createConnection.
    destruct (databases w0 !! mongoUri); simpl; intros k h; simpl.
    - rewrite lookup_insert. case_decide as Hk.
      + intros [= <-]. exists {| conn_uri := mongoUri; readyState := 1 |}, sessionId.
        rewrite lookup_insert_eq. subst k. auto.
      + intros Hkh. destruct (Hs0 k h Hkh) as (c & s & Hc & Hcf & ->).
        exists c, s. rewrite lookup_insert_ne; [auto|].
        specialize (Hlt0 _ _ Hkh). lia.
    - intros Hkh. destruct (Hs0 k h Hkh) as (c & s & Hc & Hcf & ->).
      exists c, s. rewrite lookup_insert_ne; [auto|].
      specialize (Hlt0 _ _ Hkh). lia. }
  destruct (connectionPool w !! key) as [h0|] eqn:Hpool.
  - destruct (is_live w h0); [exact Hsound|].
    apply Hstep; simpl.
    + intros k h Hk. apply lookup_delete_Some in Hk as [_ Hk]. eauto.
    + intros k h Hk. simpl in Hk. apply lookup_delete_Some in Hk as [_ Hk].
      now apply Hsound.
  - now apply Hstep.
Qed.

(** Closing connections keeps the address every object was opened for. *)
Lemma release_uris (env : Env) (sessionId : string) (w : World) (h : nat) :
  conn_uri <$> connections (release env sessionId w) !! h
  = conn_uri <$> connections w !! h.
Proof.
  unfold release.
  apply (map_fold_weak_ind
    (fun (r : World) (_ : gmap string nat) =>
       conn_uri <$> connections r !! h = conn_uri <$> connections w !! h)).
  - reflexivity.
  - intros key h1 m r _ IH. unfold release_entry.
    destruct (String.prefix sessionId key); [|exact IH].
    destruct (close_fails env h1); [exact IH|]. simpl.
    rewrite lookup_alter. case_decide; [subst h1|exact IH].
    rewrite <- IH. destruct (connections r !! h); reflexivity.
Qed.

Lemma sweep_uris (w : World) (h : nat) :
  conn_uri <$> connections (sweep w) !! h = conn_uri <$> connections w !! h.
Proof.
  unfold sweep.
  apply (map_fold_weak_ind
    (fun (r : World) (_ : gmap string nat) =>
       conn_uri <$> connections r !! h = conn_uri <$> connections w !! h)).
  - reflexivity.
  - intros key h1 m r _ IH. unfold sweep_entry.
    destruct (is_live r h1); [exact IH|]. simpl.
    rewrite lookup_alter. case_decide; [subst h1|exact IH].
    rewrite <- IH. destruct (connections r !! h); reflexivity.
Qed.

Lemma sweep_subset (w : World) (k : string) (h : nat) :
  connectionPool (sweep w) !! k = Some h -> connectionPool w !! k = Some h.
Proof.
  unfold sweep. revert k h.
  apply (map_fold_weak_ind
    (fun (r : World) (_ : gmap string nat) =>
       forall k h, connectionPool r !! k = Some h -> connectionPool w !! k = Some h)).
  - auto.
  - intros key h1 m r _ IH k h. unfold sweep_entry.
    destruct (is_live r h1); [apply IH|]. simpl.
    intros Hk. apply lookup_delete_Some in Hk as [_ Hk]. now apply IH.
Qed.

(** A state that keeps the cached entries and the address of every
    connection object keeps the registry sound. *)
Lemma pool_sound_shrink (w w' : World) :
  (forall k h, connectionPool w' !! k = Some h -> connectionPool w !! k = Some h) ->
  (forall h, conn_uri <$> connections w' !! h = conn_uri <$> connections w !! h) ->
  pool_sound w -> pool_sound w'.
Proof.
  intros Hsub Huri Hs k h Hk.
  destruct (Hs k h (Hsub k h Hk)) as (c & s & Hc & Hcf & ->).
  specialize (Huri h). rewrite Hc in Huri. simpl in Huri.
  destruct (connections w' !! h) as [c'|]; [|discriminate].
  injection Huri as Huri. exists c', s. rewrite Huri. auto.
Qed.

Lemma sound_run (a : Action) (w : World) :
  colon_free_action a ->
  wf_world w /\ pool_sound w -> wf_world (run a w) /\ pool_sound (run a w).
Proof.
  intros Ha.
  apply (Inv_run (fun w => wf_world w /\ pool_sound w)
           (fun s => colon_free s = true)).
  - intros w0 w1 Hsame [Hwf Hs]. split; [eapply wf_world_registry; eassumption|].
    destruct Hsame as (Hp & Hc & _).
    apply (pool_sound_shrink w0); [rewrite Hp; auto | rewrite Hc; auto | exact Hs].
  - intros. now apply getConnection_sound.
  - intros env sessionId w0 [Hwf Hs]. split; [now apply release_wf|].
    apply (pool_sound_shrink w0); [|apply release_uris | exact Hs].
    apply (release_spec env sessionId w0).
  - intros w0 [Hwf Hs]. split; [now apply sweep_wf|].
    apply (pool_sound_shrink w0); [apply sweep_subset | apply sweep_uris | exact Hs].
  - intros h w0 [Hwf Hs]. split; [now apply drop_connection_wf|].
    apply (pool_sound_shrink w0); [auto | | exact Hs].
    intros h0. unfold drop_connection. simpl. rewrite lookup_alter.
    case_decide; [subst|reflexivity]. destruct (connections w0 !! h0); reflexivity.
  - exact Ha.
Qed.

Lemma sound_run_all (actions : list Action) (w : World) :
  Forall colon_free_action actions ->
  wf_world w /\ pool_sound w ->
  wf_world (run_all actions w) /\ pool_sound (run_all actions w).
Proof.
  unfold run_all. intros Hall. revert w.
  induction Hall as [|a actions Ha _ IH]; intros w Hw; simpl; [exact Hw|].
  apply IH. now apply sound_run.
Qed.

Lemma sound_initial (dbs : gmap string Dataset) :
  wf_world (initial_world dbs) /\ pool_sound (initial_world dbs).
Proof.
  split; [apply wf_initial|]. intros k h. simpl. rewrite lookup_empty. discriminate.
Qed.

(** X5.  A session gets a connection to the address it asked for.  In
    any state the process reaches from its start while it acquires
    connections for colon-free identities only, a handle that
    [getConnection] returns for a colon-free identity and an address
    belongs to a connected object that was opened for that address,
    be it freshly made or taken from the registry. *)
Theorem getConnection_returns_requested_address
    (dbs : gmap string Dataset) (actions : list Action)
    (sessionId mongoUri : string) (h : nat) (w' : World) :
  Forall colon_free_action actions ->
  colon_free sessionId = true ->
  getConnection sessionId mongoUri (run_all actions (initial_world dbs)) = (Ok h, w') ->
  exists c, connections w' !! h = Some c /\ conn_uri c = mongoUri /\ readyState c = 1.
Proof.
  intros Hacts Hid Hget.
  pose proof (sound_run_all actions _ Hacts (sound_initial dbs)) as Hsound.
  pose proof (getConnection_sound sessionId mongoUri _ Hid Hsound) as [_ Hs'].
  rewrite Hget in Hs'. simpl in Hs'.
  apply getConnection_Ok in Hget as (_ & _ & Hpool & Hlive & _).
  destruct (Hs' _ _ Hpool) as (c & s & Hc & Hcf & Hkey).
  apply connectionKey_colon_free_inj in Hkey as [_ Huri]; [|assumption..].
  exists c. split; [exact Hc|]. split; [now symmetry|].
  unfold is_live in Hlive. rewrite Hc in Hlive. now apply Z.eqb_eq.
Qed.

(** A sample run of [getConnection_returns_requested_address]: after
    [sample_run] the session [sessA] asks for its store again. *)
Lemma getConnection_returns_requested_address_witness :
  exists c,
    connections
      (getConnection "sessA" "db://x"
         (run_all sample_run (initial_world two_stores))).2 !! 1%nat
    = Some c /\ conn_uri c = "db://x" /\ readyState c = 1.
Proof.
  apply (getConnection_returns_requested_address two_stores sample_run
           "sessA" "db://x" 1).
  - repeat constructor.
  - reflexivity.
  - vm_compute. reflexivity.
Defined.

Lemma getConnection_frame (sessionId mongoUri : string) (w : World) :
  guestStorage (getConnection sessionId mongoUri w).2 = guestStorage w /\
  databases (getConnection sessionId mongoUri w).2 = databases w /\
  PIPELINE_STATUS (getConnection sessionId mongoUri w).2 = PIPELINE_STATUS w.
Proof.
  unfold getConnection.
  destruct (String.eqb sessionId EmptyString || String.eqb mongoUri EmptyString);
    [auto|].
  cbv zeta. unfold connect_and_cache, createConnection.
  destruct (connectionPool w !! _) as [h0|].
  - destruct (is_live w h0); [auto|]. simpl.
    destruct (databases w !! mongoUri); simpl; auto.
  - destruct (databases w !! mongoUri); simpl; auto.
Qed.

Lemma db_write_guestStorage (env : Env) (op : DbOp) (h : nat)
    (f : Dataset -> Dataset) (w : World) :
  guestStorage (db_write env op h f w).2 = guestStorage w.
Proof.
  unfold db_write. destruct (db_fails env op); [reflexivity|].
  destruct (store_of w h) as [[uri d]|]; reflexivity.
Qed.

(** A write through a handle changes the store of the address the
    connection object was opened for, and no other store. *)
Lemma db_write_frame (env : Env) (op : DbOp) (h : nat) (f : Dataset -> Dataset)
    (w : World) (c : Connection) (uri : string) :
  connections w !! h = Some c -> uri <> conn_uri c ->
  databases (db_write env op h f w).2 !! uri = databases w !! uri.
Proof.
  intros Hc Huri. unfold db_write, store_of. rewrite Hc.
  destruct (db_fails env op); [auto|].
  destruct (databases w !! conn_uri c); simpl; [|auto].
  apply lookup_insert_ne. congruence.
Qed.

Lemma only_store_changed_refl (u : string) (w : World) : only_store_changed u w w.
Proof. split; auto. Qed.

Lemma acquire_store (sessionId u : string) (r : Result nat) (w w1 : World) :
  getConnection sessionId u w = (r, w1) -> only_store_changed u w w1.
Proof.
  intros Hget. pose proof (getConnection_frame sessionId u w) as (Hg & Hd & _).
  rewrite Hget in Hg, Hd. simpl in *. split; [intros; now rewrite Hd | exact Hg].
Qed.

(** In a sound registry, a write that follows a successful acquire for
    [sessionId] and [u] lands in the store of [u]. *)
Lemma acquire_then_write (env : Env) (op : DbOp) (f : Dataset -> Dataset)
    (sessionId u : string) (w w1 : World) (h : nat) :
  colon_free sessionId = true -> wf_world w /\ pool_sound w ->
  getConnection sessionId u w = (Ok h, w1) ->
  only_store_changed u w (db_write env op h f w1).2 /\
  only_store_changed u w w1.
Proof.
  intros Hid Hsound Hget.
  pose proof (getConnection_sound sessionId u w Hid Hsound) as [_ Hs1].
  pose proof (getConnection_frame sessionId u w) as (Hg & Hd & _).
  rewrite Hget in Hs1, Hg, Hd. simpl in *.
  apply getConnection_Ok in Hget as (_ & _ & Hpool & _).
  destruct (Hs1 _ _ Hpool) as (c & s & Hc & Hcf & Hkey).
  apply connectionKey_colon_free_inj in Hkey as [_ Huri]; [|assumption..].
  split; [|split; [intros; now rewrite Hd | exact Hg]].
  split.
  - intros uri Hne.
    rewrite (db_write_frame env op h f w1 c uri Hc) by congruence.
    now rewrite Hd.
  - now rewrite db_write_guestStorage.
Qed.

Ltac write_step Hid Hsound Hget :=
  match goal with
  | |- context [db_write ?e ?o ?h ?f ?w0] =>
      let H := fresh "Hwrite" in
      pose proof (proj1 (acquire_then_write e o f _ _ _ _ _ Hid Hsound Hget)) as H;
      destruct (db_write e o h f w0) as [[[]|?] ?]; simpl in *; exact H
  end.

Lemma deploy_handler_store (env : Env) (now : Z) (req : Request) (s : Session)
    (w : World) :
  colon_free (sessionID req) = true -> wf_world w /\ pool_sound w ->
  only_store_changed (session_uri s) w (deploy_handler env now req s w).2.
Proof.
  intros Hid Hsound. unfold deploy_handler.
  destruct (negb _); [apply only_store_changed_refl|].
  destruct (strictly true (isGuest s)); [apply only_store_changed_refl|].
  destruct (getConnection (sessionID req) (session_uri s) w) as [[h|e] w1] eqn:Hget.
  - pose proof (acquire_then_write env OpSaveDeployment
                  (with_deployments
                     (fun l => l ++ [{| version := default EmptyString (body_version req);
                                        d_status := "in_progress"; d_timestamp := now;
                                        provider := "manual"; project := EmptyString;
                                        environment := EmptyString |}])%list)
                  _ _ _ _ _ Hid Hsound Hget) as [_ H1].
    pose proof (getConnection_sound (sessionID req) (session_uri s) w Hid Hsound)
      as Hs1.
    rewrite Hget in Hs1. simpl in Hs1.
    destruct Hs1 as [_ Hs1].
    apply getConnection_Ok in Hget as (_ & _ & Hpool & _).
    destruct (Hs1 _ _ Hpool) as (c & s0 & Hc & Hcf & Hkey).
    apply connectionKey_colon_free_inj in Hkey as [_ Huri]; [|assumption..].
    match goal with
    | |- context [db_write ?e ?o ?h ?f ?w0] =>
        pose proof (db_write_frame e o h f w0 c) as Hframe;
        pose proof (db_write_guestStorage e o h f w0) as Hguest;
        destruct (db_write e o h f w0) as [[[]|?] w3]
    end; simpl in *;
      (split; [intros uri Hne; rewrite Hframe by (simpl; congruence); simpl;
               now apply H1
              | rewrite Hguest; simpl; apply H1]).
  - simpl. pose proof (getConnection_frame (sessionID req) (session_uri s) w)
      as (Hg & Hd & _).
    rewrite Hget in Hg, Hd. simpl in *. split; [intros; now rewrite Hd | exact Hg].
Qed.

Lemma add_server_handler_store (env : Env) (req : Request) (s : Session) (w : World) :
  colon_free (sessionID req) = true -> wf_world w /\ pool_sound w ->
  only_store_changed (session_uri s) w (add_server_handler env req s w).2.
Proof.
  intros Hid Hsound. unfold add_server_handler.
  destruct (strictly true (isGuest s)); [apply only_store_changed_refl|].
  destruct (_ || _); [apply only_store_changed_refl|].
  destruct (getConnection (sessionID req) (session_uri s) w) as [[h|e] w1] eqn:Hget;
    [|eapply acquire_store; exact Hget].
  pose proof (acquire_store _ _ _ _ _ Hget) as Hw1.
  destruct (db_read env _ h w1) as [d|e]; [|exact Hw1].
  destruct (existsb _ _); [exact Hw1|].
  write_step Hid Hsound Hget.
Qed.

Lemma delete_server_handler_store (env : Env) (req : Request) (s : Session)
    (w : World) :
  colon_free (sessionID req) = true -> wf_world w /\ pool_sound w ->
  only_store_changed (session_uri s) w (delete_server_handler env req s w).2.
Proof.
  intros Hid Hsound. unfold delete_server_handler.
  destruct (strictly true (isGuest s)); [apply only_store_changed_refl|].
  destruct (getConnection (sessionID req) (session_uri s) w) as [[h|e] w1] eqn:Hget;
    [|eapply acquire_store; exact Hget].
  pose proof (acquire_store _ _ _ _ _ Hget) as Hw1.
  destruct (db_read env _ h w1) as [d|e]; [|exact Hw1].
  destruct (existsb _ _); [|exact Hw1].
  write_step Hid Hsound Hget.
Qed.

Lemma logs_delete_handler_store (env : Env) (req : Request) (s : Session)
    (w : World) :
  colon_free (sessionID req) = true -> wf_world w /\ pool_sound w ->
  only_store_changed (session_uri s) w (logs_delete_handler env req s w).2.
Proof.
  intros Hid Hsound. unfold logs_delete_handler.
  destruct (strictly true (isGuest s)); [apply only_store_changed_refl|].
  destruct (getConnection (sessionID req) (session_uri s) w) as [[h|e] w1] eqn:Hget;
    [|eapply acquire_store; exact Hget].
  write_step Hid Hsound Hget.
Qed.

Lemma behind_store (gates : list Gate) (handler : Response * Session * World)
    (u : string) (s : Session) (w : World) :
  only_store_changed u w handler.2 ->
  only_store_changed u w (behind gates handler s w).2.
Proof.
  intros H. destruct (behind_world gates handler s w) as [-> | ->];
    [apply only_store_changed_refl | exact H].
Qed.

(** X6.  A tenant's writes stay in the tenant's own store.  In any state
    the process reaches from its start while it acquires connections
    for colon-free identities only, a request of a colon-free identity
    to trigger a deployment, add a server, remove a server or clear the
    logs leaves the store of every address other than the one in the
    session's bundle, and every guest dataset, exactly as it was,
    whatever the request carries and whatever fails. *)
Theorem tenant_writes_stay_in_own_store
    (dbs : gmap string Dataset) (actions : list Action)
    (env : Env) (now : Z) (req : Request) (s : Session) (uri : string) :
  Forall colon_free_action actions ->
  colon_free (sessionID req) = true ->
  uri <> session_uri s ->
  (databases (post_deploy env now req s (run_all actions (initial_world dbs))).2 !! uri
   = databases (run_all actions (initial_world dbs)) !! uri /\
   databases (post_servers env req s (run_all actions (initial_world dbs))).2 !! uri
   = databases (run_all actions (initial_world dbs)) !! uri /\
   databases (delete_servers env req s (run_all actions (initial_world dbs))).2 !! uri
   = databases (run_all actions (initial_world dbs)) !! uri /\
   databases (post_logs_delete env req s (run_all actions (initial_world dbs))).2 !! uri
   = databases (run_all actions (initial_world dbs)) !! uri) /\
  (guestStorage (post_deploy env now req s (run_all actions (initial_world dbs))).2
   = guestStorage (run_all actions (initial_world dbs)) /\
   guestStorage (post_servers env req s (run_all actions (initial_world dbs))).2
   = guestStorage (run_all actions (initial_world dbs)) /\
   guestStorage (delete_servers env req s (run_all actions (initial_world dbs))).2
   = guestStorage (run_all actions (initial_world dbs)) /\
   guestStorage (post_logs_delete env req s (run_all actions (initial_world dbs))).2
   = guestStorage (run_all actions (initial_world dbs))).
Proof.
  intros Hacts Hid Huri.
  pose proof (sound_run_all actions _ Hacts (sound_initial dbs)) as Hsound.
  set (w := run_all actions (initial_world dbs)) in *.
  pose proof (behind_store [requireAuth s; authenticate req s] _ _ s w
                (deploy_handler_store env now req s w Hid Hsound)) as [D1 D2].
  pose proof (behind_store [requireAuth s; authenticate req s] _ _ s w
                (add_server_handler_store env req s w Hid Hsound)) as [A1 A2].
  pose proof (behind_store [requireAuth s] _ _ s w
                (delete_server_handler_store env req s w Hid Hsound)) as [R1 R2].
  pose proof (behind_store [requireAuth s; authenticate req s] _ _ s w
                (logs_delete_handler_store env req s w Hid Hsound)) as [L1 L2].
  unfold post_deploy, post_servers, delete_servers, post_logs_delete.
  repeat split; auto.
Qed.

(** A sample run of [tenant_writes_stay_in_own_store]: the store at
    another address while [sessA] writes. *)
Lemma tenant_writes_stay_in_own_store_witness :
  (databases (post_deploy quiet_env 0 tenant_request tenant_session
                (run_all sample_run (initial_world two_stores))).2
     !! "db://other"
   = databases (run_all sample_run (initial_world two_stores))
       !! "db://other" /\
   databases (post_servers quiet_env tenant_request tenant_session
                (run_all sample_run (initial_world two_stores))).2
     !! "db://other"
   = databases (run_all sample_run (initial_world two_stores))
       !! "db://other" /\
   databases (delete_servers quiet_env tenant_request tenant_session
                (run_all sample_run (initial_world two_stores))).2
     !! "db://other"
   = databases (run_all sample_run (initial_world two_stores))
       !! "db://other" /\
   databases (post_logs_delete quiet_env tenant_request tenant_session
                (run_all sample_run (initial_world two_stores))).2
     !! "db://other"
   = databases (run_all sample_run (initial_world two_stores))
       !! "db://other") /\
  (guestStorage (post_deploy quiet_env 0 tenant_request tenant_session
                   (run_all sample_run (initial_world two_stores))).2
   = guestStorage (run_all sample_run (initial_world two_stores)) /\
   guestStorage (post_servers quiet_env tenant_request tenant_session
                   (run_all sample_run (initial_world two_stores))).2
   = guestStorage (run_all sample_run (initial_world two_stores)) /\
   guestStorage (delete_servers quiet_env tenant_request tenant_session
                   (run_all sample_run (initial_world two_stores))).2
   = guestStorage (run_all sample_run (initial_world two_stores)) /\
   guestStorage (post_logs_delete quiet_env tenant_request tenant_session
                   (run_all sample_run (initial_world two_stores))).2
   = guestStorage (run_all sample_run (initial_world two_stores))).
Proof.
  apply (tenant_writes_stay_in_own_store two_stores sample_run
           quiet_env 0 tenant_request tenant_session "db://other").
  - repeat constructor.
  - reflexivity.
  - discriminate.
Defined.

(** ** The sweep and the logout, exactly *)

Lemma sweep_exact (w : World) :
  (forall h, is_live (sweep w) h = is_live w h) /\
  (forall k h, connectionPool (sweep w) !! k = Some h <->
               connectionPool w !! k = Some h /\ is_live w h = true) /\
  created (sweep w) = created w /\ guestStorage (sweep w) = guestStorage w /\
  databases (sweep w) = databases w /\ PIPELINE_STATUS (sweep w) = PIPELINE_STATUS w.
Proof.
  unfold sweep. set (pool := connectionPool w).
  enough (G : pool ⊆ pool ->
    (forall h, is_live (map_fold sweep_entry w pool) h = is_live w h) /\
    (forall k h, connectionPool (map_fold sweep_entry w pool) !! k = Some h <->
                 pool !! k = Some h /\ (pool !! k = None \/ is_live w h = true)) /\
    created (map_fold sweep_entry w pool) = created w /\
    guestStorage (map_fold sweep_entry w pool) = guestStorage w /\
    databases (map_fold sweep_entry w pool) = databases w /\
    PIPELINE_STATUS (map_fold sweep_entry w pool) = PIPELINE_STATUS w).
  { destruct (G (reflexivity _)) as (G1 & G2 & G3).
    split; [exact G1|]. split; [|exact G3].
    intros k h. rewrite G2. split.
    - intros [Hk [Hn | Hl]]; [congruence | auto].
    - intros [Hk Hl]. auto. }
  apply (map_fold_weak_ind
    (fun (r : World) (m : gmap string nat) =>
       m ⊆ pool ->
       (forall h, is_live r h = is_live w h) /\
       (forall k h, connectionPool r !! k = Some h <->
                    pool !! k = Some h /\ (m !! k = None \/ is_live w h = true)) /\
       created r = created w /\ guestStorage r = guestStorage w /\
       databases r = databases w /\ PIPELINE_STATUS r = PIPELINE_STATUS w)).
  - intros _. split; [reflexivity|]. split; [|auto].
    intros k h. rewrite lookup_empty. tauto.
  - intros key h1 m r Hfresh IH Hsub.
    assert (Hkey : pool !! key = Some h1).
    { eapply lookup_weaken; [apply lookup_insert_eq | exact Hsub]. }
    assert (Hm : m ⊆ pool).
    { etrans; [apply insert_subseteq; exact Hfresh | exact Hsub]. }
    destruct (IH Hm) as (Ilive & Ipool & Irest).
    unfold sweep_entry. rewrite (Ilive h1).
    destruct (is_live w h1) eqn:Hl1.
    + split; [exact Ilive|]. split; [|exact Irest].
      intros k h. rewrite Ipool, lookup_insert. case_decide as Hk.
      * subst k. rewrite Hfresh, Hkey. split.
        -- intros [[= <-] _]. auto.
        -- intros [[= <-] _]. auto.
      * reflexivity.
    + simpl. split; [|split; [|exact Irest]].
      * intros h. destruct (decide (h = h1)) as [->|Hh].
        -- rewrite Hl1. unfold is_live. simpl. rewrite lookup_alter.
           case_decide; [|congruence].
           destruct (connections r !! h1); reflexivity.
        -- rewrite <- Ilive. unfold is_live. simpl.
           rewrite lookup_alter_ne by congruence. reflexivity.
      * intros k h. rewrite lookup_insert. case_decide as Hk.
        -- subst k. rewrite lookup_delete_eq, Hkey. split; [discriminate|].
           intros [[= <-] [Hn | Hl]]; congruence.
        -- rewrite lookup_delete_ne by exact Hk. apply Ipool.
Qed.

(** X7.  The sweep removes exactly the dead entries.  After it, an
    entry is cached precisely when it was cached before and its
    connection passed the liveness check; no connection changes its
    liveness, and the creation count, the guest datasets, the backing
    stores and the pipeline status are untouched. *)
Theorem sweep_removes_exactly_dead_entries (w : World) :
  (forall k h, connectionPool (sweep w) !! k = Some h <->
               connectionPool w !! k = Some h /\ is_live w h = true) /\
  (forall h, is_live (sweep w) h = is_live w h) /\
  created (sweep w) = created w /\ guestStorage (sweep w) = guestStorage w /\
  databases (sweep w) = databases w /\ PIPELINE_STATUS (sweep w) = PIPELINE_STATUS w.
Proof.
  destruct (sweep_exact w) as (H1 & H2 & H3). auto.
Qed.

Lemma release_exact (env : Env) (sessionId : string) (w : World) (k : string) (h : nat) :
  connectionPool (release env sessionId w) !! k = Some h <->
  connectionPool w !! k = Some h /\
  (String.prefix sessionId k = false \/ close_fails env h = true).
Proof.
  unfold release. set (pool := connectionPool w).
  enough (G : pool ⊆ pool ->
    forall k h, connectionPool (map_fold (release_entry env sessionId) w pool) !! k
                = Some h <->
                pool !! k = Some h /\
                (pool !! k = None \/ String.prefix sessionId k = false \/
                 close_fails env h = true)).
  { rewrite (G (reflexivity _)). split.
    - intros [Hk [Hn | Hc]]; [congruence | auto].
    - intros [Hk Hc]. auto. }
  apply (map_fold_weak_ind
    (fun (r : World) (m : gmap string nat) =>
       m ⊆ pool ->
       forall k h, connectionPool r !! k = Some h <->
                   pool !! k = Some h /\
                   (m !! k = None \/ String.prefix sessionId k = false \/
                    close_fails env h = true))).
  - intros _ k0 h0. rewrite lookup_empty. tauto.
  - intros key h1 m r Hfresh IH Hsub k0 h0.
    assert (Hkey : pool !! key = Some h1).
    { eapply lookup_weaken; [apply lookup_insert_eq | exact Hsub]. }
    assert (Hm : m ⊆ pool).
    { etrans; [apply insert_subseteq; exact Hfresh | exact Hsub]. }
    specialize (IH Hm). unfold release_entry.
    rewrite lookup_insert. case_decide as Hk.
    + subst k0. rewrite Hkey.
      destruct (String.prefix sessionId key) eqn:Hpre.
      * destruct (close_fails env h1) eqn:Hclose.
        -- rewrite IH, Hfresh, Hkey. split.
           ++ intros [[= <-] _]. auto.
           ++ intros [[= <-] _]. auto.
        -- simpl. rewrite lookup_delete_eq. split; [discriminate|].
           intros [[= <-] [Hn | [Hp | Hc]]]; congruence.
      * rewrite IH, Hfresh, Hkey. split.
        -- intros [[= <-] _]. auto.
        -- intros [[= <-] _]. auto.
    + destruct (String.prefix sessionId key); [|apply IH].
      destruct (close_fails env h1); [apply IH|].
      simpl. rewrite lookup_delete_ne by exact Hk. apply IH.
Qed.

(** The connection objects after the loop: an object one of whose
    selected entries could be closed is disconnected, every other
    object is as it was. *)
Lemma release_connections (env : Env) (sessionId : string) (w : World) :
  (forall k h, connectionPool w !! k = Some h ->
     String.prefix sessionId k = true -> close_fails env h = false ->
     connections (release env sessionId w) !! h
     = disconnect <$> connections w !! h) /\
  (forall h, (forall k, connectionPool w !! k = Some h ->
                String.prefix sessionId k = false \/ close_fails env h = true) ->
     connections (release env sessionId w) !! h = connections w !! h).
Proof.
  unfold release. set (pool := connectionPool w).
  enough (G : pool ⊆ pool ->
    (forall k h, pool !! k = Some h ->
       String.prefix sessionId k = true -> close_fails env h = false ->
       connections (map_fold (release_entry env sessionId) w pool) !! h
       = disconnect <$> connections w !! h) /\
    (forall h, (forall k, pool !! k = Some h ->
                  String.prefix sessionId k = false \/ close_fails env h = true) ->
       connections (map_fold (release_entry env sessionId) w pool) !! h
       = connections w !! h) /\
    (forall h, connections (map_fold (release_entry env sessionId) w pool) !! h
               = connections w !! h \/
               connections (map_fold (release_entry env sessionId) w pool) !! h
               = disconnect <$> connections w !! h)).
  { destruct (G (reflexivity _)) as (G1 & G2 & _). auto. }
  apply (map_fold_weak_ind
    (fun (r : World) (m : gmap string nat) =>
       m ⊆ pool ->
       (forall k h, m !! k = Some h ->
          String.prefix sessionId k = true -> close_fails env h = false ->
          connections r !! h = disconnect <$> connections w !! h) /\
       (forall h, (forall k, m !! k = Some h ->
                     String.prefix sessionId k = false \/ close_fails env h = true) ->
          connections r !! h = connections w !! h) /\
       (forall h, connections r !! h = connections w !! h \/
                  connections r !! h = disconnect <$> connections w !! h))).
  - intros _. split; [|split].
    + intros k h. rewrite lookup_empty. discriminate.
    + reflexivity.
    + intros h. now left.
  - intros key h1 m r Hfresh IH Hsub.
    assert (Hm : m ⊆ pool).
    { etrans; [apply insert_subseteq; exact Hfresh | exact Hsub]. }
    destruct (IH Hm) as (I1 & I2 & I3). clear IH.
    assert (Hdd : forall h, disconnect <$> (disconnect <$> connections w !! h)
                            = disconnect <$> connections w !! h).
    { intros h. destruct (connections w !! h); reflexivity. }
    unfold release_entry.
    destruct (String.prefix sessionId key) eqn:Hpre;
      [destruct (close_fails env h1) eqn:Hclose|].
    + (* the close failed *)
      split; [|split; [|exact I3]].
      * intros k h. rewrite lookup_insert. case_decide as Hk.
        -- intros [= <-] _ Hc. congruence.
        -- apply I1.
      * intros h Hall. apply I2. intros k Hk. apply (Hall k).
        rewrite lookup_insert_ne; [exact Hk|]. intros <-. congruence.
    + (* closed and removed *)
      simpl.
      assert (Hnew : alter disconnect h1 (connections r) !! h1
                     = disconnect <$> connections w !! h1).
      { rewrite lookup_alter_eq.
        destruct (I3 h1) as [-> | ->]; [reflexivity | apply Hdd]. }
      split; [|split].
      * intros k h. rewrite lookup_insert. case_decide as Hk.
        -- intros [= <-] _ _. exact Hnew.
        -- intros Hk' Hp Hc. destruct (decide (h = h1)) as [-> | Hne];
             [exact Hnew|].
           rewrite lookup_alter_ne by congruence. now apply (I1 k).
      * intros h Hall.
        assert (Hne : h <> h1).
        { intros ->. destruct (Hall key) as [H | H];
            [apply lookup_insert_eq | congruence | congruence]. }
        rewrite lookup_alter_ne by congruence. apply I2.
        intros k Hk. apply (Hall k).
        rewrite lookup_insert_ne; [exact Hk|]. intros <-. congruence.
      * intros h. destruct (decide (h = h1)) as [-> | Hne];
          [right; exact Hnew|].
        rewrite lookup_alter_ne by congruence. apply I3.
    + (* not selected *)
      split; [|split; [|exact I3]].
      * intros k h. rewrite lookup_insert. case_decide as Hk.
        -- intros [= <-] Hp _. congruence.
        -- apply I1.
      * intros h Hall. apply I2. intros k Hk. apply (Hall k).
        rewrite lookup_insert_ne; [exact Hk|]. intros <-. congruence.
Qed.

Lemma logout_frame (env : Env) (req : Request) (s : Session) (w : World) :
  guestStorage (logout env req s w).2 = delete (sessionID req) (guestStorage w) /\
  databases (logout env req s w).2 = databases w /\
  created (logout env req s w).2 = created w.
Proof.
  unfold logout. simpl.
  destruct (release_spec env (sessionID req)
              (set_guestStorage (delete (sessionID req) (guestStorage w)) w))
    as (_ & _ & _ & -> & -> & -> & _).
  auto.
Qed.

(** X8.  The logout closes and removes exactly the entries whose key
    starts with the identity of the request and whose connection could
    be closed.  After it, an entry is cached precisely when it was
    cached before and its key does not start with the identity or its
    close failed; the connection object of every entry that was
    selected and could be closed is disconnected and fails the
    liveness check, and every other connection object is as it was;
    the guest dataset of the identity is discarded and those of the
    other identities are kept; the session is destroyed and the browser
    is sent to the landing page. *)
Theorem logout_removes_exactly_closed_entries
    (env : Env) (req : Request) (s : Session) (w : World) :
  (forall k h,
     connectionPool (logout env req s w).2 !! k = Some h <->
     connectionPool w !! k = Some h /\
     (String.prefix (sessionID req) k = false \/ close_fails env h = true)) /\
  (forall k h,
     connectionPool w !! k = Some h ->
     String.prefix (sessionID req) k = true -> close_fails env h = false ->
     connections (logout env req s w).2 !! h = disconnect <$> connections w !! h /\
     is_live (logout env req s w).2 h = false) /\
  (forall h,
     (forall k, connectionPool w !! k = Some h ->
        String.prefix (sessionID req) k = false \/ close_fails env h = true) ->
     connections (logout env req s w).2 !! h = connections w !! h) /\
  guestStorage (logout env req s w).2 = delete (sessionID req) (guestStorage w) /\
  databases (logout env req s w).2 = databases w /\
  (logout env req s w).1 = (Redirect "/", empty_session).
Proof.
  destruct (logout_frame env req s w) as (Hg & Hd & _).
  destruct (release_connections env (sessionID req)
              (set_guestStorage (delete (sessionID req) (guestStorage w)) w))
    as (Hclosed & Hkept).
  split; [|split; [|split; [|auto]]].
  - intros k h. unfold logout. simpl. rewrite release_exact. reflexivity.
  - intros k h Hk Hp Hc. unfold logout. simpl.
    assert (E := Hclosed k h Hk Hp Hc). simpl in E.
    split; [exact E|]. unfold is_live. rewrite E.
    destruct (connections w !! h); reflexivity.
  - intros h Hall. unfold logout. simpl. apply (Hkept h Hall).
Qed.

(** The loop changes nothing when no entry is both selected and
    closable. *)
Lemma release_noop (env : Env) (sessionId : string) (w : World) :
  (forall k h, connectionPool w !! k = Some h ->
               String.prefix sessionId k = false \/ close_fails env h = true) ->
  release env sessionId w = w.
Proof.
  intros Hall. unfold release. set (pool := connectionPool w) in *.
  enough (G : pool ⊆ pool -> map_fold (release_entry env sessionId) w pool = w).
  { apply G. reflexivity. }
  apply (map_fold_weak_ind
    (fun (r : World) (m : gmap string nat) => m ⊆ pool -> r = w)).
  - reflexivity.
  - intros key h1 m r Hfresh IH Hsub.
    assert (Hkey : pool !! key = Some h1).
    { eapply lookup_weaken; [apply lookup_insert_eq | exact Hsub]. }
    assert (Hm : m ⊆ pool).
    { etrans; [apply insert_subseteq; exact Hfresh | exact Hsub]. }
    rewrite (IH Hm). unfold release_entry.
    destruct (Hall key h1 Hkey) as [-> | ->]; [reflexivity|].
    destruct (String.prefix sessionId key); reflexivity.
Qed.

(** X9.  Logging out is idempotent: a second logout of the same
    identity, in the same outside world, answers as the first did and
    leaves the process state exactly as the first left it. *)
Theorem logout_twice_is_logout_once
    (env : Env) (req : Request) (s s' : Session) (w : World) :
  logout env req s' (logout env req s w).2 = logout env req s w.
Proof.
  unfold logout at 1. cbv zeta.
  set (w1 := (logout env req s w).2).
  assert (Hg : guestStorage w1 = delete (sessionID req) (guestStorage w)).
  { apply (logout_frame env req s w). }
  assert (Hw1 : set_guestStorage (delete (sessionID req) (guestStorage w1)) w1 = w1).
  { rewrite Hg, delete_delete_eq, <- Hg. apply set_guestStorage_same. }
  rewrite Hw1.
  rewrite release_noop.
  - reflexivity.
  - intros k h Hk. unfold w1, logout in Hk. simpl in Hk.
    apply release_exact in Hk as [_ Hk]. exact Hk.
Qed.

(** X10.  After a logout whose closes all succeeded, the next lookup of
    the identity takes the path that creates a fresh connection: for
    any reachable address [getConnection] makes a new connection object
    and returns its handle, never one cached before the logout. *)
Theorem lookup_after_logout_creates_fresh
    (env : Env) (req : Request) (s : Session) (w : World)
    (mongoUri : string) (d : Dataset) :
  (forall h, close_fails env h = false) ->
  sessionID req <> EmptyString -> mongoUri <> EmptyString ->
  databases w !! mongoUri = Some d ->
  exists w',
    getConnection (sessionID req) mongoUri (logout env req s w).2
      = (Ok (created w), w') /\
    created w' = S (created w) /\
    is_live w' (created w) = true.
Proof.
  intros Hclose Hs Hu Hdb.
  destruct (logout_frame env req s w) as (_ & Hd & Hc).
  assert (Hnone : connectionPool (logout env req s w).2
                    !! connectionKey (sessionID req) mongoUri = None).
  { destruct (connectionPool (logout env req s w).2
                !! connectionKey (sessionID req) mongoUri) as [h|] eqn:E; [|reflexivity].
    unfold logout in E. simpl in E. apply release_exact in E as [_ [E | E]].
    - unfold connectionKey in E. rewrite prefix_append in E. discriminate.
    - rewrite Hclose in E. discriminate. }
  unfold getConnection. rewrite (required_args _ _ Hs Hu). cbv zeta.
  rewrite Hnone. unfold connect_and_cache, createConnection.
  rewrite Hd, Hdb, Hc. eexists. split; [reflexivity|]. simpl.
  split; [reflexivity|]. unfold is_live. simpl. rewrite lookup_insert_eq. reflexivity.
Qed.

(** A sample run of [lookup_after_logout_creates_fresh]: [sessA] logs
    out and comes back. *)
Lemma lookup_after_logout_creates_fresh_witness :
  exists w',
    getConnection (sessionID (bare_request "sessA")) "db://x"
      (logout quiet_env (bare_request "sessA") tenant_session world_one_session).2
      = (Ok (created world_one_session), w') /\
    created w' = S (created world_one_session) /\
    is_live w' (created world_one_session) = true.
Proof.
  apply (lookup_after_logout_creates_fresh quiet_env (bare_request "sessA")
           tenant_session world_one_session "db://x" empty_dataset).
  - reflexivity.
  - discriminate.
  - discriminate.
  - vm_compute. reflexivity.
Defined.

(** ** The guest dataset store *)

(** X11.  A guest dataset is materialised once.  The first call of
    [getGuestData] for an identity stores the dataset it returns; a
    later call, at whatever time, returns that same dataset and changes
    nothing; the datasets of the other identities, the registry and the
    backing stores are never touched. *)
Theorem getGuestData_materialises_once (now now' : Z) (sessionId : string) (w : World) :
  getGuestData now' sessionId (getGuestData now sessionId w).2
    = getGuestData now sessionId w /\
  guestStorage (getGuestData now sessionId w).2 !! sessionId
    = Some (getGuestData now sessionId w).1 /\
  (forall other, other <> sessionId ->
     guestStorage (getGuestData now sessionId w).2 !! other = guestStorage w !! other) /\
  same_registry w (getGuestData now sessionId w).2 /\
  databases (getGuestData now sessionId w).2 = databases w.
Proof.
  unfold getGuestData.
  destruct (guestStorage w !! sessionId) as [d|] eqn:Hd; simpl.
  - rewrite Hd. repeat split; auto.
  - rewrite lookup_insert_eq. repeat split; auto.
    intros other Hne. now apply lookup_insert_ne.
Qed.

Lemma foldl_guest_health (targets : list Server) (st : gmap string Health)
    (t : Server) :
  NoDup (map name targets) -> In t targets ->
  foldl (fun st server => <[name server := guest_health server]> st) st targets
    !! name t = Some (guest_health t).
Proof.
  revert st. induction targets as [|x targets IH]; intros st Hnd Hin; [destruct Hin|].
  change (map name (x :: targets)) with (name x :: map name targets) in Hnd.
  apply NoDup_cons in Hnd as [Hx Hnd]. rewrite list_elem_of_In in Hx.
  simpl. destruct Hin as [<- | Hin]; [|now apply IH].
  clear IH. revert st. induction targets as [|y targets IH]; intros st; simpl.
  - apply lookup_insert_eq.
  - change (map name (y :: targets)) with (name y :: map name targets) in *.
    apply NoDup_cons in Hnd as [_ Hnd].
    rewrite insert_insert_ne.
    + apply IH; [|exact Hnd]. intros Hin. apply Hx. now right.
    + intros Heq. apply Hx. left. congruence.
Qed.

(** X12.  The health check of a guest is static.  Its answer does not
    depend on the outside world or on the connection passed: no target
    is probed, no store is read or written.  The state after it is the
    state after [getGuestData], and every target of the guest dataset
    (whose names are distinct) is shown with its stored status, with
    the reason [OK 200] exactly when that status is [Up]. *)
Theorem guest_health_check_is_static
    (env env' : Env) (now : Z) (sessionId : string)
    (connection connection' : option nat) (w : World) :
  checkServerHealth env now sessionId true connection w
    = checkServerHealth env' now sessionId true connection' w /\
  (checkServerHealth env now sessionId true connection w).2
    = (getGuestData now sessionId w).2 /\
  (NoDup (map name (servers (getGuestData now sessionId w).1)) ->
   forall t, In t (servers (getGuestData now sessionId w).1) ->
   exists st,
     (checkServerHealth env now sessionId true connection w).1 = Ok st /\
     st !! name t
     = Some {| h_status := status t;
               h_reason := if String.eqb (status t) "Up" then "OK 200"
                           else "Connection failed" |}).
Proof.
  unfold checkServerHealth, health_try.
  destruct (getGuestData now sessionId w) as [d w1]. simpl.
  repeat split. intros Hnd t Hin. eexists. split; [reflexivity|].
  now apply foldl_guest_health.
Qed.

(** What the routes do to the guest datasets. *)
Ltac guest_frame :=
  repeat match goal with
  | |- context [getConnection ?s ?u ?w] =>
      let H := fresh "Hframe" in
      pose proof (getConnection_frame s u w) as (H & _ & _);
      destruct (getConnection s u w) as [[?|?] ?]; simpl in *
  | |- context [db_write ?e ?o ?h ?f ?w] =>
      let H := fresh "Hwrite" in
      pose proof (db_write_guestStorage e o h f w) as H;
      destruct (db_write e o h f w) as [[[]|?] ?]; simpl in *
  | |- context [db_read ?e ?o ?h ?w] => destruct (db_read e o h w); simpl in *
  | |- context [if ?b then _ else _] => destruct b; simpl in *
  end; try congruence.

Lemma probe_servers_guestStorage (env : Env) (h : nat) (targets : list Server)
    (st : gmap string Health) (w : World) :
  guestStorage (probe_servers env h targets st w).2 = guestStorage w.
Proof.
  revert st w. induction targets as [|t targets IH]; intros st w; [reflexivity|].
  cbn [probe_servers].
  match goal with
  | |- context [db_write ?e ?o ?h ?f w] =>
      pose proof (db_write_guestStorage e o h f w) as Hw;
      destruct (db_write e o h f w) as [[[]|?] w1]
  end; simpl in *; [|exact Hw].
  rewrite IH. exact Hw.
Qed.

(** An action keeps every guest dataset, discards one, or stores a
    fresh copy of the seed. *)
Lemma run_guestStorage (a : Action) (w : World) (sessionId : string) (d : Dataset) :
  guestStorage (run a w) !! sessionId = Some d ->
  guestStorage w !! sessionId = Some d \/ exists t, d = guest_seed t.
Proof.
  destruct a; cbn [run].
  - unfold upload_env. destruct (file req); [|auto]. cbv zeta.
    destruct (_ || _); [auto|].
    pose proof (getConnection_frame (sessionID req)
                  (default EmptyString (parseEnvContent s0 !! "MONGO_URI")) w)
      as (Hg & _).
    destruct (getConnection _ _ w) as [[h|e] w1]; simpl in *; rewrite Hg; auto.
  - unfold guest_mode, getGuestData.
    destruct (guestStorage w !! sessionID req) eqn:E; simpl; [auto|].
    rewrite lookup_insert. case_decide; [|auto]. intros [= <-]. eauto.
  - rewrite (proj1 (logout_frame env req s w)).
    intros H. apply lookup_delete_Some in H as [_ H]. auto.
  - unfold post_deploy.
    destruct (behind_world [requireAuth s; authenticate req s]
                (deploy_handler env now req s w) s w) as [-> | ->]; [auto|].
    unfold deploy_handler. guest_frame; auto.
    all: intros H; left; congruence.
  - unfold deploy_timer. rewrite db_write_guestStorage. auto.
  - unfold post_servers.
    destruct (behind_world [requireAuth s; authenticate req s]
                (add_server_handler env req s w) s w) as [-> | ->]; [auto|].
    unfold add_server_handler. guest_frame; auto.
    all: intros H; left; congruence.
  - unfold delete_servers.
    destruct (behind_world [requireAuth s]
                (delete_server_handler env req s w) s w) as [-> | ->]; [auto|].
    unfold delete_server_handler. guest_frame; auto.
    all: intros H; left; congruence.
  - unfold post_logs_delete.
    destruct (behind_world [requireAuth s; authenticate req s]
                (logs_delete_handler env req s w) s w) as [-> | ->]; [auto|].
    unfold logs_delete_handler. guest_frame; auto.
    all: intros H; left; congruence.
  - unfold webhooks_render. destruct (stringify_fails env); auto.
  - unfold checkServerHealth, health_try. destruct guest.
    + unfold getGuestData.
      destruct (guestStorage w !! sessionId0) eqn:E; simpl; [auto|].
      rewrite lookup_insert. case_decide; [|auto]. intros [= <-]. eauto.
    + destruct connection as [h|]; [|auto].
      destruct (db_read env OpFindServers h w) as [d0|e]; [|auto].
      pose proof (probe_servers_guestStorage env h (servers d0) ∅ w) as Hp.
      destruct (probe_servers env h (servers d0) ∅ w) as [[[[]|e] st] w1];
        simpl in *.
      * match goal with
        | |- context [db_write ?e ?o ?h ?f w1] =>
            pose proof (db_write_guestStorage e o h f w1) as Hw;
            destruct (db_write e o h f w1) as [[[]|?] w2]
        end; simpl in *; rewrite Hw, Hp; auto.
      * rewrite Hp. auto.
  - rewrite (proj1 (proj2 (proj2 (proj2 (sweep_exact w))))). auto.
  - auto.
Qed.

(** X13.  Guest data are never modified.  In every state the process
    reaches from its start, whatever the requests, each stored guest
    dataset is a copy of the seed snapshot as it was taken at some
    time: two demo targets, one up and one down, one log entry and one
    deployment. *)
Theorem guest_datasets_are_seed_copies
    (dbs : gmap string Dataset) (actions : list Action)
    (sessionId : string) (d : Dataset) :
  guestStorage (run_all actions (initial_world dbs)) !! sessionId = Some d ->
  exists t, d = guest_seed t.
Proof.
  unfold run_all.
  assert (H0 : forall s0 d0, guestStorage (initial_world dbs) !! s0 = Some d0 ->
                             exists t, d0 = guest_seed t).
  { intros s0 d0. simpl. rewrite lookup_empty. discriminate. }
  revert H0. generalize (initial_world dbs). revert sessionId d.
  induction actions as [|a actions IH]; intros sessionId d w Hw; simpl; [apply Hw|].
  apply IH. intros s0 d0 H.
  apply run_guestStorage in H as [H | H]; [eapply Hw; exact H | exact H].
Qed.

(** A sample run of [guest_datasets_are_seed_copies]. *)
Lemma guest_datasets_are_seed_copies_witness : exists t, guest_seed 0 = guest_seed t.
Proof.
  apply (guest_datasets_are_seed_copies two_stores sample_run "guest1" (guest_seed 0)).
  vm_compute. reflexivity.
Defined.

(** ** Activation *)

(** X14.  A valid bundle activates the session.  When the uploaded
    blob parses to a non-empty [MONGO_URI] and a non-empty [API_KEY]
    and the connection test succeeds, the browser is sent to the
    dashboard; the session is credentialed and carries exactly the
    fields of the bundle, with the defaults for the optional ones;
    [requireAuth] lets it through; [authenticate] accepts exactly the
    bundle's access key; and the process state is the one the
    connection test left. *)
Theorem upload_valid_bundle_activates
    (req : Request) (s : Session) (w w' : World) (buffer uri key : string) (h : nat) :
  file req = Some buffer ->
  parseEnvContent buffer !! "MONGO_URI" = Some uri -> uri <> EmptyString ->
  parseEnvContent buffer !! "API_KEY" = Some key -> key <> EmptyString ->
  getConnection (sessionID req) uri w = (Ok h, w') ->
  upload_env req s w
  = (Redirect "/dashboard",
     {| config := Some {| MONGO_URI := Some uri; API_KEY := key;
                          RENDER_API_KEY :=
                            or_default (parseEnvContent buffer !! "RENDER_API_KEY")
                              EmptyString;
                          PORT := if truthy (parseEnvContent buffer !! "PORT")
                                  then PortString
                                         (default EmptyString
                                            (parseEnvContent buffer !! "PORT"))
                                  else PortNumber 3000 |};
        isGuest := Some false |}, w') /\
  requireAuth (upload_env req s w).1.2 = Next /\
  session_uri (upload_env req s w).1.2 = uri /\
  (forall req', authenticate req' (upload_env req s w).1.2 = Next <->
                x_api_key req' = Some key).
Proof.
  intros Hfile Huri Hu Hkey Hk Hget.
  assert (H : upload_env req s w
    = (Redirect "/dashboard",
       {| config := Some {| MONGO_URI := Some uri; API_KEY := key;
                            RENDER_API_KEY :=
                              or_default (parseEnvContent buffer !! "RENDER_API_KEY")
                                EmptyString;
                            PORT := if truthy (parseEnvContent buffer !! "PORT")
                                    then PortString
                                           (default EmptyString
                                              (parseEnvContent buffer !! "PORT"))
                                    else PortNumber 3000 |};
          isGuest := Some false |}, w')).
  { unfold upload_env. rewrite Hfile. cbv zeta. rewrite Huri, Hkey. simpl.
    apply String.eqb_neq in Hu, Hk. rewrite Hu, Hk. simpl. rewrite Hget.
    reflexivity. }
  rewrite H. simpl. repeat split.
  - unfold authenticate. simpl. destruct (x_api_key req') as [k|]; [|discriminate].
    destruct (String.eqb_spec k key) as [->|]; [reflexivity | discriminate].
  - unfold authenticate. simpl. intros ->. now rewrite String.eqb_refl.
Qed.

(** A sample run of [upload_valid_bundle_activates]. *)
Lemma upload_valid_bundle_activates_witness :
  upload_env (upload_request "sessA" valid_bundle) empty_session demo_world
  = (Redirect "/dashboard",
     {| config := Some {| MONGO_URI := Some "db://x"; API_KEY := "k1";
                          RENDER_API_KEY :=
                            or_default (parseEnvContent valid_bundle !! "RENDER_API_KEY")
                              EmptyString;
                          PORT := if truthy (parseEnvContent valid_bundle !! "PORT")
                                  then PortString
                                         (default EmptyString
                                            (parseEnvContent valid_bundle !! "PORT"))
                                  else PortNumber 3000 |};
        isGuest := Some false |}, world_one_session) /\
  requireAuth
    (upload_env (upload_request "sessA" valid_bundle) empty_session demo_world).1.2
    = Next /\
  session_uri
    (upload_env (upload_request "sessA" valid_bundle) empty_session demo_world).1.2
    = "db://x" /\
  (forall req',
     authenticate req'
       (upload_env (upload_request "sessA" valid_bundle) empty_session demo_world).1.2
     = Next <-> x_api_key req' = Some "k1").
Proof.
  apply (upload_valid_bundle_activates (upload_request "sessA" valid_bundle)
           empty_session demo_world world_one_session valid_bundle "db://x" "k1" 0).
  - reflexivity.
  - vm_compute. reflexivity.
  - discriminate.
  - vm_compute. reflexivity.
  - discriminate.
  - vm_compute. reflexivity.
Defined.

Lemma connectionKey_same_session (sessionId u u' : string) :
  connectionKey sessionId u = connectionKey sessionId u' -> u = u'.
Proof.
  unfold connectionKey. intros H. apply append_inv_head in H.
  rewrite !append_cons, !append_nil_l in H. now injection H.
Qed.

(** [getConnection] touches no entry but the one of its key, and no
    connection object made before. *)
Lemma getConnection_other_keys (sessionId mongoUri : string) (w : World) :
  (forall k, k <> connectionKey sessionId mongoUri ->
     connectionPool (getConnection sessionId mongoUri w).2 !! k
     = connectionPool w !! k) /\
  (forall h, (h < created w)%nat ->
     connections (getConnection sessionId mongoUri w).2 !! h = connections w !! h).
Proof.
  unfold getConnection.
  destruct (String.eqb sessionId EmptyString || String.eqb mongoUri EmptyString);
    [auto|].
  cbv zeta. unfold connect_and_cache, createConnection.
  destruct (connectionPool w !! _) as [h0|].
  - destruct (is_live w h0); [auto|]. simpl.
    destruct (databases w !! mongoUri); simpl; split; intros.
    + rewrite lookup_insert_ne by congruence. now apply lookup_delete_ne.
    + apply lookup_insert_ne. lia.
    + now apply lookup_delete_ne.
    + apply lookup_insert_ne. lia.
  - destruct (databases w !! mongoUri); simpl; split; intros.
    + apply lookup_insert_ne. congruence.
    + apply lookup_insert_ne. lia.
    + reflexivity.
    + apply lookup_insert_ne. lia.
Qed.

(** X15.  An upload never evicts a connection the session holds for
    another address.  If the well-formed registry caches an entry for
    the identity and address [old], then after an upload whose bundle
    names a different address, whether it succeeds or fails, that entry
    is still cached with the same handle and its connection is as live
    as it was: a session that uploads again without logging out keeps
    its earlier connection open. *)
Theorem upload_keeps_entries_of_other_addresses
    (req : Request) (s : Session) (w : World) (buffer old : string) (h : nat) :
  wf_world w ->
  file req = Some buffer ->
  parseEnvContent buffer !! "MONGO_URI" <> Some old ->
  connectionPool w !! connectionKey (sessionID req) old = Some h ->
  connectionPool (upload_env req s w).2 !! connectionKey (sessionID req) old = Some h /\
  is_live (upload_env req s w).2 h = is_live w h.
Proof.
  intros [Hlt _] Hfile Hnew Hold. unfold upload_env. rewrite Hfile. cbv zeta.
  destruct (parseEnvContent buffer !! "MONGO_URI") as [uri|] eqn:E; simpl; [|auto].
  destruct (_ || _); [auto|].
  assert (Hne : connectionKey (sessionID req) old <> connectionKey (sessionID req) uri).
  { intros Heq. apply connectionKey_same_session in Heq. congruence. }
  destruct (getConnection_other_keys (sessionID req) uri w) as [Hkeys Hconns].
  specialize (Hkeys _ Hne). specialize (Hconns h (Hlt _ _ Hold)).
  unfold is_live.
  destruct (getConnection (sessionID req) uri w) as [[h1|e] w1]; simpl in *;
    rewrite Hkeys, Hconns; auto.
Qed.

(** A sample run of [upload_keeps_entries_of_other_addresses]: [sessA]
    holds a connection to [db://x] and uploads a bundle for
    [db://down]. *)
Lemma upload_keeps_entries_of_other_addresses_witness :
  connectionPool
    (upload_env (upload_request "sessA" unreachable_bundle) tenant_session
       world_one_session).2 !! connectionKey "sessA" "db://x" = Some 0%nat /\
  is_live
    (upload_env (upload_request "sessA" unreachable_bundle) tenant_session
       world_one_session).2 0
  = is_live world_one_session 0.
Proof.
  apply (upload_keeps_entries_of_other_addresses
           (upload_request "sessA" unreachable_bundle) tenant_session
           world_one_session unreachable_bundle "db://x" 0).
  - eapply getConnection_wf; [apply wf_initial | apply surjective_pairing].
  - reflexivity.
  - vm_compute. discriminate.
  - vm_compute. reflexivity.
Defined.

(** X16.  [requireAuth] lets a session through exactly when it is in
    guest mode, or in credentialed mode with a bundle attached.  For
    any other session, triggering a deployment, adding a server,
    removing a server and clearing the logs all answer with the
    redirect to the upload page, and the session and the whole process
    state stay as they were: no connection is acquired, no store is
    read. *)
Theorem requireAuth_gate
    (env : Env) (now : Z) (req : Request) (s : Session) (w : World) :
  (requireAuth s = Next <->
   isGuest s = Some true \/ (isGuest s = Some false /\ is_Some (config s))) /\
  (requireAuth s <> Next ->
   post_deploy env now req s w = (Redirect "/?error=upload_required", s, w) /\
   post_servers env req s w = (Redirect "/?error=upload_required", s, w) /\
   delete_servers env req s w = (Redirect "/?error=upload_required", s, w) /\
   post_logs_delete env req s w = (Redirect "/?error=upload_required", s, w)).
Proof.
  unfold post_deploy, post_servers, delete_servers, post_logs_delete, requireAuth.
  destruct (isGuest s) as [[|]|]; destruct (config s) as [c|]; simpl; split;
    try (intros H; exfalso; now apply H);
    try (intros _; repeat split);
    try (split; [intros _; eauto | reflexivity]);
    try (split; [discriminate|]; intros [H | [H1 [x H2]]]; discriminate).
Qed.

(** ** Effects of the tenant routes *)

Lemma authenticate_accepts (req : Request) (s : Session) (c : Config) :
  config s = Some c -> x_api_key req = Some (API_KEY c) -> authenticate req s = Next.
Proof.
  intros Hc Hk. unfold authenticate. rewrite Hc, Hk. now rewrite String.eqb_refl.
Qed.

Lemma requireAuth_credentialed (s : Session) (c : Config) :
  isGuest s = Some false -> config s = Some c -> requireAuth s = Next.
Proof. intros Hg Hc. unfold requireAuth. now rewrite Hg, Hc. Qed.

Lemma truthy_Some (v : string) : v <> EmptyString -> truthy (Some v) = true.
Proof. intros H. simpl. apply String.eqb_neq in H. now rewrite H. Qed.

(** X17.  A deployment goes from in progress to success.  For a
    credentialed session presenting its access key and a version, when
    the connection is there and the save goes through, [POST /deploy]
    answers 200, sets the pipeline status to [in_progress] and appends
    one record with that status to the tenant's deployments, leaving
    its targets and logs alone.  When the timer of that deployment then
    fires, the pipeline status is [success] and that record, and no
    other, has status [success]. *)
Theorem deploy_then_timer
    (env : Env) (now : Z) (req : Request) (s : Session) (w w1 : World)
    (c : Config) (v uri : string) (h : nat) (d : Dataset) :
  isGuest s = Some false -> config s = Some c ->
  x_api_key req = Some (API_KEY c) ->
  body_version req = Some v -> v <> EmptyString ->
  getConnection (sessionID req) (session_uri s) w = (Ok h, w1) ->
  store_of w1 h = Some (uri, d) ->
  db_fails env OpSaveDeployment = false ->
  post_deploy env now req s w
  = (Json 200 "Deployment triggered", s,
     set_databases
       (<[uri := with_deployments
                   (fun l => l ++ [deployment_record v now "in_progress"])%list d]>
          (databases w1))
       (set_PIPELINE_STATUS "in_progress" w1)) /\
  deploy_timer env h (length (deployments d)) (post_deploy env now req s w).2
  = set_databases
      (<[uri := with_deployments
                  (fun l => l ++ [deployment_record v now "success"])%list d]>
         (databases w1))
      (set_PIPELINE_STATUS "success" w1).
Proof.
  intros Hg Hc Hk Hv Hne Hget Hstore Hsave.
  assert (Hpost : post_deploy env now req s w
    = (Json 200 "Deployment triggered", s,
       set_databases
         (<[uri := with_deployments
                     (fun l => l ++ [deployment_record v now "in_progress"])%list d]>
            (databases w1))
         (set_PIPELINE_STATUS "in_progress" w1))).
  { unfold post_deploy. simpl.
    rewrite (requireAuth_credentialed s c Hg Hc), (authenticate_accepts req s c Hc Hk).
    unfold deploy_handler. rewrite Hv, (truthy_Some v Hne), Hg, Hget. simpl.
    unfold db_write. rewrite Hsave.
    change (store_of (set_PIPELINE_STATUS "in_progress" w1) h) with (store_of w1 h).
    rewrite Hstore. reflexivity. }
  split; [exact Hpost|].
  rewrite Hpost. simpl. unfold deploy_timer, db_write. rewrite Hsave.
  unfold store_of in *. simpl.
  destruct (connections w1 !! h) as [c1|]; [|discriminate].
  destruct (databases w1 !! conn_uri c1) as [d1|] eqn:Hd1; [|discriminate].
  injection Hstore as <- <-. rewrite lookup_insert_eq. simpl.
  rewrite insert_insert_eq. unfold with_deployments, mark_success. simpl.
  replace (length (deployments d1)) with (length (deployments d1) + 0)%nat by lia.
  rewrite alter_app_r. reflexivity.
Qed.

(** A sample run of [deploy_then_timer]: [sessA] deploys version [v2]. *)
Lemma deploy_then_timer_witness :
  post_deploy quiet_env 5 tenant_request tenant_session world_one_session
  = (Json 200 "Deployment triggered", tenant_session,
     set_databases
       (<["db://x" := with_deployments
                        (fun l => l ++ [deployment_record "v2" 5 "in_progress"])%list
                        empty_dataset]>
          (databases world_one_session))
       (set_PIPELINE_STATUS "in_progress" world_one_session)) /\
  deploy_timer quiet_env 0 (length (deployments empty_dataset))
    (post_deploy quiet_env 5 tenant_request tenant_session world_one_session).2
  = set_databases
      (<["db://x" := with_deployments
                       (fun l => l ++ [deployment_record "v2" 5 "success"])%list
                       empty_dataset]>
         (databases world_one_session))
      (set_PIPELINE_STATUS "success" world_one_session).
Proof.
  apply (deploy_then_timer quiet_env 5 tenant_request tenant_session
           world_one_session world_one_session
           {| MONGO_URI := Some "db://x"; API_KEY := "k1";
              RENDER_API_KEY := EmptyString; PORT := PortNumber 3000 |}
           "v2" "db://x" 0 empty_dataset).
  - reflexivity.
  - reflexivity.
  - reflexivity.
  - reflexivity.
  - discriminate.
  - vm_compute. reflexivity.
  - vm_compute. reflexivity.
  - reflexivity.
Defined.

Lemma remove_first_app_new (n : string) (l : list Server) (s : Server) :
  existsb (has_name n) l = false -> name s = n ->
  remove_first n (l ++ [s]) = l.
Proof.
  intros Hl Hs. induction l as [|x l IH]; simpl.
  - unfold has_name. rewrite Hs, String.eqb_refl. reflexivity.
  - simpl in Hl. apply orb_false_iff in Hl as [Hx Hl]. rewrite Hx, (IH Hl).
    reflexivity.
Qed.

Lemma existsb_app_new (n : string) (l : list Server) (s : Server) :
  name s = n -> existsb (has_name n) (l ++ [s]) = true.
Proof.
  intros Hs. rewrite existsb_app. simpl. unfold has_name at 2.
  rewrite Hs, String.eqb_refl. now rewrite orb_true_r.
Qed.

(** X18.  Adding a target and removing it again is a round trip.  For a
    credentialed session presenting its access key, whose connection is
    cached and live, when the store has no target of that name and the
    store operations go through, [POST /servers] answers 201 and
    appends the target with status [Unknown]; [DELETE /servers/:name]
    for that name then answers 200 and the whole process state is
    exactly what it was before the target was added. *)
Theorem add_then_delete_server
    (env : Env) (req : Request) (s : Session) (w : World) (c : Config)
    (n u uri : string) (h : nat) (d : Dataset) :
  isGuest s = Some false -> config s = Some c ->
  x_api_key req = Some (API_KEY c) ->
  body_name req = Some n -> n <> EmptyString ->
  body_url req = Some u -> u <> EmptyString ->
  param_name req = n ->
  sessionID req <> EmptyString -> session_uri s <> EmptyString ->
  connectionPool w !! connectionKey (sessionID req) (session_uri s) = Some h ->
  is_live w h = true ->
  store_of w h = Some (uri, d) ->
  existsb (has_name n) (servers d) = false ->
  db_fails env (OpSaveServer n) = false -> db_fails env OpDeleteServer = false ->
  post_servers env req s w
  = (Json 201 "Server added", s,
     set_databases
       (<[uri := with_servers
                   (fun l => l ++ [{| name := n; url := u; status := "Unknown" |}])%list
                   d]> (databases w)) w) /\
  delete_servers env req s (post_servers env req s w).2
  = (Json 200 "Server removed", s, w).
Proof.
  intros Hg Hc Hk Hn Hne Hu Hue Hp Hsid Huri Hpool Hlive Hstore Hnew Hsave Hdel.
  pose proof (requireAuth_credentialed s c Hg Hc) as Hr.
  pose proof (authenticate_accepts req s c Hc Hk) as Ha.
  assert (Hadd : post_servers env req s w
    = (Json 201 "Server added", s,
       set_databases
         (<[uri := with_servers
                     (fun l => l ++ [{| name := n; url := u; status := "Unknown" |}])%list
                     d]> (databases w)) w)).
  { unfold post_servers. simpl. rewrite Hr, Ha. unfold add_server_handler.
    rewrite Hg, Hn, Hu, (truthy_Some n Hne), (truthy_Some u Hue). simpl.
    rewrite (getConnection_hit _ _ _ _ Hsid Huri Hpool Hlive).
    unfold db_read, db_write. rewrite Hsave, Hstore, Hnew. reflexivity. }
  split; [exact Hadd|].
  rewrite Hadd. simpl. unfold delete_servers. simpl. rewrite Hr.
  unfold delete_server_handler. rewrite Hg. simpl.
  set (d1 := with_servers
               (fun l => l ++ [{| name := n; url := u; status := "Unknown" |}])%list d).
  set (w1 := set_databases (<[uri := d1]> (databases w)) w).
  assert (Hstore1 : store_of w1 h = Some (uri, d1)).
  { unfold store_of in *. simpl.
    destruct (connections w !! h) as [c1|]; [|discriminate].
    destruct (databases w !! conn_uri c1) as [d0|]; [|discriminate].
    injection Hstore as <- <-. now rewrite lookup_insert_eq. }
  assert (Hhit : getConnection (sessionID req) (session_uri s) w1 = (Ok h, w1)).
  { apply getConnection_hit; auto. }
  rewrite Hhit. unfold db_read, db_write. rewrite Hdel, Hstore1, Hp.
  unfold d1 at 1. simpl. rewrite existsb_app_new by reflexivity.
  f_equal. unfold w1. rewrite set_databases_twice. simpl.
  rewrite insert_insert_eq.
  assert (Hd : with_servers (remove_first n) d1 = d).
  { unfold d1, with_servers. simpl. rewrite remove_first_app_new by auto.
    destruct d; reflexivity. }
  rewrite Hd. rewrite insert_id; [apply set_databases_same|].
  unfold store_of in Hstore.
  destruct (connections w !! h) as [c1|]; [|discriminate].
  destruct (databases w !! conn_uri c1) as [d0|] eqn:E; [|discriminate].
  injection Hstore as <- <-. exact E.
Qed.

(** A sample run of [add_then_delete_server]: [sessA] adds [svc2] and
    removes it. *)
Lemma add_then_delete_server_witness :
  post_servers quiet_env tenant_request tenant_session world_one_session
  = (Json 201 "Server added", tenant_session,
     set_databases
       (<["db://x" := with_servers
                        (fun l => l ++ [{| name := "svc2"; url := "http://ok";
                                           status := "Unknown" |}])%list
                        empty_dataset]> (databases world_one_session))
       world_one_session) /\
  delete_servers quiet_env tenant_request tenant_session
    (post_servers quiet_env tenant_request tenant_session world_one_session).2
  = (Json 200 "Server removed", tenant_session, world_one_session).
Proof.
  apply (add_then_delete_server quiet_env tenant_request tenant_session
           world_one_session
           {| MONGO_URI := Some "db://x"; API_KEY := "k1";
              RENDER_API_KEY := EmptyString; PORT := PortNumber 3000 |}
           "svc2" "http://ok" "db://x" 0 empty_dataset);
    try reflexivity; try discriminate; vm_compute; reflexivity.
Defined.

(** ** Target names and the health check *)

Lemma has_name_false (n : string) (l : list Server) :
  existsb (has_name n) l = false <-> ~ In n (map name l).
Proof.
  induction l as [|x l IH]; simpl; [tauto|].
  rewrite orb_false_iff, IH. unfold has_name.
  destruct (String.eqb_spec (name x) n) as [E | E].
  - split; [intros [H _]; discriminate | intros H; exfalso; apply H; now left].
  - split; [intros [_ H] [Hx | Hin]; tauto | intros H; split; [reflexivity | tauto]].
Qed.

Lemma NoDup_names_add (l : list Server) (s : Server) :
  existsb (has_name (name s)) l = false ->
  NoDup (map name l) -> NoDup (map name (l ++ [s])).
Proof.
  intros Hnew Hnd. rewrite map_app. simpl. apply NoDup_app. split; [exact Hnd|].
  split; [|apply NoDup_singleton].
  intros n Hn Hs. apply list_elem_of_singleton in Hs. subst n.
  apply has_name_false in Hnew. apply Hnew. now apply list_elem_of_In.
Qed.

Lemma remove_first_names (n : string) (l : list Server) :
  NoDup (map name l) -> NoDup (map name (remove_first n l)).
Proof.
  induction l as [|x l IH]; simpl; [auto|].
  change (map name (x :: l)) with (name x :: map name l).
  rewrite NoDup_cons. intros [Hx Hnd].
  destruct (has_name n x); [exact Hnd|].
  change (map name (x :: remove_first n l))
    with (name x :: map name (remove_first n l)).
  apply NoDup_cons. split; [|now apply IH].
  intros Hin. apply Hx. clear IH Hx Hnd.
  rewrite list_elem_of_In in *. 
  induction l as [|y l IH]; simpl in *; [exact Hin|].
  destruct (has_name n y); [now right|].
  destruct Hin as [-> | Hin]; [now left | right; auto].
Qed.

Lemma replace_server_names (s : Server) (l : list Server) :
  map name (replace_server s l) = map name l.
Proof.
  unfold replace_server. rewrite List.map_map. apply List.map_ext_in.
  intros x _. unfold has_name. destruct (String.eqb_spec (name x) (name s)); auto.
Qed.

(** A write keeps the names distinct when what it writes does. *)
Lemma db_write_unique (env : Env) (op : DbOp) (h : nat) (f : Dataset -> Dataset)
    (w : World) :
  (forall uri d, store_of w h = Some (uri, d) -> NoDup (map name (servers d)) ->
                 NoDup (map name (servers (f d)))) ->
  unique_names w -> unique_names (db_write env op h f w).2.
Proof.
  intros Hf Hw. unfold db_write. destruct (db_fails env op); [exact Hw|].
  destruct (store_of w h) as [[uri d]|] eqn:Hs; [|exact Hw].
  intros uri' d'. simpl. rewrite lookup_insert. case_decide.
  - intros [= <-]. apply (Hf uri d eq_refl). apply (Hw uri).
    unfold store_of in Hs.
    destruct (connections w !! h) as [c|]; [|discriminate].
    destruct (databases w !! conn_uri c) eqn:E; [|discriminate].
    injection Hs as <- <-. exact E.
  - apply Hw.
Qed.

Lemma unique_names_same (w w' : World) :
  databases w' = databases w -> unique_names w -> unique_names w'.
Proof. intros H Hw uri d. rewrite H. apply Hw. Qed.

Lemma getConnection_unique (sessionId u : string) (w : World) :
  unique_names w -> unique_names (getConnection sessionId u w).2.
Proof.
  apply unique_names_same. apply (getConnection_frame sessionId u w).
Qed.

Lemma db_read_store (env : Env) (op : DbOp) (h : nat) (w : World) (d : Dataset) :
  db_read env op h w = Ok d -> exists uri, store_of w h = Some (uri, d).
Proof.
  unfold db_read. destruct (db_fails env op); [discriminate|].
  destruct (store_of w h) as [[uri d0]|]; [|discriminate].
  intros [= <-]. eauto.
Qed.

Lemma probe_servers_unique (env : Env) (h : nat) (targets : list Server)
    (st : gmap string Health) (w : World) :
  unique_names w -> unique_names (probe_servers env h targets st w).2.
Proof.
  revert st w. induction targets as [|t targets IH]; intros st w Hw; [exact Hw|].
  cbn [probe_servers].
  match goal with
  | |- context [db_write ?e ?o ?h ?f w] =>
      assert (Hu : unique_names (db_write e o h f w).2);
      [apply db_write_unique; [|exact Hw]|];
      [|destruct (db_write e o h f w) as [[[]|?] w1]; simpl in *; auto]
  end.
  intros uri d _ Hnd. simpl. now rewrite replace_server_names.
Qed.

Lemma getGuestData_databases (now : Z) (sessionId : string) (w : World) :
  databases (getGuestData now sessionId w).2 = databases w.
Proof. unfold getGuestData. destruct (guestStorage w !! sessionId); reflexivity. Qed.

Lemma unique_names_run (a : Action) (w : World) :
  unique_names w -> unique_names (run a w).
Proof.
  intros Hw. destruct a; cbn [run].
  - unfold upload_env. destruct (file req); [|exact Hw]. cbv zeta.
    destruct (_ || _); [exact Hw|].
    match goal with
    | |- context [getConnection ?s ?u w] =>
        pose proof (getConnection_unique s u w Hw) as H;
        destruct (getConnection s u w) as [[?|?] ?]; exact H
    end.
  - unfold guest_mode.
    pose proof (getGuestData_databases now (sessionID req) w) as H.
    destruct (getGuestData now (sessionID req) w) as [d w1]. simpl in *.
    now apply (unique_names_same w).
  - apply (unique_names_same w); [|exact Hw]. apply (logout_frame env req s w).
  - unfold post_deploy.
    destruct (behind_world [requireAuth s; authenticate req s]
                (deploy_handler env now req s w) s w) as [-> | ->]; [exact Hw|].
    unfold deploy_handler. destruct (negb _); [exact Hw|].
    destruct (strictly true (isGuest s)); [exact Hw|].
    pose proof (getConnection_unique (sessionID req) (session_uri s) w Hw) as H1.
    destruct (getConnection (sessionID req) (session_uri s) w) as [[h|e] w1];
      simpl in *; [|exact H1].
    match goal with
    | |- context [db_write ?e ?o ?h ?f ?w0] =>
        assert (Hu : unique_names (db_write e o h f w0).2);
        [apply db_write_unique; [intros uri d _ Hnd; exact Hnd | exact H1]|];
        destruct (db_write e o h f w0) as [[[]|?] w2]; exact Hu
    end.
  - unfold deploy_timer. apply db_write_unique; [|exact Hw].
    intros uri d _ Hnd. exact Hnd.
  - unfold post_servers.
    destruct (behind_world [requireAuth s; authenticate req s]
                (add_server_handler env req s w) s w) as [-> | ->]; [exact Hw|].
    unfold add_server_handler. destruct (strictly true (isGuest s)); [exact Hw|].
    destruct (_ || _); [exact Hw|].
    pose proof (getConnection_unique (sessionID req) (session_uri s) w Hw) as H1.
    destruct (getConnection (sessionID req) (session_uri s) w) as [[h|e] w1];
      simpl in *; [|exact H1].
    destruct (db_read env _ h w1) as [d|e] eqn:Hread; [|exact H1].
    destruct (existsb _ (servers d)) eqn:Hex; [exact H1|].
    apply db_read_store in Hread as [uri Hstore].
    match goal with
    | |- context [db_write ?e ?o ?h ?f ?w0] =>
        assert (Hu : unique_names (db_write e o h f w0).2);
        [apply db_write_unique; [|exact H1]|];
        [|destruct (db_write e o h f w0) as [[[]|?] w2]; exact Hu]
    end.
    intros uri' d' Hs' Hnd. rewrite Hstore in Hs'. injection Hs' as <- <-.
    simpl. now apply NoDup_names_add.
  - unfold delete_servers.
    destruct (behind_world [requireAuth s]
                (delete_server_handler env req s w) s w) as [-> | ->]; [exact Hw|].
    unfold delete_server_handler. destruct (strictly true (isGuest s)); [exact Hw|].
    pose proof (getConnection_unique (sessionID req) (session_uri s) w Hw) as H1.
    destruct (getConnection (sessionID req) (session_uri s) w) as [[h|e] w1];
      simpl in *; [|exact H1].
    destruct (db_read env _ h w1) as [d|e]; [|exact H1].
    destruct (existsb _ (servers d)); [|exact H1].
    match goal with
    | |- context [db_write ?e ?o ?h ?f ?w0] =>
        assert (Hu : unique_names (db_write e o h f w0).2);
        [apply db_write_unique; [|exact H1]|];
        [|destruct (db_write e o h f w0) as [[[]|?] w2]; exact Hu]
    end.
    intros uri' d' _ Hnd. simpl. now apply remove_first_names.
  - unfold post_logs_delete.
    destruct (behind_world [requireAuth s; authenticate req s]
                (logs_delete_handler env req s w) s w) as [-> | ->]; [exact Hw|].
    unfold logs_delete_handler. destruct (strictly true (isGuest s)); [exact Hw|].
    pose proof (getConnection_unique (sessionID req) (session_uri s) w Hw) as H1.
    destruct (getConnection (sessionID req) (session_uri s) w) as [[h|e] w1];
      simpl in *; [|exact H1].
    match goal with
    | |- context [db_write ?e ?o ?h ?f ?w0] =>
        assert (Hu : unique_names (db_write e o h f w0).2);
        [apply db_write_unique; [intros uri d _ Hnd; exact Hnd | exact H1]|];
        destruct (db_write e o h f w0) as [[[]|?] w2]; exact Hu
    end.
  - unfold webhooks_render. destruct (stringify_fails env); exact Hw.
  - unfold checkServerHealth, health_try. destruct guest.
    + pose proof (getGuestData_databases now sessionId w) as H.
      destruct (getGuestData now sessionId w) as [d w1]. simpl in *.
      now apply (unique_names_same w).
    + destruct connection as [h|]; [|exact Hw].
      destruct (db_read env OpFindServers h w) as [d0|e]; [|exact Hw].
      pose proof (probe_servers_unique env h (servers d0) ∅ w Hw) as Hp.
      destruct (probe_servers env h (servers d0) ∅ w) as [[[[]|e] st] w1];
        simpl in *; [|exact Hp].
      match goal with
      | |- context [db_write ?e ?o ?h ?f ?w0] =>
          assert (Hu : unique_names (db_write e o h f w0).2);
          [apply db_write_unique; [intros uri d _ Hnd; exact Hnd | exact Hp]|];
          destruct (db_write e o h f w0) as [[[]|?] w2]; exact Hu
      end.
  - apply (unique_names_same w); [|exact Hw]. apply (sweep_exact w).
  - exact Hw.
Qed.

(** X19.  Target names stay unique.  If the target names of every
    reachable store are distinct when the process starts, they are
    distinct in every state the process reaches: adding a target whose
    name is taken is refused, removing a target and recording the
    result of a health check keep the names that remain, and nothing
    else touches the targets. *)
Theorem target_names_stay_unique
    (dbs : gmap string Dataset) (actions : list Action) :
  (forall uri d, dbs !! uri = Some d -> NoDup (map name (servers d))) ->
  forall uri d,
    databases (run_all actions (initial_world dbs)) !! uri = Some d ->
    NoDup (map name (servers d)).
Proof.
  intros H0. change (unique_names (run_all actions (initial_world dbs))).
  assert (Hw : unique_names (initial_world dbs)) by exact H0.
  revert Hw. generalize (initial_world dbs). unfold run_all.
  induction actions as [|a actions IH]; intros w Hw; simpl; [exact Hw|].
  apply IH. now apply unique_names_run.
Qed.

(** A sample run of [target_names_stay_unique]: the second request to
    add [svc2] leaves one target of that name. *)
Lemma target_names_stay_unique_witness :
  databases (run_all add_twice (initial_world two_stores)) !! "db://x"
  = Some (with_servers (fun _ => [ {| name := "svc2"; url := "http://ok";
                                      status := "Unknown" |} ]) empty_dataset) /\
  NoDup (map name [ {| name := "svc2"; url := "http://ok"; status := "Unknown" |} ]).
Proof.
  split; [vm_compute; reflexivity|].
  apply (target_names_stay_unique two_stores add_twice) with (uri := "db://x")
    (d := with_servers (fun _ => [ {| name := "svc2"; url := "http://ok";
                                      status := "Unknown" |} ]) empty_dataset);
    [|vm_compute; reflexivity].
  intros uri d. unfold two_stores.
  rewrite lookup_insert_Some, lookup_insert_Some, lookup_empty.
  intros [[_ <-] | [_ [[_ <-] | [_ H]]]]; [apply NoDup_nil_2 | | discriminate].
  apply NoDup_singleton.
Defined.

Lemma foldl_statuses (env : Env) (l : list Server) (st : gmap string Health) :
  NoDup (map name l) -> ~ In PROTO (map name l) ->
  foldl (fun st t => set_status (name t) (classify (axios_get env (url t))) st)
    st l
  = statuses_of env l ∪ st.
Proof.
  unfold statuses_of. revert st. induction l as [|t l IH]; intros st Hnd Hp.
  - simpl. now rewrite (left_id ∅ (∪) st).
  - change (map name (t :: l)) with (name t :: map name l) in Hnd, Hp.
    apply NoDup_cons in Hnd as [Ht Hnd]. simpl.
    rewrite IH by (auto; intros H; apply Hp; now right).
    unfold set_status.
    destruct (String.eqb_spec (name t) PROTO) as [E|E];
      [exfalso; apply Hp; now left|].
    rewrite <- insert_union_l. symmetry. apply insert_union_r.
    apply not_elem_of_list_to_map_1. rewrite <- list_fmap_compose.
    exact Ht.
Qed.

(** The whole loop, from an empty mapping. *)
Lemma probe_servers_all (env : Env) (h : nat) (uri : string) (w : World)
    (d : Dataset) :
  (forall n, db_fails env (OpSaveServer n) = false) ->
  store_of w h = Some (uri, d) ->
  NoDup (map name (servers d)) -> ~ In PROTO (map name (servers d)) ->
  probe_servers env h (servers d) ∅ w
  = (Ok tt, statuses_of env (servers d),
     set_databases
       (<[uri := with_servers (fun _ => map (probed env) (servers d)) d]>
          (databases w)) w).
Proof.
  intros Hsave Hstore Hnd Hp.
  rewrite (probe_servers_effect env h uri (servers d) [] ∅ w d)
    by (auto; reflexivity).
  f_equal. f_equal. rewrite foldl_statuses by assumption.
  apply (right_id ∅ (∪)).
Qed.

(** X20.  What a health check leaves behind.  For a credentialed
    session whose connection reaches its store, when no store operation
    fails, [checkServerHealth] returns the classification of every
    target's probe, rewrites the status of every target to the probed
    one, keeps their order, names and addresses, and appends exactly
    one log record holding the returned mapping; the other stores are
    as before.  The target names are distinct (the index of
    [ServerSchema]) and none is [__proto__], which a JavaScript object
    would not take as a key. *)
Theorem checkServerHealth_records_probes
    (env : Env) (now : Z) (sessionId uri : string) (h : nat) (w : World)
    (d : Dataset) :
  store_of w h = Some (uri, d) ->
  NoDup (map name (servers d)) ->
  ~ In "__proto__" (map name (servers d)) ->
  (forall op, db_fails env op = false) ->
  checkServerHealth env now sessionId false (Some h) w
  = (Ok (statuses_of env (servers d)),
     set_databases
       (<[uri := {| servers := map (probed env) (servers d);
                    logs := logs d ++ [ {| timestamp := now;
                                           statuses := statuses_of env (servers d) |} ];
                    deployments := deployments d |}]> (databases w)) w).
Proof.
  intros Hstore Hnd Hp Hok.
  unfold checkServerHealth, health_try, db_read. rewrite Hok, Hstore.
  rewrite (probe_servers_all env h uri w d) by auto.
  unfold db_write. rewrite Hok. simpl app.
  set (d1 := with_servers _ d). set (w1 := set_databases _ w).
  assert (Hstore1 : store_of w1 h = Some (uri, d1)).
  { unfold store_of in *. subst w1. simpl.
    destruct (connections w !! h) as [c|]; [|discriminate].
    destruct (databases w !! conn_uri c) as [d0|]; [|discriminate].
    injection Hstore as <- <-. now rewrite lookup_insert_eq. }
  rewrite Hstore1. f_equal. subst w1 d1. rewrite set_databases_twice. simpl.
  now rewrite insert_insert_eq.
Qed.

(** A sample run of [checkServerHealth_records_probes]: of the two
    targets, [a] is refused and [b] answers. *)
Lemma checkServerHealth_records_probes_witness :
  checkServerHealth flaky_env 7 "sessA" false (Some 0%nat) two_target_world
  = (Ok (<["a" := {| h_status := "Down"; h_reason := "ECONNREFUSED" |}]>
           (<["b" := {| h_status := "Up"; h_reason := "OK 200" |}]> ∅)),
     set_databases
       (<["db://x" :=
            {| servers := [ {| name := "a"; url := "http://dead"; status := "Down" |};
                            {| name := "b"; url := "http://ok"; status := "Up" |} ];
               logs := [ {| timestamp := 7;
                            statuses :=
                              <["a" := {| h_status := "Down";
                                          h_reason := "ECONNREFUSED" |}]>
                                (<["b" := {| h_status := "Up";
                                             h_reason := "OK 200" |}]> ∅) |} ];
               deployments := [] |}]> (databases two_target_world))
       two_target_world).
Proof.
  apply (checkServerHealth_records_probes flaky_env 7 "sessA" "db://x" 0
           two_target_world
           {| servers := two_targets; logs := []; deployments := [] |}).
  - reflexivity.
  - vm_compute. repeat constructor; rewrite ?list_elem_of_In; simpl; intuition discriminate.
  - simpl. intuition discriminate.
  - reflexivity.
Defined.

(** ** The pipeline status and the read routes *)

Lemma getGuestData_PIPELINE_STATUS (now : Z) (sessionId : string) (w : World) :
  PIPELINE_STATUS (getGuestData now sessionId w).2 = PIPELINE_STATUS w.
Proof. unfold getGuestData. destruct (guestStorage w !! sessionId); reflexivity. Qed.

(** [POST /deploy] past its gates and its two checks. *)
Lemma post_deploy_handler (env : Env) (now : Z) (req : Request) (s : Session)
    (w : World) (c : Config) (v : string) :
  isGuest s = Some false -> config s = Some c ->
  x_api_key req = Some (API_KEY c) ->
  body_version req = Some v -> v <> EmptyString ->
  post_deploy env now req s w
  = match getConnection (sessionID req) (session_uri s) w with
    | (Throw _, w1) => (Json 500 "Deployment failed", s, w1)
    | (Ok h, w1) =>
        match db_write env OpSaveDeployment h
                (with_deployments
                   (fun l => l ++ [deployment_record v now "in_progress"])%list)
                (set_PIPELINE_STATUS "in_progress" w1) with
        | (Throw _, w3) => (Json 500 "Deployment failed", s, w3)
        | (Ok _, w3) => (Json 200 "Deployment triggered", s, w3)
        end
    end.
Proof.
  intros Hg Hc Hk Hv Hne. unfold post_deploy.
  rewrite (requireAuth_credentialed s c Hg Hc).
  rewrite (authenticate_accepts req s c Hc Hk). cbn [behind].
  unfold deploy_handler. rewrite Hv, Hg, (truthy_Some v Hne). reflexivity.
Qed.

(** X21.  A deployment whose record cannot be saved.  When a
    credentialed session triggers a deployment and saving the record
    fails, the answer is 500, no record is stored, and the pipeline
    status of the process is left at [in_progress]: it was set before
    the save, and the timer that would reset it is only started after
    the save. *)
Theorem failed_deploy_leaves_pipeline_in_progress
    (env : Env) (now : Z) (req : Request) (s : Session) (w w1 : World)
    (c : Config) (v : string) (h : nat) :
  isGuest s = Some false -> config s = Some c ->
  x_api_key req = Some (API_KEY c) ->
  body_version req = Some v -> v <> EmptyString ->
  getConnection (sessionID req) (session_uri s) w = (Ok h, w1) ->
  db_fails env OpSaveDeployment = true ->
  post_deploy env now req s w
  = (Json 500 "Deployment failed", s, set_PIPELINE_STATUS "in_progress" w1) /\
  databases (post_deploy env now req s w).2 = databases w /\
  PIPELINE_STATUS (post_deploy env now req s w).2 = "in_progress".
Proof.
  intros Hg Hc Hk Hv Hne Hconn Hfail.
  rewrite (post_deploy_handler env now req s w c v Hg Hc Hk Hv Hne), Hconn.
  unfold db_write. rewrite Hfail. simpl. repeat split.
  pose proof (getConnection_frame (sessionID req) (session_uri s) w) as (_ & Hf & _).
  rewrite Hconn in Hf. exact Hf.
Qed.

(** A sample run of [failed_deploy_leaves_pipeline_in_progress]. *)
Lemma failed_deploy_leaves_pipeline_in_progress_witness :
  post_deploy failing_save_env 5 tenant_request tenant_session world_one_session
  = (Json 500 "Deployment failed", tenant_session,
     set_PIPELINE_STATUS "in_progress" world_one_session) /\
  databases (post_deploy failing_save_env 5 tenant_request tenant_session
               world_one_session).2 = databases world_one_session /\
  PIPELINE_STATUS (post_deploy failing_save_env 5 tenant_request tenant_session
                     world_one_session).2 = "in_progress".
Proof.
  apply (failed_deploy_leaves_pipeline_in_progress failing_save_env 5
           tenant_request tenant_session world_one_session world_one_session
           {| MONGO_URI := Some "db://x"; API_KEY := "k1";
              RENDER_API_KEY := EmptyString; PORT := PortNumber 3000 |}
           "v2" 0);
    try reflexivity; try discriminate.
Defined.

(** X22.  The pipeline status is one per process.  Once any credentialed
    session has triggered a deployment that got its connection, whether
    or not the record could be saved, [GET /status] of a guest session,
    whatever its identity, reports the pipeline status [in_progress]:
    the status is a variable of the process, not of the tenant. *)
Theorem status_reports_deployment_of_any_session
    (env env' : Env) (now now' : Z) (req req' : Request) (s s' : Session)
    (w w1 : World) (c : Config) (v : string) (h : nat) :
  isGuest s = Some false -> config s = Some c ->
  x_api_key req = Some (API_KEY c) ->
  body_version req = Some v -> v <> EmptyString ->
  getConnection (sessionID req) (session_uri s) w = (Ok h, w1) ->
  isGuest s' = Some true ->
  exists health w',
    get_status env' now' req' s' (post_deploy env now req s w).2
    = (Body {| cicd_status := "in_progress"; server_health := health;
               mode := "Guest" |}, s', w').
Proof.
  intros Hg Hc Hk Hv Hne Hconn Hg'.
  assert (Hp : PIPELINE_STATUS (post_deploy env now req s w).2 = "in_progress").
  { rewrite (post_deploy_handler env now req s w c v Hg Hc Hk Hv Hne), Hconn.
    unfold db_write. destruct (db_fails env OpSaveDeployment); [reflexivity|].
    change (store_of (set_PIPELINE_STATUS "in_progress" w1) h) with (store_of w1 h).
    destruct (store_of w1 h) as [[uri d]|]; reflexivity. }
  revert Hp. generalize (post_deploy env now req s w).2. intros w2 Hp.
  unfold get_status, requireAuth. rewrite Hg'. simpl.
  unfold status_handler. rewrite Hg'. simpl.
  unfold checkServerHealth, health_try.
  pose proof (getGuestData_PIPELINE_STATUS now' (sessionID req') w2) as Hq.
  destruct (getGuestData now' (sessionID req') w2) as [gd w3]. simpl in Hq.
  rewrite Hq, Hp. eauto.
Qed.

(** A sample run of [status_reports_deployment_of_any_session]: [sessA]
    deploys, the guest [guest1] asks for the status. *)
Lemma status_reports_deployment_of_any_session_witness :
  exists health w',
    get_status quiet_env 9 (bare_request "guest1") guest_session
      (post_deploy quiet_env 5 tenant_request tenant_session world_one_session).2
    = (Body {| cicd_status := "in_progress"; server_health := health;
               mode := "Guest" |}, guest_session, w').
Proof.
  apply (status_reports_deployment_of_any_session quiet_env quiet_env 5 9
           tenant_request (bare_request "guest1") tenant_session guest_session
           world_one_session world_one_session
           {| MONGO_URI := Some "db://x"; API_KEY := "k1";
              RENDER_API_KEY := EmptyString; PORT := PortNumber 3000 |}
           "v2" 0);
    try reflexivity; try discriminate.
Defined.

(** X23.  A triggered deployment is listed.  After a credentialed
    session triggered a deployment that was saved, [GET /deployments]
    of that session with its access key answers the records the store
    held before followed by the new one, in progress, and changes
    nothing. *)
Theorem triggered_deployment_is_listed
    (env : Env) (now now' : Z) (req : Request) (s : Session) (w w1 : World)
    (c : Config) (v uri : string) (h : nat) (d : Dataset) :
  isGuest s = Some false -> config s = Some c ->
  x_api_key req = Some (API_KEY c) ->
  body_version req = Some v -> v <> EmptyString ->
  getConnection (sessionID req) (session_uri s) w = (Ok h, w1) ->
  store_of w1 h = Some (uri, d) ->
  db_fails env OpSaveDeployment = false ->
  get_deployments false now' req s (post_deploy env now req s w).2
  = (Body (deployments d ++ [deployment_record v now "in_progress"])%list, s,
     (post_deploy env now req s w).2).
Proof.
  intros Hg Hc Hk Hv Hne Hconn Hstore Hsave.
  rewrite (post_deploy_handler env now req s w c v Hg Hc Hk Hv Hne), Hconn.
  unfold db_write. rewrite Hsave.
  change (store_of (set_PIPELINE_STATUS "in_progress" w1) h) with (store_of w1 h).
  rewrite Hstore. cbn [snd].
  set (d1 := with_deployments _ d). set (w2 := set_databases _ _).
  unfold get_deployments.
  rewrite (requireAuth_credentialed s c Hg Hc), (authenticate_accepts req s c Hc Hk).
  unfold deployments_handler. rewrite Hg. simpl.
  apply getConnection_Ok in Hconn as (Hsid & Huri & Hpool & Hlive & _).
  assert (Hhit : getConnection (sessionID req) (session_uri s) w2 = (Ok h, w2)).
  { apply getConnection_hit; auto. }
  rewrite Hhit.
  assert (Hstore2 : store_of w2 h = Some (uri, d1)).
  { unfold store_of in *. subst w2. simpl.
    destruct (connections w1 !! h) as [c1|]; [|discriminate].
    destruct (databases w1 !! conn_uri c1) as [d0|]; [|discriminate].
    injection Hstore as <- <-. now rewrite lookup_insert_eq. }
  rewrite Hstore2. reflexivity.
Qed.

(** A sample run of [triggered_deployment_is_listed]. *)
Lemma triggered_deployment_is_listed_witness :
  get_deployments false 9 tenant_request tenant_session
    (post_deploy quiet_env 5 tenant_request tenant_session world_one_session).2
  = (Body (deployments empty_dataset ++ [deployment_record "v2" 5 "in_progress"])%list,
     tenant_session,
     (post_deploy quiet_env 5 tenant_request tenant_session world_one_session).2).
Proof.
  apply (triggered_deployment_is_listed quiet_env 5 9 tenant_request tenant_session
           world_one_session world_one_session
           {| MONGO_URI := Some "db://x"; API_KEY := "k1";
              RENDER_API_KEY := EmptyString; PORT := PortNumber 3000 |}
           "v2" "db://x" 0 empty_dataset);
    try reflexivity; try discriminate; vm_compute; reflexivity.
Defined.

(** ** The first parser of credential blobs *)

Module LegacyFacts.
Import Legacy.
Local Open Scope list_scope.
Local Open Scope N_scope.
Local Arguments is_space : simpl never.
Local Arguments N.eqb : simpl never.

Lemma legacy_split_lines_nonempty (s : JsString) : split_lines s <> [].
Proof.
  destruct s as [|c s]; simpl; [discriminate|].
  destruct (c =? LF); [discriminate|]. destruct (split_lines s); discriminate.
Qed.

Lemma legacy_split_lines_app (a b : JsString) :
  split_lines (a ++ LF :: b) = split_lines a ++ split_lines b.
Proof.
  induction a as [|c a IH]; simpl.
  - reflexivity.
  - destruct (c =? LF); [now rewrite IH|]. rewrite IH.
    pose proof (legacy_split_lines_nonempty a) as Hne.
    destruct (split_lines a) as [|l ls]; [contradiction|reflexivity].
Qed.

Lemma legacy_split_lines_single (s : JsString) :
  ~ In LF s -> split_lines s = [s].
Proof.
  induction s as [|c s IH]; intros H; simpl; [reflexivity|].
  destruct (N.eqb_spec c LF) as [E|E]; [exfalso; apply H; now left|].
  rewrite IH; [reflexivity|]. intros Hin. apply H. now right.
Qed.

Lemma legacy_split_lines_LF (s l : JsString) :
  In l (split_lines s) -> ~ In LF l.
Proof.
  revert l. induction s as [|c s IH]; simpl; intros l.
  - intros [<- | []]. intros [].
  - destruct (N.eqb_spec c LF) as [E|E].
    + intros [<- | H]; [intros [] | now apply IH].
    + destruct (split_lines s) as [|l0 ls]; simpl.
      * intros [<- | []]. intros [H | []]. now apply E.
      * intros [<- | H].
        -- intros [H | H]; [now apply E|]. apply (IH l0); [now left | exact H].
        -- apply IH. now right.
Qed.

(** *** Pieces of a line *)

Lemma legacy_ltrim_In (x : N) (s : JsString) : In x (ltrim s) -> In x s.
Proof.
  induction s as [|c s IH]; simpl; [auto|].
  destruct (is_space c); [intros H; right; auto | auto].
Qed.

Lemma legacy_trim_In (x : N) (s : JsString) : In x (trim s) -> In x s.
Proof.
  unfold trim, rtrim. intros H. apply in_rev in H. apply legacy_ltrim_In in H.
  apply in_rev in H. now apply legacy_ltrim_In.
Qed.

Lemma legacy_removelast_In (x : N) (s : JsString) : In x (removelast s) -> In x s.
Proof.
  induction s as [|c s IH]; [auto|]. destruct s as [|c' s]; [intros []|].
  change (removelast (c :: c' :: s)) with (c :: removelast (c' :: s)).
  intros [-> | H]; [now left | right; auto].
Qed.

Lemma legacy_slice_1_In (x : N) (s : JsString) : In x (slice_1 s) -> In x s.
Proof.
  unfold slice_1. intros H. apply legacy_removelast_In in H.
  destruct s; [exact H | now right].
Qed.

Lemma legacy_firstn_In (x : N) (n : nat) (s : JsString) :
  In x (firstn n s) -> In x s.
Proof.
  intros H. rewrite <- (firstn_skipn n s). apply in_or_app. now left.
Qed.

Lemma legacy_skipn_In (x : N) (n : nat) (s : JsString) :
  In x (skipn n s) -> In x s.
Proof.
  intros H. rewrite <- (firstn_skipn n s). apply in_or_app. now right.
Qed.

(** What one line does to the object: nothing, or one assignment of a
    key and a value cut from that line. *)
Lemma legacy_parse_line_cases (config : gmap JsString JsString) (line : JsString) :
  parse_line config line = config \/
  exists key value,
    parse_line config line = <[key := value]> config /\
    (forall x, In x key -> In x line) /\ (forall x, In x value -> In x line).
Proof.
  unfold parse_line. cbv zeta.
  destruct (_ || _); [now left|].
  destruct (indexOf EQUALS (trim line)) as [i|]; [|now left].
  unfold assign. case_decide as Hk; [now left|]. right.
  eexists _, _. split; [reflexivity|]. split.
  - intros x Hx. apply legacy_trim_In in Hx. apply legacy_firstn_In in Hx.
    now apply legacy_trim_In.
  - intros x Hx.
    assert (Hv : In x (trim (skipn (S i) (trim line)))).
    { destruct (_ || _); [now apply legacy_slice_1_In | exact Hx]. }
    apply legacy_trim_In in Hv. apply legacy_skipn_In in Hv.
    now apply legacy_trim_In.
Qed.

Lemma legacy_fold_bindings (ls : list JsString) (m : gmap JsString JsString) :
  (forall l, In l ls -> ~ In LF l) ->
  (forall k v, m !! k = Some v -> ~ In LF k /\ ~ In LF v) ->
  forall k v, fold_left parse_line ls m !! k = Some v -> ~ In LF k /\ ~ In LF v.
Proof.
  revert m. induction ls as [|l ls IH]; intros m Hls Hm; [exact Hm|].
  simpl. apply IH; [intros l' Hl'; apply Hls; now right|].
  destruct (legacy_parse_line_cases m l) as [-> | (key & value & -> & Hk & Hv)];
    [exact Hm|].
  assert (Hl : ~ In LF l) by (apply Hls; now left).
  intros k v. rewrite lookup_insert_Some. intros [[<- <-] | [_ H]]; [|now apply Hm].
  split; intros Hin; apply Hl; auto.
Qed.

Lemma legacy_parse_line_union (m : gmap JsString JsString) (line : JsString) :
  parse_line m line = parse_line ∅ line ∪ m.
Proof.
  unfold parse_line. cbv zeta.
  destruct (_ || _); [now rewrite (left_id ∅ (∪) m)|].
  destruct (indexOf EQUALS (trim line)) as [i|]; [|now rewrite (left_id ∅ (∪) m)].
  unfold assign. case_decide; [now rewrite (left_id ∅ (∪) m)|].
  now rewrite <- insert_union_l, (left_id ∅ (∪) m).
Qed.

Lemma legacy_fold_union (ls : list JsString) (m : gmap JsString JsString) :
  fold_left parse_line ls m = fold_left parse_line ls ∅ ∪ m.
Proof.
  revert m. induction ls as [|l ls IH]; intros m; simpl.
  - now rewrite (left_id ∅ (∪) m).
  - rewrite (IH (parse_line m l)), (IH (parse_line ∅ l)).
    rewrite <- (assoc_L (∪)). f_equal. apply legacy_parse_line_union.
Qed.

(** *** Trimming *)

Lemma legacy_ltrim_length (s : JsString) : (length (ltrim s) <= length s)%nat.
Proof.
  induction s as [|c s IH]; simpl; [lia|]. destruct (is_space c); simpl; lia.
Qed.

Lemma legacy_ltrim_fixed (c : N) (s : JsString) :
  ltrim (c :: s) = c :: s -> is_space c = false.
Proof.
  simpl. destruct (is_space c); [|reflexivity]. intros H.
  pose proof (legacy_ltrim_length s) as Hl. rewrite H in Hl. simpl in Hl. lia.
Qed.

Lemma legacy_rtrim_snoc (l : JsString) (c : N) :
  is_space c = false -> rtrim (l ++ [c]) = l ++ [c].
Proof.
  intros Hc. unfold rtrim. rewrite rev_app_distr. simpl. rewrite Hc.
  simpl. now rewrite rev_involutive.
Qed.

Lemma legacy_trim_ends (c q : N) (s : JsString) :
  is_space c = false -> is_space q = false ->
  trim (c :: s ++ [q]) = c :: s ++ [q].
Proof.
  intros Hc Hq. unfold trim. simpl. rewrite Hc.
  change (c :: s ++ [q]) with ((c :: s) ++ [q]). now apply legacy_rtrim_snoc.
Qed.

Lemma legacy_indexOf_app (c : N) (a b : JsString) :
  ~ In c a -> indexOf c (a ++ c :: b) = Some (length a).
Proof.
  induction a as [|x a IH]; intros H; simpl.
  - now rewrite N.eqb_refl.
  - destruct (N.eqb_spec x c) as [E|E]; [exfalso; apply H; now left|].
    rewrite IH; [reflexivity|]. intros Hin. apply H. now right.
Qed.

End LegacyFacts.

(** X24.  The first parser cuts every binding from one line.  Whatever
    the blob, no key and no value of the object the first
    [parseEnvContent] returns contains a line feed; a quoted value that
    spans several lines is therefore never bound whole. *)
Theorem legacy_parser_binds_within_a_line
    (content k v : Legacy.JsString) :
  Legacy.parseEnvContent content !! k = Some v ->
  ~ In Legacy.LF k /\ ~ In Legacy.LF v.
Proof.
  unfold Legacy.parseEnvContent.
  apply LegacyFacts.legacy_fold_bindings.
  - intros l. apply LegacyFacts.legacy_split_lines_LF.
  - intros k' v'. rewrite lookup_empty. discriminate.
Qed.

(** A sample run of [legacy_parser_binds_within_a_line]: of the value
    quoted over two lines, the first line stays, with its opening
    quote. *)
Lemma legacy_parser_binds_within_a_line_witness :
  Legacy.parseEnvContent Legacy.two_line_blob !! Legacy.units "KEY"
  = Some (Legacy.DQUOTE :: Legacy.units "ab") /\
  ~ In Legacy.LF (Legacy.units "KEY") /\
  ~ In Legacy.LF (Legacy.DQUOTE :: Legacy.units "ab").
Proof.
  split; [vm_compute; reflexivity|].
  apply (legacy_parser_binds_within_a_line Legacy.two_line_blob).
  vm_compute. reflexivity.
Defined.

(** X25.  The first parser reads line by line, later lines winning.
    The object parsed from two blobs joined by a line feed holds the
    bindings of the second blob and, for the keys the second does not
    bind, those of the first. *)
Theorem legacy_parser_later_lines_win (a b : Legacy.JsString) :
  Legacy.parseEnvContent (a ++ Legacy.LF :: b)%list
  = Legacy.parseEnvContent b ∪ Legacy.parseEnvContent a.
Proof.
  unfold Legacy.parseEnvContent.
  rewrite LegacyFacts.legacy_split_lines_app, fold_left_app.
  apply LegacyFacts.legacy_fold_union.
Qed.

(** X26.  A quoted value on one line is read back as written.  For a
    key without surrounding white space, separator or line feed, that
    does not start a comment and is not [__proto__], and any value
    without line feed, the blob [key=QvalueQ], [Q] being either quote
    character, parses to the single binding of the key to exactly the
    value: inner white space, separators, comment marks and quotes
    stay. *)
Theorem legacy_parser_reads_quoted_value (q : N) (k v : Legacy.JsString) :
  q = Legacy.DQUOTE \/ q = Legacy.SQUOTE ->
  Legacy.ltrim k = k -> Legacy.rtrim k = k ->
  ~ In Legacy.EQUALS k -> ~ In Legacy.LF k ->
  Legacy.startsWith Legacy.HASH k = false ->
  k <> Legacy.PROTO ->
  ~ In Legacy.LF v ->
  Legacy.parseEnvContent (k ++ Legacy.EQUALS :: q :: v ++ [q])%list
  = {[ k := v ]}.
Proof.
  intros Hq Hl Hr Heq Hlf Hhash Hproto Hv.
  assert (Hqs : Legacy.is_space q = false) by (destruct Hq; subst; reflexivity).
  assert (Hqlf : q <> Legacy.LF) by (destruct Hq; subst; discriminate).
  set (value := (q :: v ++ [q])%list).
  set (line := (k ++ Legacy.EQUALS :: value)%list).
  assert (Hline : ~ In Legacy.LF line).
  { unfold line, value. intros H. apply in_app_or in H as [H | [H | [H | H]]];
      [auto | discriminate | now apply Hqlf |].
    apply in_app_or in H as [H | [H | []]]; [auto | now apply Hqlf]. }
  unfold Legacy.parseEnvContent.
  rewrite (LegacyFacts.legacy_split_lines_single line Hline). simpl.
  unfold Legacy.parse_line. cbv zeta.
  assert (Htrim : Legacy.trim line = line).
  { unfold line, value. destruct k as [|c k'].
    - change ([] ++ ?x)%list with x.
      change (Legacy.EQUALS :: q :: v ++ [q])%list
        with (Legacy.EQUALS :: (q :: v) ++ [q])%list.
      now apply LegacyFacts.legacy_trim_ends.
    - replace ((c :: k') ++ Legacy.EQUALS :: q :: v ++ [q])%list
        with (c :: (k' ++ Legacy.EQUALS :: q :: v) ++ [q])%list
        by (simpl; now rewrite <- app_assoc).
      apply LegacyFacts.legacy_trim_ends; [|exact Hqs].
      now apply (LegacyFacts.legacy_ltrim_fixed c k'). }
  rewrite Htrim.
  assert (Hstart : (match line with [] => true | _ => false end
                    || Legacy.startsWith Legacy.HASH line) = false).
  { unfold line. destruct k as [|c k']; [reflexivity|]. simpl in *. exact Hhash. }
  rewrite Hstart. unfold line at 1.
  rewrite (LegacyFacts.legacy_indexOf_app Legacy.EQUALS k value Heq).
  unfold line. rewrite firstn_app, Nat.sub_diag, firstn_all. simpl firstn.
  rewrite app_nil_r.
  replace (skipn (S (length k)) (k ++ Legacy.EQUALS :: value))%list with value.
  2:{ change (k ++ Legacy.EQUALS :: value)%list
        with (k ++ [Legacy.EQUALS] ++ value)%list.
      rewrite app_assoc.
      replace (S (length k)) with (length (k ++ [Legacy.EQUALS])%list)
        by (rewrite length_app; simpl; lia).
      now rewrite skipn_app, skipn_all, Nat.sub_diag. }
  assert (Hk : Legacy.trim k = k) by (unfold Legacy.trim; now rewrite Hl, Hr).
  rewrite Hk.
  assert (Hval : Legacy.trim value = value).
  { unfold value. now apply LegacyFacts.legacy_trim_ends. }
  rewrite Hval.
  assert (Hwrapped : (Legacy.startsWith Legacy.DQUOTE value
                      && Legacy.endsWith Legacy.DQUOTE value
                      || Legacy.startsWith Legacy.SQUOTE value
                         && Legacy.endsWith Legacy.SQUOTE value) = true).
  { unfold Legacy.endsWith, value.
    change (q :: v ++ [q])%list with ((q :: v) ++ [q])%list.
    rewrite rev_app_distr. simpl. destruct Hq; subst q; reflexivity. }
  rewrite Hwrapped.
  assert (Hslice : Legacy.slice_1 value = v).
  { unfold Legacy.slice_1, value. simpl tl. apply removelast_last. }
  rewrite Hslice. unfold Legacy.assign. rewrite decide_False by exact Hproto.
  reflexivity.
Qed.

(** A sample run of [legacy_parser_reads_quoted_value]: a value with
    inner spaces, a separator and a comment mark. *)
Lemma legacy_parser_reads_quoted_value_witness :
  Legacy.parseEnvContent
    (Legacy.units "API_KEY" ++ Legacy.EQUALS :: Legacy.DQUOTE
       :: Legacy.units " a=b #c " ++ [Legacy.DQUOTE])%list
  = {[ Legacy.units "API_KEY" := Legacy.units " a=b #c " ]}.
Proof.
  apply (legacy_parser_reads_quoted_value Legacy.DQUOTE (Legacy.units "API_KEY")
           (Legacy.units " a=b #c "));
    try (vm_compute; reflexivity); try (now left);
    vm_compute; intuition discriminate.
Defined.
